(** * ASTC agent framework: message router, activity monitor and
      test-execution simulator

    A shallow embedding of three Python modules of the backend,

      - [framework/communication.py]  (modules [Router], [RouterOps],
                                       [Conversations] and [Workflows]),
      - [framework/agent_monitor.py]  (modules [Monitor] and [MonitorOps]),
      - [agents/test_execution.py]    (modules [Executor] and [Reports]),

    followed by the properties of their specification that can be settled on
    the code (modules [RouterFacts], [MonitorFacts] and [ExecutorFacts]) and
    by further properties that the code itself shows (modules
    [RouterOpsFacts], [ConversationsFacts], [WorkflowsFacts],
    [MonitorOpsFacts] and [ReportsFacts]).

    Conventions.  A Python object with attributes is a record; a [dict] is a
    [gmap]; a [list] is a [list].  Code that may raise runs in the monad
    [Py S], whose state survives a raised exception exactly as the attributes
    of a Python object do.  Wall-clock readings and random draws are inputs:
    they are read from an oracle, in the order in which the code asks for
    them.  Python floats are idealised: the monitor is parametric in the
    float operations, the executor computes its probabilities in [Q]. *)

From Stdlib Require Import ZArith QArith Lia Lqa Ascii Permutation Sorted.
From stdpp Require Import gmap strings list pretty.

Local Open Scope Z_scope.

(** ** Python results and the state-and-exception monad *)

Inductive exn : Type :=
| ValueError
| TypeError
| KeyError
| HandlerError.

Inductive res (A : Type) : Type :=
| Ok (a : A)
| Raise (e : exn).
Arguments Ok {A} a.
Arguments Raise {A} e.

Definition Py (S A : Type) : Type := S -> res A * S.

Definition ret {S A : Type} (a : A) : Py S A :=
  fun s => (Ok a, s).

Definition raise {S A : Type} (e : exn) : Py S A :=
  fun s => (Raise e, s).

Definition bind {S A B : Type} (m : Py S A) (k : A -> Py S B) : Py S B :=
  fun s => match m s with
           | (Ok a, s') => k a s'
           | (Raise e, s') => (Raise e, s')
           end.

(** [try: body / except Exception: handler]: the handler runs in the state
    the body left behind. *)
Definition try_except {S A : Type} (body : Py S A) (handler : exn -> Py S A) : Py S A :=
  fun s => match body s with
           | (Ok a, s') => (Ok a, s')
           | (Raise e, s') => handler e s'
           end.

Definition gets {S A : Type} (f : S -> A) : Py S A :=
  fun s => (Ok (f s), s).

Definition modify {S : Type} (f : S -> S) : Py S unit :=
  fun s => (Ok tt, f s).

Notation "x <- m ;; k" := (bind m (fun x => k))
  (at level 100, m at next level, right associativity).
Notation "m ;;; k" := (bind m (fun _ => k))
  (at level 100, right associativity).

(** [d[k]] on a dict raises [KeyError] for a missing key. *)
Definition subscript {S V : Type} (d : S -> gmap string V) (k : string) : Py S V :=
  fun s => match d s !! k with
           | Some v => (Ok v, s)
           | None => (Raise KeyError, s)
           end.

(** ** [datetime]: what the router needs of it

    A [datetime] is a wall-clock reading and, when it is timezone-aware, its
    UTC offset.  [datetime.now()] is naive.  Ordering a naive against an aware
    [datetime] raises [TypeError]. *)

Record datetime : Type := {
  wall : Z;
  utcoffset : option Z
}.

Definition datetime_gt (now : Z) (t : datetime) : res bool :=
  match utcoffset t with
  | None => Ok (wall t <? now)
  | Some _ => Raise TypeError
  end.

(** [s.replace('Z', '+00:00')] *)
Fixpoint replace_Z (s : string) : string :=
  match s with
  | EmptyString => EmptyString
  | String c rest =>
      if Ascii.eqb c "Z"%char then "+00:00" +:+ replace_Z rest
      else String c (replace_Z rest)
  end.

(** An instance of [datetime.fromisoformat] for the examples: it reads the
    shape [YYYY-MM-DDTHH:MM:SS] that [datetime.isoformat()] writes, with an
    optional [+HH:MM] or [-HH:MM] offset, and raises [ValueError] on anything
    else.  The theorems below hold for every parser; this one only supplies
    concrete inputs. *)

Definition digit (c : ascii) : option Z :=
  let n := Z.of_nat (nat_of_ascii c) in
  if (48 <=? n) && (n <=? 57) then Some (n - 48) else None.

Fixpoint digits (k : nat) (acc : Z) (s : string) : option (Z * string) :=
  match k with
  | O => Some (acc, s)
  | S k' =>
      match s with
      | EmptyString => None
      | String c rest => d ← digit c; digits k' (10 * acc + d) rest
      end
  end.

Definition expect (c : ascii) (s : string) : option string :=
  match s with
  | String c' rest => if Ascii.eqb c c' then Some rest else None
  | EmptyString => None
  end.

Definition in_range (lo hi v : Z) : option unit :=
  if (lo <=? v) && (v <=? hi) then Some tt else None.

Definition parse_offset (s : string) : option (option Z) :=
  match s with
  | EmptyString => Some None
  | String sign rest =>
      sgn ← (if Ascii.eqb sign "+"%char then Some 1
             else if Ascii.eqb sign "-"%char then Some (-1) else None);
      '(h, rest) ← digits 2 0 rest;
      rest ← expect ":"%char rest;
      '(m, rest) ← digits 2 0 rest;
      _ ← in_range 0 23 h;
      _ ← in_range 0 59 m;
      match rest with
      | EmptyString => Some (Some (sgn * (60 * h + m)))
      | _ => None
      end
  end.

Definition parse_iso (s : string) : option datetime :=
  '(y, s) ← digits 4 0 s;
  s ← expect "-"%char s;
  '(mo, s) ← digits 2 0 s;
  s ← expect "-"%char s;
  '(d, s) ← digits 2 0 s;
  s ← expect "T"%char s;
  '(h, s) ← digits 2 0 s;
  s ← expect ":"%char s;
  '(mi, s) ← digits 2 0 s;
  s ← expect ":"%char s;
  '(sec, s) ← digits 2 0 s;
  off ← parse_offset s;
  _ ← in_range 1 9999 y;
  _ ← in_range 1 12 mo;
  _ ← in_range 1 31 d;
  _ ← in_range 0 23 h;
  _ ← in_range 0 59 mi;
  _ ← in_range 0 59 sec;
  Some {| wall := ((((y * 12 + (mo - 1)) * 31 + (d - 1)) * 24 + h) * 60 + mi) * 60 + sec;
          utcoffset := off |}.

Definition iso_parser (s : string) : res datetime :=
  match parse_iso s with
  | Some t => Ok t
  | None => Raise ValueError
  end.

(** The naive wall-clock reading of a timestamp, for writing [now]. *)
Definition wall_of (s : string) : Z :=
  match parse_iso s with
  | Some t => wall t
  | None => 0
  end.

(** * Part I: the model *)

(** ** The message router ([framework/communication.py]) *)

Module Router.

Inductive MessageType : Type := REQUEST | RESPONSE | NOTIFICATION | BROADCAST | ERROR.

Inductive Priority : Type := LOW | MEDIUM | HIGH | CRITICAL.

Record AgentMessage : Type := {
  message_id : string;
  from_agent : string;
  to_agent : string;
  message_type : MessageType;
  priority : Priority;
  timestamp : string;
  payload : gmap string string;
  correlation_id : option string;
  reply_to : option string;
  expires_at : option string
}.

(** [delivery_stats]: a dict with the four fixed keys below. *)
Record DeliveryStats : Type := {
  sent : Z;
  delivered : Z;
  failed : Z;
  expired : Z
}.

(** A delivery handler is an opaque callable; [H] names the callables and
    [invoke], below, runs one. *)
Record MessageRouter (H : Type) : Type := {
  message_queue : list AgentMessage;
  delivery_handlers : gmap string H;
  subscription_patterns : gmap string (list string);
  message_history : list AgentMessage;
  delivery_stats : DeliveryStats
}.
Arguments message_queue {H} _.
Arguments delivery_handlers {H} _.
Arguments subscription_patterns {H} _.
Arguments message_history {H} _.
Arguments delivery_stats {H} _.

(** The router together with the log of handler invocations, oldest first:
    [(agent_id, message)] is logged when the handler registered for
    [agent_id] is called with [message]. *)
Record World (H : Type) : Type := {
  router : MessageRouter H;
  calls : list (string * AgentMessage)
}.
Arguments router {H} _.
Arguments calls {H} _.

Definition new_router {H : Type} : MessageRouter H :=
  {| message_queue := [];
     delivery_handlers := ∅;
     subscription_patterns := ∅;
     message_history := [];
     delivery_stats := {| sent := 0; delivered := 0; failed := 0; expired := 0 |} |}.

Definition bump_delivered (d : DeliveryStats) : DeliveryStats :=
  {| sent := sent d; delivered := delivered d + 1; failed := failed d; expired := expired d |}.

Definition bump_failed (d : DeliveryStats) : DeliveryStats :=
  {| sent := sent d; delivered := delivered d; failed := failed d + 1; expired := expired d |}.

Definition bump_expired (d : DeliveryStats) : DeliveryStats :=
  {| sent := sent d; delivered := delivered d; failed := failed d; expired := expired d + 1 |}.

Definition with_stats {H : Type} (f : DeliveryStats -> DeliveryStats) (w : World H) : World H :=
  {| router := {| message_queue := message_queue (router w);
                  delivery_handlers := delivery_handlers (router w);
                  subscription_patterns := subscription_patterns (router w);
                  message_history := message_history (router w);
                  delivery_stats := f (delivery_stats (router w)) |};
     calls := calls w |}.

Definition with_history {H : Type} (f : list AgentMessage -> list AgentMessage) (w : World H) : World H :=
  {| router := {| message_queue := message_queue (router w);
                  delivery_handlers := delivery_handlers (router w);
                  subscription_patterns := subscription_patterns (router w);
                  message_history := f (message_history (router w));
                  delivery_stats := delivery_stats (router w) |};
     calls := calls w |}.

Definition with_handlers {H : Type} (f : gmap string H -> gmap string H) (w : World H) : World H :=
  {| router := {| message_queue := message_queue (router w);
                  delivery_handlers := f (delivery_handlers (router w));
                  subscription_patterns := subscription_patterns (router w);
                  message_history := message_history (router w);
                  delivery_stats := delivery_stats (router w) |};
     calls := calls w |}.

Definition log_call {H : Type} (agent_id : string) (message : AgentMessage) (w : World H) : World H :=
  {| router := router w; calls := calls w ++ [(agent_id, message)] |}.

(** [self.message_history.append(message)], then keep the last 1000. *)
Definition append_capped (message : AgentMessage) (history : list AgentMessage) : list AgentMessage :=
  let h := history ++ [message] in
  if (1000 <? Z.of_nat (length h)) then drop (length h - 1000)%nat h else h.

Section Operations.

Context {H : Type}.

(** [datetime.fromisoformat], and the call of a registered handler: the
    handler may do anything to the router before it returns a truth value or
    raises. *)
Variable fromisoformat : string -> res datetime.
Variable invoke : H -> AgentMessage -> Py (World H) bool.

Definition register_agent (agent_id : string) (delivery_handler : H) : Py (World H) unit :=
  modify (with_handlers (fun hs => <[agent_id := delivery_handler]> hs)).

(** [_is_expired]: [now] is the reading of [datetime.now()]. *)
Definition _is_expired (now : Z) (message : AgentMessage) : bool :=
  match expires_at message with
  | None => false
  | Some EmptyString => false
  | Some s =>
      match fromisoformat (replace_Z s) with
      | Ok expires_time =>
          match datetime_gt now expires_time with
          | Ok b => b
          | Raise _ => false
          end
      | Raise _ => false
      end
  end.

Definition _add_to_history (message : AgentMessage) : Py (World H) unit :=
  modify (with_history (append_capped message)).

(** The part of [send_message] after the history is written: look the
    recipient up and call its handler. *)
Definition deliver (message : AgentMessage) : Py (World H) bool :=
  h <- gets (fun w => delivery_handlers (router w) !! to_agent message) ;;
  match h with
  | Some handler =>
      success <- (modify (log_call (to_agent message) message) ;;; invoke handler message) ;;
      (if success : bool
       then modify (with_stats bump_delivered)
       else modify (with_stats bump_failed)) ;;;
      ret success
  | None =>
      modify (with_stats bump_failed) ;;; ret false
  end.

Definition on_exception : exn -> Py (World H) bool :=
  fun _ => modify (with_stats bump_failed) ;;; ret false.

Definition send_message (now : Z) (message : AgentMessage) : Py (World H) bool :=
  try_except
    (if _is_expired now message
     then modify (with_stats bump_expired) ;;; ret false
     else _add_to_history message ;;; deliver message)
    on_exception.

End Operations.

(** *** Concrete routers *)

(** Handlers for the examples: [h_accept] returns [True], [h_reject]
    returns [False], [h_crash] raises. *)
Inductive sample_handler : Type := h_accept | h_reject | h_crash.

Definition run_sample (h : sample_handler) (message : AgentMessage)
  : Py (World sample_handler) bool :=
  match h with
  | h_accept => ret true
  | h_reject => ret false
  | h_crash => raise HandlerError
  end.

Definition msg (to : string) (expiry : option string) : AgentMessage :=
  {| message_id := "m-1";
     from_agent := "api_server";
     to_agent := to;
     message_type := REQUEST;
     priority := MEDIUM;
     timestamp := "2026-11-03T10:00:00";
     payload := ∅;
     correlation_id := None;
     reply_to := None;
     expires_at := expiry |}.

Definition sample_world : World sample_handler :=
  {| router := {| message_queue := [];
                  delivery_handlers := <["worker" := h_accept]> (<["broken" := h_crash]> ∅);
                  subscription_patterns := ∅;
                  message_history := [];
                  delivery_stats := {| sent := 0; delivered := 0; failed := 0; expired := 0 |} |};
     calls := [] |}.

Definition noon : Z := wall_of "2026-11-03T12:00:00".

End Router.

(** ** The message router: wire format, subscriptions, broadcast and queries *)

Module RouterOps.

Import Router.

(** *** The wire format ([AgentMessage.to_dict], [AgentMessage.from_dict]) *)

(** The values of the dict that [to_dict] writes and [from_dict] reads. *)
Inductive value : Type :=
| VNone
| VBool (b : bool)
| VInt (n : Z)
| VStr (s : string)
| VDict (d : gmap string string).

(** [MessageType.value] and [Priority.value] *)
Definition MessageType_value (t : MessageType) : string :=
  match t with
  | REQUEST => "request"
  | RESPONSE => "response"
  | NOTIFICATION => "notification"
  | BROADCAST => "broadcast"
  | ERROR => "error"
  end.

Definition Priority_value (p : Priority) : Z :=
  match p with
  | LOW => 1
  | MEDIUM => 2
  | HIGH => 3
  | CRITICAL => 4
  end.

(** [MessageType(v)] and [Priority(v)]: the member with that value, and
    [ValueError] when there is none.  [True] equals [1] and hashes like it,
    so [Priority(True)] is [Priority.LOW]. *)
Definition MessageType_of (v : value) : res MessageType :=
  match v with
  | VStr s =>
      if String.eqb s "request" then Ok REQUEST
      else if String.eqb s "response" then Ok RESPONSE
      else if String.eqb s "notification" then Ok NOTIFICATION
      else if String.eqb s "broadcast" then Ok BROADCAST
      else if String.eqb s "error" then Ok ERROR
      else Raise ValueError
  | _ => Raise ValueError
  end.

Definition Priority_of (v : value) : res Priority :=
  match v with
  | VInt 1 | VBool true => Ok LOW
  | VInt 2 => Ok MEDIUM
  | VInt 3 => Ok HIGH
  | VInt 4 => Ok CRITICAL
  | _ => Raise ValueError
  end.

Definition optional (o : option string) : value :=
  match o with
  | Some s => VStr s
  | None => VNone
  end.

Definition to_dict (m : AgentMessage) : gmap string value :=
  list_to_map
    [ ("message_id", VStr (message_id m));
      ("from_agent", VStr (from_agent m));
      ("to_agent", VStr (to_agent m));
      ("message_type", VStr (MessageType_value (message_type m)));
      ("priority", VInt (Priority_value (priority m)));
      ("timestamp", VStr (timestamp m));
      ("payload", VDict (payload m));
      ("correlation_id", optional (correlation_id m));
      ("reply_to", optional (reply_to m));
      ("expires_at", optional (expires_at m)) ].

(** The object that [from_dict] builds.  The dataclass checks no types: an
    attribute holds whatever value the dict had under its key; only
    [message_type] and [priority] went through their enumerations. *)
Record RawMessage : Type := {
  raw_message_id : value;
  raw_from_agent : value;
  raw_to_agent : value;
  raw_message_type : MessageType;
  raw_priority : Priority;
  raw_timestamp : value;
  raw_payload : value;
  raw_correlation_id : value;
  raw_reply_to : value;
  raw_expires_at : value
}.

(** An [AgentMessage] whose attributes have the annotated types, as the
    object it is. *)
Definition untyped (m : AgentMessage) : RawMessage :=
  {| raw_message_id := VStr (message_id m);
     raw_from_agent := VStr (from_agent m);
     raw_to_agent := VStr (to_agent m);
     raw_message_type := message_type m;
     raw_priority := priority m;
     raw_timestamp := VStr (timestamp m);
     raw_payload := VDict (payload m);
     raw_correlation_id := optional (correlation_id m);
     raw_reply_to := optional (reply_to m);
     raw_expires_at := optional (expires_at m) |}.

(** Sequencing of computations that may raise and have no state. *)
Definition and_then {A B : Type} (m : res A) (k : A -> res B) : res B :=
  match m with
  | Ok a => k a
  | Raise e => Raise e
  end.

Notation "x <~ m ;; k" := (and_then m (fun x => k))
  (at level 100, m at next level, right associativity).

(** [data[k]] and [data.get(k)] *)
Definition item (data : gmap string value) (k : string) : res value :=
  match data !! k with
  | Some v => Ok v
  | None => Raise KeyError
  end.

Definition get (data : gmap string value) (k : string) : value :=
  default VNone (data !! k).

(** [from_dict]: the keyword arguments are evaluated from left to right. *)
Definition from_dict (data : gmap string value) : res RawMessage :=
  message_id <~ item data "message_id" ;;
  from_agent <~ item data "from_agent" ;;
  to_agent <~ item data "to_agent" ;;
  message_type <~ (v <~ item data "message_type" ;; MessageType_of v) ;;
  priority <~ (v <~ item data "priority" ;; Priority_of v) ;;
  timestamp <~ item data "timestamp" ;;
  payload <~ item data "payload" ;;
  Ok {| raw_message_id := message_id;
        raw_from_agent := from_agent;
        raw_to_agent := to_agent;
        raw_message_type := message_type;
        raw_priority := priority;
        raw_timestamp := timestamp;
        raw_payload := payload;
        raw_correlation_id := get data "correlation_id";
        raw_reply_to := get data "reply_to";
        raw_expires_at := get data "expires_at" |}.


(** *** Subscriptions *)

Definition with_subscriptions {H : Type}
  (f : gmap string (list string) -> gmap string (list string)) (w : World H) : World H :=
  {| router := {| message_queue := message_queue (router w);
                  delivery_handlers := delivery_handlers (router w);
                  subscription_patterns := f (subscription_patterns (router w));
                  message_history := message_history (router w);
                  delivery_stats := delivery_stats (router w) |};
     calls := calls w |}.

(** [l.remove(x)]: the first occurrence goes; [ValueError] when there is
    none. *)
Fixpoint list_remove (x : string) (l : list string) : res (list string) :=
  match l with
  | [] => Raise ValueError
  | y :: l' =>
      if String.eqb y x then Ok l'
      else match list_remove x l' with
           | Ok r => Ok (y :: r)
           | Raise e => Raise e
           end
  end.

Section Subscriptions.

Context {H : Type}.

Definition patterns_of (w : World H) : gmap string (list string) :=
  subscription_patterns (router w).

(** [self.subscription_patterns[pattern].remove(agent_id)] *)
Definition remove_subscriber (agent_id pattern : string) : Py (World H) unit :=
  agents <- subscript patterns_of pattern ;;
  match list_remove agent_id agents with
  | Ok agents' => modify (with_subscriptions (fun sp => <[pattern := agents']> sp))
  | Raise e => raise e
  end.

Definition subscribe (agent_id message_pattern : string) : Py (World H) unit :=
  known <- gets (fun w => bool_decide (is_Some (patterns_of w !! message_pattern))) ;;
  (if known : bool then ret tt
   else modify (with_subscriptions (fun sp => <[message_pattern := []]> sp))) ;;;
  agents <- subscript patterns_of message_pattern ;;
  if bool_decide (agent_id ∈ agents) then ret tt
  else modify (with_subscriptions (fun sp => <[message_pattern := agents ++ [agent_id]]> sp)).

(** [if agent_id in self.subscription_patterns[pattern]:
    self.subscription_patterns[pattern].remove(agent_id)], which
    [unsubscribe] and the loop of [unregister_agent] both run. *)
Definition strip (agent_id pattern : string) : Py (World H) unit :=
  agents <- subscript patterns_of pattern ;;
  if bool_decide (agent_id ∈ agents) then remove_subscriber agent_id pattern else ret tt.

Definition unsubscribe (agent_id message_pattern : string) : Py (World H) unit :=
  known <- gets (fun w => bool_decide (is_Some (patterns_of w !! message_pattern))) ;;
  if known : bool then strip agent_id message_pattern else ret tt.

(** The loop of [unregister_agent] over the patterns, in the order
    [patterns]. *)
Fixpoint unsubscribe_all (agent_id : string) (patterns : list string) : Py (World H) unit :=
  match patterns with
  | [] => ret tt
  | pattern :: rest => strip agent_id pattern ;;; unsubscribe_all agent_id rest
  end.

(** [unregister_agent]; [keys] lists the keys of a dict in the order in
    which a [for] loop visits them. *)
Definition unregister_agent (keys : gmap string (list string) -> list string) (agent_id : string)
  : Py (World H) unit :=
  known <- gets (fun w => bool_decide (is_Some (delivery_handlers (router w) !! agent_id))) ;;
  (if known : bool then modify (with_handlers (fun hs => delete agent_id hs)) else ret tt) ;;;
  patterns <- gets (fun w => keys (patterns_of w)) ;;
  unsubscribe_all agent_id patterns.

End Subscriptions.

(** *** Pattern matching *)

(** [p in s] for two strings: [p] occurs in [s]. *)
Fixpoint starts_with (p s : string) : bool :=
  match p, s with
  | EmptyString, _ => true
  | String a p', String b s' => Ascii.eqb a b && starts_with p' s'
  | String _ _, EmptyString => false
  end.

Fixpoint contains (p s : string) : bool :=
  starts_with p s ||
  match s with
  | EmptyString => false
  | String _ s' => contains p s'
  end.

(** The payload of a message is a dict of strings here, so
    [message.payload.get("type", "")] is a string. *)
Definition _matches_pattern (message : AgentMessage) (pattern : string) : bool :=
  if String.eqb pattern "*" then true
  else if contains pattern (default "" (payload message !! "type")) then true
  else if contains pattern (MessageType_value (message_type message)) then true
  else false.

(** *** Messages made by the router *)

(** [uuid4 k] is the identifier and [isoformat_now k] the timestamp that
    the [k]-th message made by the router receives. *)
Definition create_message (message_id timestamp : string) (from_agent to_agent : string)
  (payload : gmap string string) (message_type : MessageType) (priority : Priority)
  (correlation_id : option string) : AgentMessage :=
  {| message_id := message_id;
     from_agent := from_agent;
     to_agent := to_agent;
     message_type := message_type;
     priority := priority;
     timestamp := timestamp;
     payload := payload;
     correlation_id := correlation_id;
     reply_to := None;
     expires_at := None |}.

Definition create_reply (message_id timestamp : string) (original_message : AgentMessage)
  (from_agent : string) (payload : gmap string string) : AgentMessage :=
  {| message_id := message_id;
     from_agent := from_agent;
     to_agent := Router.from_agent original_message;
     message_type := RESPONSE;
     priority := priority original_message;
     timestamp := timestamp;
     payload := payload;
     correlation_id := correlation_id original_message;
     reply_to := Some (Router.message_id original_message);
     expires_at := None |}.

(** *** Broadcast *)

Section Broadcast.

Context {H : Type}.
Variable fromisoformat : string -> res datetime.
Variable invoke : H -> AgentMessage -> Py (World H) bool.

(** The order in which a [for] loop visits a set of strings; which one it
    is depends on the hashes of the strings. *)
Variable visit : gset string -> list string.

(** What the [k]-th iteration of the loop reads: [uuid.uuid4()], the
    timestamp [datetime.now().isoformat()], and the clock of
    [send_message]. *)
Variable uuid4 : nat -> string.
Variable isoformat_now : nat -> string.
Variable clock : nat -> Z.

(** The set [subscribers]: the subscribers of the matching patterns. *)
Definition subscribers_of (message : AgentMessage) (sp : gmap string (list string)) : gset string :=
  ⋃ ((fun entry : string * list string =>
        if _matches_pattern message entry.1 then list_to_set entry.2 else ∅)
     <$> map_to_list sp).

Definition broadcast_copy (k : nat) (message : AgentMessage) (agent_id : string) : AgentMessage :=
  {| message_id := uuid4 k;
     from_agent := from_agent message;
     to_agent := agent_id;
     message_type := BROADCAST;
     priority := priority message;
     timestamp := isoformat_now k;
     payload := payload message;
     correlation_id := correlation_id message;
     reply_to := None;
     expires_at := None |}.

Fixpoint broadcast_loop (message : AgentMessage) (k : nat) (agents : list string)
  (results : gmap string bool) : Py (World H) (gmap string bool) :=
  match agents with
  | [] => ret results
  | agent_id :: rest =>
      if String.eqb agent_id (from_agent message) then
        broadcast_loop message (S k) rest results
      else
        sent <- send_message fromisoformat invoke (clock k)
                  (broadcast_copy k message agent_id) ;;
        broadcast_loop message (S k) rest (<[agent_id := sent]> results)
  end.

Definition broadcast_message (message : AgentMessage) : Py (World H) (gmap string bool) :=
  subscribers <- gets (fun w => subscribers_of message (subscription_patterns (router w))) ;;
  broadcast_loop message 0 (visit subscribers) ∅.

(** The messages of a run of [send_message] calls, one after the other. *)
Fixpoint send_all (messages : list (Z * AgentMessage)) : Py (World H) (list bool) :=
  match messages with
  | [] => ret []
  | (now, message) :: rest =>
      b <- send_message fromisoformat invoke now message ;;
      bs <- send_all rest ;;
      ret (b :: bs)
  end.

End Broadcast.

(** *** Queries *)

(** The test of [get_conversation_history]: the message went from one of
    the two agents to the other. *)
Definition between (agent1 agent2 : string) (message : AgentMessage) : bool :=
  (String.eqb (from_agent message) agent1 && String.eqb (to_agent message) agent2)
  || (String.eqb (from_agent message) agent2 && String.eqb (to_agent message) agent1).

(** The loop over [reversed(self.message_history)], with its [break]. *)
Fixpoint conversation_loop (agent1 agent2 : string) (limit : Z)
  (messages conversation : list AgentMessage) : list AgentMessage :=
  match messages with
  | [] => conversation
  | message :: rest =>
      if between agent1 agent2 message then
        let conversation := conversation ++ [message] in
        if limit <=? Z.of_nat (length conversation) then conversation
        else conversation_loop agent1 agent2 limit rest conversation
      else conversation_loop agent1 agent2 limit rest conversation
  end.

Definition get_conversation_history {H : Type} (agent1 agent2 : string) (limit : Z)
  (r : MessageRouter H) : list AgentMessage :=
  reverse (conversation_loop agent1 agent2 limit (reverse (message_history r)) []).

(** The dict that [get_message_stats] returns; [success_rate] is a float,
    or the integer 0. *)
Record MessageStats : Type := {
  total_messages : Z;
  stats_delivery_stats : DeliveryStats;
  stats_success_rate : Q;
  active_agents : nat;
  stats_subscription_patterns : nat;
  queue_size : nat
}.

Definition get_message_stats {H : Type} (r : MessageRouter H) : MessageStats :=
  let d := delivery_stats r in
  let total_messages := sent d + delivered d + failed d + expired d in
  {| total_messages := total_messages;
     stats_delivery_stats := d;
     stats_success_rate :=
       if 0 <? total_messages
       then (inject_Z (delivered d) / inject_Z total_messages * 100)%Q
       else 0%Q;
     active_agents := size (delivery_handlers r);
     stats_subscription_patterns := size (subscription_patterns r);
     queue_size := length (message_queue r) |}.

(** *** Notions that the properties are stated with *)

(** [p] occurs in [s]. *)
Definition occurs_in (p s : string) : Prop :=
  exists a b : string, s = a +:+ p +:+ b.

(** No agent is listed twice under a pattern. *)
Definition no_double_subscription {H : Type} (w : World H) : Prop :=
  forall (pattern : string) (agents : list string),
    subscription_patterns (router w) !! pattern = Some agents -> NoDup agents.

(** [agent_id] is listed under [pattern]. *)
Definition subscribed (agent_id pattern : string) (sp : gmap string (list string)) : Prop :=
  exists agents : list string, sp !! pattern = Some agents /\ agent_id ∈ agents.

(** From [sp] to [sp'] the patterns are the same, no list has gained a
    subscriber, and none has lost one other than [agent_id]. *)
Definition only_lost (agent_id : string) (sp sp' : gmap string (list string)) : Prop :=
  forall pattern : string,
    match sp !! pattern, sp' !! pattern with
    | Some agents, Some agents' =>
        (forall x : string, x ∈ agents' -> x ∈ agents)
        /\ (forall x : string, x <> agent_id -> x ∈ agents -> x ∈ agents')
    | None, None => True
    | _, _ => False
    end.

(** From [w] to [w'] nothing but the subscriptions has changed. *)
Definition subscriptions_apart {H : Type} (w w' : World H) : Prop :=
  message_queue (router w') = message_queue (router w)
  /\ delivery_handlers (router w') = delivery_handlers (router w)
  /\ message_history (router w') = message_history (router w)
  /\ delivery_stats (router w') = delivery_stats (router w)
  /\ calls w' = calls w.

(** The calls that manage subscriptions. *)
Inductive Change : Type :=
| Subscribe (agent_id pattern : string)
| Unsubscribe (agent_id pattern : string)
| Unregister (agent_id : string).

Definition change {H : Type} (keys : gmap string (list string) -> list string) (c : Change)
  : Py (World H) unit :=
  match c with
  | Subscribe a p => subscribe a p
  | Unsubscribe a p => unsubscribe a p
  | Unregister a => unregister_agent keys a
  end.

Fixpoint changes {H : Type} (keys : gmap string (list string) -> list string) (cs : list Change)
  : Py (World H) unit :=
  match cs with
  | [] => ret tt
  | c :: rest => change keys c ;;; changes keys rest
  end.

(** Handlers that leave the router as they find it. *)
Definition quiet {H : Type} (invoke : H -> AgentMessage -> Py (World H) bool) : Prop :=
  forall (h : H) (message : AgentMessage) (w : World H), snd (invoke h message w) = w.

(** The last [n] entries of a list. *)
Definition last_n {A : Type} (n : nat) (l : list A) : list A :=
  drop (length l - n) l.

(** The messages of a run that [_is_expired] lets through. *)
Definition unexpired (fromisoformat : string -> res datetime) (messages : list (Z * AgentMessage))
  : list AgentMessage :=
  snd <$> filter (fun nm => _is_expired fromisoformat nm.1 nm.2 = false) messages.

(** The number of [True] among the answers. *)
Definition successes (answers : list bool) : Z :=
  Z.of_nat (length (filter (fun b : bool => b = true) answers)).

(** The keys of a dict in some order. *)
Definition lists_keys (keys : gmap string (list string) -> list string) : Prop :=
  forall (sp : gmap string (list string)) (k : string), k ∈ keys sp <-> is_Some (sp !! k).

(** The elements of a set, each once, in some order. *)
Definition lists_elements (visit : gset string -> list string) : Prop :=
  forall X : gset string, NoDup (visit X) /\ (forall a : string, a ∈ visit X <-> a ∈ X).

(** *** Concrete routers *)

(** One order of the keys of a dict, and one of the elements of a set. *)
Definition dict_keys (sp : gmap string (list string)) : list string :=
  (map_to_list sp).*1.

Definition set_elements (X : gset string) : list string := elements X.

(** A router with three registered agents and their subscriptions: the
    worker listens to alerts, the auditor and the api server to
    everything. *)
Definition newsroom : World sample_handler :=
  snd (changes dict_keys
         [Subscribe "worker" "alert"; Subscribe "auditor" "*"; Subscribe "api_server" "*";
          Subscribe "worker" "alert"]
         (snd (register_agent "auditor" h_reject sample_world))).

(** A message of the api server that expired long ago. *)
Definition alert : AgentMessage :=
  {| message_id := "m-7";
     from_agent := "api_server";
     to_agent := "";
     message_type := NOTIFICATION;
     priority := HIGH;
     timestamp := "2026-11-03T10:00:00";
     payload := {[ "type" := "disk_alert" ]};
     correlation_id := Some "c-1";
     reply_to := None;
     expires_at := Some "2020-01-01T00:00:00" |}.

Definition sample_uuid (k : nat) : string := "uuid-" +:+ pretty k.

Definition sample_stamp (k : nat) : string := "2026-11-03T12:00:00".

Definition sample_now (k : nat) : Z := noon.

(** Three messages: one to a registered agent, one to nobody, one that has
    expired. *)
Definition traffic : list (Z * AgentMessage) :=
  [ (noon, msg "worker" None);
    (noon, msg "nobody" None);
    (noon, msg "worker" (Some "2020-01-01T00:00:00")) ].

End RouterOps.

(** ** Conversations ([ConversationManager]) *)

Module Conversations.

(** A conversation is a dict with nine keys, to which [end_conversation]
    adds ["end_time"] and ["end_reason"]. *)
Record Conversation : Type := {
  conversation_id : string;
  initiator : string;
  participants : list string;
  topic : string;
  context : gmap string string;
  status : string;
  start_time : string;
  message_count : Z;
  last_activity : string;
  end_time : option string;
  end_reason : option string
}.

(** [active_conversations] is a dict, which keeps its keys in the order in
    which they were first set; [asked] counts the readings of the clock and
    the identifiers made up. *)
Record Manager : Type := {
  active_conversations : list (string * Conversation);
  asked : nat
}.

Definition new_manager : Manager := {| active_conversations := []; asked := 0 |}.

(** [d[k] = v] and [d.get(k)] on such a dict. *)
Fixpoint dict_set {V : Type} (k : string) (v : V) (d : list (string * V)) : list (string * V) :=
  match d with
  | [] => [(k, v)]
  | (k', v') :: rest =>
      if String.eqb k' k then (k, v) :: rest else (k', v') :: dict_set k v rest
  end.

Fixpoint dict_get {V : Type} (k : string) (d : list (string * V)) : option V :=
  match d with
  | [] => None
  | (k', v') :: rest => if String.eqb k' k then Some v' else dict_get k rest
  end.

Section Operations.

(** [uuid4 k] is the identifier and [isoformat_now k] the timestamp that
    the [k]-th query yields. *)
Variable uuid4 : nat -> string.
Variable isoformat_now : nat -> string.

Definition start_conversation (initiator : string) (participants : list string) (topic : string)
  (context : option (gmap string string)) (m : Manager) : string * Manager :=
  let a := asked m in
  let conversation_id := uuid4 a in
  let conversation :=
    {| conversation_id := conversation_id;
       initiator := initiator;
       participants := participants;
       topic := topic;
       context := default ∅ context;
       status := "active";
       start_time := isoformat_now (a + 1);
       message_count := 0;
       last_activity := isoformat_now (a + 2);
       end_time := None;
       end_reason := None |} in
  (conversation_id,
   {| active_conversations := dict_set conversation_id conversation (active_conversations m);
      asked := (a + 3)%nat |}).

(** [add_message_to_conversation]; its parameter [message] is not used by
    the code. *)
Definition add_message_to_conversation (conversation_id : string) (m : Manager) : Manager :=
  match dict_get conversation_id (active_conversations m) with
  | Some conv =>
      let conv :=
        {| conversation_id := Conversations.conversation_id conv;
           initiator := initiator conv;
           participants := participants conv;
           topic := topic conv;
           context := context conv;
           status := status conv;
           start_time := start_time conv;
           message_count := message_count conv + 1;
           last_activity := isoformat_now (asked m);
           end_time := end_time conv;
           end_reason := end_reason conv |} in
      {| active_conversations := dict_set conversation_id conv (active_conversations m);
         asked := S (asked m) |}
  | None => m
  end.

Definition end_conversation (conversation_id reason : string) (m : Manager) : Manager :=
  match dict_get conversation_id (active_conversations m) with
  | Some conv =>
      let conv :=
        {| conversation_id := Conversations.conversation_id conv;
           initiator := initiator conv;
           participants := participants conv;
           topic := topic conv;
           context := context conv;
           status := "completed";
           start_time := start_time conv;
           message_count := message_count conv;
           last_activity := last_activity conv;
           end_time := Some (isoformat_now (asked m));
           end_reason := Some reason |} in
      {| active_conversations := dict_set conversation_id conv (active_conversations m);
         asked := S (asked m) |}
  | None => m
  end.

Definition get_active_conversations (m : Manager) : list Conversation :=
  filter (fun conv => status conv = "active") (active_conversations m).*2.

(** The calls that change the manager. *)
Inductive Call : Type :=
| Start (initiator : string) (participants : list string) (topic : string)
        (context : option (gmap string string))
| AddMessage (conversation_id : string)
| End (conversation_id reason : string).

Definition call (c : Call) (m : Manager) : Manager :=
  match c with
  | Start initiator participants topic context =>
      snd (start_conversation initiator participants topic context m)
  | AddMessage conversation_id => add_message_to_conversation conversation_id m
  | End conversation_id reason => end_conversation conversation_id reason m
  end.

Definition calls (cs : list Call) (m : Manager) : Manager :=
  fold_left (fun m c => call c m) cs m.

End Operations.

(** *** Notions that the properties are stated with *)

(** A conversation is either active and not ended, or completed with the
    time and the reason of its end. *)
Definition coherent (conv : Conversation) : Prop :=
  0 <= message_count conv
  /\ ((status conv = "active" /\ end_time conv = None /\ end_reason conv = None)
      \/ (status conv = "completed" /\ is_Some (end_time conv) /\ is_Some (end_reason conv))).

(** Every conversation is filed under its own id, once, and is coherent. *)
Definition well_kept (m : Manager) : Prop :=
  NoDup (active_conversations m).*1
  /\ Forall (fun entry : string * Conversation =>
               conversation_id entry.2 = entry.1 /\ coherent entry.2)
            (active_conversations m).

(** The number of [AddMessage] calls for an id, and whether there is an
    [End] call for it. *)
Definition adds_to (conversation_id : string) (c : Call) : bool :=
  match c with
  | AddMessage id => String.eqb id conversation_id
  | _ => false
  end.

Definition ends (conversation_id : string) (c : Call) : bool :=
  match c with
  | End id _ => String.eqb id conversation_id
  | _ => false
  end.

Definition added (conversation_id : string) (cs : list Call) : Z :=
  Z.of_nat (length (filter (fun c => adds_to conversation_id c = true) cs)).

Definition ended (conversation_id : string) (cs : list Call) : bool :=
  existsb (ends conversation_id) cs.

(** The oracle never makes up the same identifier twice. *)
Definition fresh (uuid4 : nat -> string) : Prop :=
  forall j k : nat, uuid4 j = uuid4 k -> j = k.

(** The identifiers that are still to come differ from [id]. *)
Definition unused (uuid4 : nat -> string) (id : string) (m : Manager) : Prop :=
  forall k : nat, (asked m <= k)%nat -> uuid4 k <> id.

(** *** A concrete manager *)

Definition sample_uuid (k : nat) : string := "conv-" +:+ pretty k.

Definition sample_stamp (k : nat) : string := "t" +:+ pretty k.

End Conversations.

(** ** Workflows ([WorkflowCoordinator]) *)

Module Workflows.

Import Router RouterOps.

(** A step of a template is a dict, read under the keys ["agent"] and
    ["payload"]; a template is a dict, read under the key ["steps"].  A key
    may be missing. *)
Record Step : Type := {
  step_agent : option string;
  step_payload : option (gmap string string)
}.

Record Template : Type := {
  template_steps : option (list Step)
}.

(** A workflow is a dict with ten keys, to which the last call of
    [execute_workflow_step] adds ["end_time"]. *)
Record Workflow : Type := {
  workflow_id : string;
  template_name : string;
  initiator : string;
  parameters : gmap string string;
  status : string;
  start_time : string;
  current_step : nat;
  steps : list Step;
  results : gmap string (gmap string string);
  errors : list string;
  end_time : option string
}.

(** The coordinator and its router; [asked] counts the identifiers made up
    and the readings of the clock. *)
Record Coordinator (H : Type) : Type := {
  world : World H;
  workflows : gmap string Workflow;
  workflow_templates : gmap string Template;
  asked : nat
}.
Arguments world {H} _.
Arguments workflows {H} _.
Arguments workflow_templates {H} _.
Arguments asked {H} _.

Definition new_coordinator {H : Type} (w : World H) : Coordinator H :=
  {| world := w; workflows := ∅; workflow_templates := ∅; asked := 0 |}.

Definition set_world {H : Type} (w : World H) (c : Coordinator H) : Coordinator H :=
  {| world := w; workflows := workflows c; workflow_templates := workflow_templates c;
     asked := asked c |}.

Definition set_workflow {H : Type} (id : string) (wf : Workflow) (c : Coordinator H)
  : Coordinator H :=
  {| world := world c; workflows := <[id := wf]> (workflows c);
     workflow_templates := workflow_templates c; asked := asked c |}.

Definition set_template {H : Type} (name : string) (t : Template) (c : Coordinator H)
  : Coordinator H :=
  {| world := world c; workflows := workflows c;
     workflow_templates := <[name := t]> (workflow_templates c); asked := asked c |}.

(** One more query of the oracle. *)
Definition tick {H : Type} : Py (Coordinator H) nat :=
  fun c => (Ok (asked c),
            {| world := world c; workflows := workflows c;
               workflow_templates := workflow_templates c; asked := S (asked c) |}).

(** A call of the router, made by the coordinator. *)
Definition on_router {H A : Type} (m : Py (World H) A) : Py (Coordinator H) A :=
  fun c => let '(r, w) := m (world c) in (r, set_world w c).

(** Writes to one workflow. *)
Definition completed (t : string) (wf : Workflow) : Workflow :=
  {| workflow_id := workflow_id wf; template_name := template_name wf;
     initiator := initiator wf; parameters := parameters wf;
     status := "completed";
     start_time := start_time wf; current_step := current_step wf; steps := steps wf;
     results := results wf; errors := errors wf;
     end_time := Some t |}.

Definition advanced (wf : Workflow) : Workflow :=
  {| workflow_id := workflow_id wf; template_name := template_name wf;
     initiator := initiator wf; parameters := parameters wf;
     status := status wf;
     start_time := start_time wf;
     current_step := S (current_step wf);
     steps := steps wf;
     results := <["step_" +:+ pretty (current_step wf) := {[ "status" := "completed" ]}]>
                  (results wf);
     errors := errors wf;
     end_time := end_time wf |}.

Definition failed_with (error : string) (wf : Workflow) : Workflow :=
  {| workflow_id := workflow_id wf; template_name := template_name wf;
     initiator := initiator wf; parameters := parameters wf;
     status := "failed";
     start_time := start_time wf; current_step := current_step wf; steps := steps wf;
     results := results wf;
     errors := errors wf ++ [error];
     end_time := end_time wf |}.

Section Operations.

Context {H : Type}.
Variable fromisoformat : string -> res datetime.

(** The handlers see the router; they do not call the coordinator. *)
Variable invoke : H -> AgentMessage -> Py (World H) bool.

(** What the [k]-th query of the oracle yields when it is a call of
    [uuid.uuid4()] and when it is a call of [datetime.now()], as the string
    [isoformat_now k] and as the reading [clock k]. *)
Variable uuid4 : nat -> string.
Variable isoformat_now : nat -> string.
Variable clock : nat -> Z.

Definition register_workflow_template (name : string) (template : Template)
  : Py (Coordinator H) unit :=
  modify (set_template name template).

(** [start_workflow]: the entries of the dict are evaluated in their
    order, so the clock is read before [template["steps"]] can raise. *)
Definition start_workflow (name initiator : string) (parameters : gmap string string)
  : Py (Coordinator H) string :=
  known <- gets (fun c => bool_decide (is_Some (workflow_templates c !! name))) ;;
  if known : bool then
    k <- tick ;;
    let workflow_id := uuid4 k in
    template <- subscript workflow_templates name ;;
    k' <- tick ;;
    match template_steps template with
    | Some template_steps =>
        modify (set_workflow workflow_id
          {| workflow_id := workflow_id;
             template_name := name;
             initiator := initiator;
             parameters := parameters;
             status := "running";
             start_time := isoformat_now k';
             current_step := 0;
             steps := template_steps;
             results := ∅;
             errors := [];
             end_time := None |}) ;;;
        ret workflow_id
    | None => raise KeyError
    end
  else raise ValueError.

(** The [try] block of [execute_workflow_step] for a step that has both
    keys: make the message, send it, and record the outcome.
    [send_message] catches what a handler raises, so nothing here raises. *)
Definition send_step (workflow_id : string) (wf : Workflow) (agent : string)
  (payload : gmap string string) : Py (Coordinator H) bool :=
  k <- tick ;;
  k' <- tick ;;
  let message :=
    create_message (uuid4 k) (isoformat_now k') "workflow_coordinator" agent payload
      REQUEST HIGH (Some workflow_id) in
  sent <- on_router (send_message fromisoformat invoke (clock k') message) ;;
  (if sent : bool
   then modify (set_workflow workflow_id (advanced wf))
   else modify (set_workflow workflow_id
                  (failed_with ("Step " +:+ pretty (current_step wf) +:+ " failed") wf))) ;;;
  ret sent.

(** The [except] block: [key] is the key whose subscript raised
    [KeyError], and [str(e)] is that key in quotes. *)
Definition step_error (workflow_id : string) (wf : Workflow) (key : string)
  : Py (Coordinator H) bool :=
  modify (set_workflow workflow_id
            (failed_with ("Step " +:+ pretty (current_step wf) +:+ " error: '" +:+ key +:+ "'")
               wf)) ;;;
  ret false.

Definition execute_workflow_step (workflow_id : string) : Py (Coordinator H) bool :=
  found <- gets (fun c => workflows c !! workflow_id) ;;
  match found with
  | None => ret false
  | Some wf =>
      if negb (String.eqb (status wf) "running") then ret false
      else
        match steps wf !! current_step wf with
        | None =>
            k <- tick ;;
            modify (set_workflow workflow_id (completed (isoformat_now k) wf)) ;;;
            ret true
        | Some step =>
            match step_agent step, step_payload step with
            | Some agent, Some payload => send_step workflow_id wf agent payload
            | None, _ => step_error workflow_id wf "agent"
            | Some _, None => step_error workflow_id wf "payload"
            end
        end
  end.

Definition get_workflow_status (workflow_id : string) (c : Coordinator H) : option Workflow :=
  workflows c !! workflow_id.

(** [n] calls of [execute_workflow_step], one after the other. *)
Fixpoint execute_steps (n : nat) (workflow_id : string) : Py (Coordinator H) (list bool) :=
  match n with
  | O => ret []
  | S n' =>
      b <- execute_workflow_step workflow_id ;;
      bs <- execute_steps n' workflow_id ;;
      ret (b :: bs)
  end.

End Operations.

(** *** Notions that the properties are stated with *)

(** Every handler accepts every message and leaves the router alone. *)
Definition all_accept {H : Type} (invoke : H -> AgentMessage -> Py (World H) bool) : Prop :=
  forall (h : H) (message : AgentMessage) (w : World H), invoke h message w = (Ok true, w).

(** The step has a payload and names an agent that is registered. *)
Definition ready {H : Type} (handlers : gmap string H) (step : Step) : Prop :=
  is_Some (step_payload step)
  /\ exists agent : string, step_agent step = Some agent /\ is_Some (handlers !! agent).

(** The message that the coordinator sends for a step, and the coordinator
    after a step that was accepted. *)
Definition step_message {H : Type} (uuid4 isoformat_now : nat -> string)
  (id agent : string) (payload : gmap string string) (c : Coordinator H) : AgentMessage :=
  create_message (uuid4 (asked c)) (isoformat_now (S (asked c))) "workflow_coordinator"
    agent payload REQUEST HIGH (Some id).

Definition stepped {H : Type} (uuid4 isoformat_now : nat -> string)
  (id : string) (wf : Workflow) (agent : string) (payload : gmap string string)
  (c : Coordinator H) : Coordinator H :=
  let message := step_message uuid4 isoformat_now id agent payload c in
  {| world := with_stats bump_delivered
                (log_call agent message (with_history (append_capped message) (world c)));
     workflows := <[id := advanced wf]> (workflows c);
     workflow_templates := workflow_templates c;
     asked := S (S (asked c)) |}.

(** The entry that a step which did not succeed adds to [errors]. *)
Definition failure_text (wf : Workflow) (step : Step) : string :=
  match step_agent step, step_payload step with
  | None, _ => "Step " +:+ pretty (current_step wf) +:+ " error: 'agent'"
  | Some _, None => "Step " +:+ pretty (current_step wf) +:+ " error: 'payload'"
  | Some _, Some _ => "Step " +:+ pretty (current_step wf) +:+ " failed"
  end.

(** The key of [results] for the step at index [k]. *)
Definition result_key (k : nat) : string := "step_" +:+ pretty k.

(** *** A concrete coordinator *)

Definition accept_all (h : unit) (message : AgentMessage) : Py (World unit) bool := ret true.

Definition two_agents : World unit :=
  {| router := {| message_queue := [];
                  delivery_handlers := <["planner" := tt]> (<["tester" := tt]> ∅);
                  subscription_patterns := ∅;
                  message_history := [];
                  delivery_stats := {| sent := 0; delivered := 0; failed := 0; expired := 0 |} |};
     calls := [] |}.

Definition release_template : Template :=
  {| template_steps :=
       Some [ {| step_agent := Some "planner"; step_payload := Some {[ "type" := "plan" ]} |};
              {| step_agent := Some "tester"; step_payload := Some {[ "type" := "test" ]} |} ] |}.

(** A template whose second step names an agent that is not registered. *)
Definition stale_template : Template :=
  {| template_steps :=
       Some [ {| step_agent := Some "planner"; step_payload := Some {[ "type" := "plan" ]} |};
              {| step_agent := Some "reviewer"; step_payload := Some {[ "type" := "review" ]} |} ] |}.

Definition sample_uuid (k : nat) : string := "wf-" +:+ pretty k.

Definition sample_stamp (k : nat) : string := "t" +:+ pretty k.

Definition sample_clock (k : nat) : Z := noon.

(** The coordinator after the template was registered and a workflow
    started from it. *)
Definition release : Coordinator unit :=
  snd (start_workflow sample_uuid sample_stamp "release" "api_server" ∅
         (snd (register_workflow_template "release" release_template
                 (new_coordinator two_agents)))).

(** The same for the stale template, after the first step of the
    workflow. *)
Definition stale : Coordinator unit :=
  snd (execute_workflow_step iso_parser accept_all sample_uuid sample_stamp sample_clock "wf-0"
    (snd (start_workflow sample_uuid sample_stamp "review" "api_server" ∅
            (snd (register_workflow_template "review" stale_template
                    (new_coordinator two_agents)))))).

End Workflows.

(** ** The agent activity monitor ([framework/agent_monitor.py]) *)

Module Monitor.

Inductive AgentState : Type := IDLE | PROCESSING | WAITING | COMPLETE | ERROR | COMMUNICATING.

Inductive MessageDirection : Type := INCOMING | OUTGOING | INTERNAL.

(** The values that the [details] dict of an activity holds. *)
Inductive detail : Type :=
| DStr (s : string)
| DInt (n : Z)
| DBool (b : bool)
| DList (l : list string)
| DDict (d : list (string * string)).

Record MessageFlow : Type := {
  f_message_id : string;
  f_from_agent : string;
  f_to_agent : string;
  f_message_type : string;
  f_timestamp : string;
  f_direction : MessageDirection;
  f_payload_size : Z
}.

Section Model.

(** Python's [float] and the operations the monitor applies to it: the
    literal [0.0], the conversion of an [int], [+], [*] and [/]. *)
Context {F : Type}.
Variable fzero : F.
Variable of_int : Z -> F.
Variable fadd fmul fdiv : F -> F -> F.

(** [clock k] is the string that the [k]-th call of [_get_timestamp]
    returns. *)
Variable clock : nat -> string.

Record AgentActivity : Type := {
  a_agent_id : string;
  a_timestamp : string;
  a_activity_type : string;
  a_state : AgentState;
  a_details : list (string * detail);
  a_message_id : option string;
  a_target_agent : option string;
  a_processing_time : option F
}.

Record AgentMetrics : Type := {
  agent_id : string;
  total_messages_sent : Z;
  total_messages_received : Z;
  average_processing_time : F;
  current_state : AgentState;
  last_activity : option string;
  active_collaborations : gset string;
  error_count : Z
}.

(** [AgentMetrics(agent_id=a)]: the dataclass defaults. *)
Definition fresh_metrics (a : string) : AgentMetrics :=
  {| agent_id := a;
     total_messages_sent := 0;
     total_messages_received := 0;
     average_processing_time := fzero;
     current_state := IDLE;
     last_activity := None;
     active_collaborations := ∅;
     error_count := 0 |}.

Record AgentMonitor : Type := {
  max_history_size : nat;
  activity_history : list AgentActivity;
  message_flows : list MessageFlow;
  agent_states : gmap string AgentState;
  agent_metrics : gmap string AgentMetrics;
  agent_relationships : gmap string (gset string)
}.

(** A [threading.Timer] that was started and has not fired yet: after
    [delay_s] seconds it sets [timer_agent] back to [IDLE]. *)
Record Timer : Type := {
  delay_s : Z;
  timer_agent : string
}.

(** The monitor, the number of clock readings taken so far, and the
    timers in flight. *)
Record World : Type := {
  monitor : AgentMonitor;
  ticks : nat;
  timers : list Timer
}.

Definition new_monitor (size : nat) : AgentMonitor :=
  {| max_history_size := size;
     activity_history := [];
     message_flows := [];
     agent_states := ∅;
     agent_metrics := ∅;
     agent_relationships := ∅ |}.

Definition on_monitor (f : AgentMonitor -> AgentMonitor) (w : World) : World :=
  {| monitor := f (monitor w); ticks := ticks w; timers := timers w |}.

Definition set_states (f : gmap string AgentState -> gmap string AgentState) (m : AgentMonitor)
  : AgentMonitor :=
  {| max_history_size := max_history_size m;
     activity_history := activity_history m;
     message_flows := message_flows m;
     agent_states := f (agent_states m);
     agent_metrics := agent_metrics m;
     agent_relationships := agent_relationships m |}.

Definition set_metrics (f : gmap string AgentMetrics -> gmap string AgentMetrics) (m : AgentMonitor)
  : AgentMonitor :=
  {| max_history_size := max_history_size m;
     activity_history := activity_history m;
     message_flows := message_flows m;
     agent_states := agent_states m;
     agent_metrics := f (agent_metrics m);
     agent_relationships := agent_relationships m |}.

Definition set_relationships
  (f : gmap string (gset string) -> gmap string (gset string)) (m : AgentMonitor) : AgentMonitor :=
  {| max_history_size := max_history_size m;
     activity_history := activity_history m;
     message_flows := message_flows m;
     agent_states := agent_states m;
     agent_metrics := agent_metrics m;
     agent_relationships := f (agent_relationships m) |}.

(** [deque(maxlen=n).append(x)]: the oldest entries fall out. *)
Definition deque_append {A : Type} (maxlen : nat) (x : A) (l : list A) : list A :=
  drop (length (l ++ [x]) - maxlen)%nat (l ++ [x]).

Definition push_activity (a : AgentActivity) (m : AgentMonitor) : AgentMonitor :=
  {| max_history_size := max_history_size m;
     activity_history := deque_append (max_history_size m) a (activity_history m);
     message_flows := message_flows m;
     agent_states := agent_states m;
     agent_metrics := agent_metrics m;
     agent_relationships := agent_relationships m |}.

Definition push_flow (fl : MessageFlow) (m : AgentMonitor) : AgentMonitor :=
  {| max_history_size := max_history_size m;
     activity_history := activity_history m;
     message_flows := deque_append (max_history_size m) fl (message_flows m);
     agent_states := agent_states m;
     agent_metrics := agent_metrics m;
     agent_relationships := agent_relationships m |}.

(** Field updates of one [AgentMetrics] object. *)
Definition with_state (st : AgentState) (ts : string) (x : AgentMetrics) : AgentMetrics :=
  {| agent_id := agent_id x;
     total_messages_sent := total_messages_sent x;
     total_messages_received := total_messages_received x;
     average_processing_time := average_processing_time x;
     current_state := st;
     last_activity := Some ts;
     active_collaborations := active_collaborations x;
     error_count := error_count x |}.

Definition with_sent (n : Z) (x : AgentMetrics) : AgentMetrics :=
  {| agent_id := agent_id x;
     total_messages_sent := n;
     total_messages_received := total_messages_received x;
     average_processing_time := average_processing_time x;
     current_state := current_state x;
     last_activity := last_activity x;
     active_collaborations := active_collaborations x;
     error_count := error_count x |}.

Definition with_received (n : Z) (x : AgentMetrics) : AgentMetrics :=
  {| agent_id := agent_id x;
     total_messages_sent := total_messages_sent x;
     total_messages_received := n;
     average_processing_time := average_processing_time x;
     current_state := current_state x;
     last_activity := last_activity x;
     active_collaborations := active_collaborations x;
     error_count := error_count x |}.

Definition with_average (v : F) (x : AgentMetrics) : AgentMetrics :=
  {| agent_id := agent_id x;
     total_messages_sent := total_messages_sent x;
     total_messages_received := total_messages_received x;
     average_processing_time := v;
     current_state := current_state x;
     last_activity := last_activity x;
     active_collaborations := active_collaborations x;
     error_count := error_count x |}.

Definition with_errors (n : Z) (x : AgentMetrics) : AgentMetrics :=
  {| agent_id := agent_id x;
     total_messages_sent := total_messages_sent x;
     total_messages_received := total_messages_received x;
     average_processing_time := average_processing_time x;
     current_state := current_state x;
     last_activity := last_activity x;
     active_collaborations := active_collaborations x;
     error_count := n |}.

Definition AgentState_eqb (a b : AgentState) : bool :=
  match a, b with
  | IDLE, IDLE | PROCESSING, PROCESSING | WAITING, WAITING
  | COMPLETE, COMPLETE | ERROR, ERROR | COMMUNICATING, COMMUNICATING => true
  | _, _ => false
  end.

(** *** Operations *)

Definition _get_timestamp : Py World string :=
  fun w => (Ok (clock (ticks w)),
            {| monitor := monitor w; ticks := S (ticks w); timers := timers w |}).

(** The metrics object of [a]: [self.agent_metrics[a]]. *)
Definition metrics_of (a : string) : Py World AgentMetrics :=
  subscript (fun w => agent_metrics (monitor w)) a.

Definition store_metrics (a : string) (x : AgentMetrics) : Py World unit :=
  modify (on_monitor (set_metrics (fun ms => <[a := x]> ms))).

(** [_broadcast_state_change] builds its message, which reads the clock,
    and hands it to [_broadcast_to_clients], which changes nothing. *)
Definition _broadcast_state_change : Py World unit :=
  _get_timestamp ;;; ret tt.

Definition _update_agent_state (a : string) (new_state : AgentState) : Py World unit :=
  old_state <- gets (fun w => default IDLE (agent_states (monitor w) !! a)) ;;
  modify (on_monitor (set_states (fun st => <[a := new_state]> st))) ;;;
  known <- gets (fun w => bool_decide (is_Some (agent_metrics (monitor w) !! a))) ;;
  (if known : bool then
     x <- metrics_of a ;;
     ts <- _get_timestamp ;;
     store_metrics a (with_state new_state ts x)
   else ret tt) ;;;
  (if AgentState_eqb old_state new_state then ret tt else _broadcast_state_change).

Definition register_agent (a agent_name : string) (capabilities : list string) : Py World unit :=
  modify (on_monitor (set_states (fun st => <[a := IDLE]> st))) ;;;
  store_metrics a (fresh_metrics a) ;;;
  ts <- _get_timestamp ;;
  ts' <- _get_timestamp ;;
  modify (on_monitor (push_activity
    {| a_agent_id := a; a_timestamp := ts; a_activity_type := "agent_registered";
       a_state := IDLE;
       a_details := [("agent_name", DStr agent_name); ("capabilities", DList capabilities);
                     ("registration_time", DStr ts')];
       a_message_id := None; a_target_agent := None; a_processing_time := None |})).

(** [self.agent_relationships[a].add(b)] on a [defaultdict(set)]. *)
Definition add_peer (a b : string) (rel : gmap string (gset string)) : gmap string (gset string) :=
  <[a := default ∅ (rel !! a) ∪ {[b]}]> rel.

Definition log_message_sent
  (from_agent to_agent message_id message_type : string) (payload_size : Z) : Py World unit :=
  timestamp <- _get_timestamp ;;
  _update_agent_state from_agent COMMUNICATING ;;;
  modify (on_monitor (push_flow
    {| f_message_id := message_id; f_from_agent := from_agent; f_to_agent := to_agent;
       f_message_type := message_type; f_timestamp := timestamp;
       f_direction := OUTGOING; f_payload_size := payload_size |})) ;;;
  known <- gets (fun w => bool_decide (is_Some (agent_metrics (monitor w) !! from_agent))) ;;
  (if known : bool then ret tt else store_metrics from_agent (fresh_metrics from_agent)) ;;;
  x <- metrics_of from_agent ;;
  store_metrics from_agent (with_sent (total_messages_sent x + 1) x) ;;;
  modify (on_monitor (set_relationships (add_peer from_agent to_agent))) ;;;
  modify (on_monitor (set_relationships (add_peer to_agent from_agent))) ;;;
  modify (on_monitor (push_activity
    {| a_agent_id := from_agent; a_timestamp := timestamp; a_activity_type := "message_sent";
       a_state := COMMUNICATING;
       a_details := [("to_agent", DStr to_agent); ("message_type", DStr message_type);
                     ("payload_size", DInt payload_size)];
       a_message_id := Some message_id; a_target_agent := Some to_agent;
       a_processing_time := None |})).

Definition log_message_received
  (to_agent from_agent message_id message_type : string) (payload_size : Z) : Py World unit :=
  timestamp <- _get_timestamp ;;
  _update_agent_state to_agent PROCESSING ;;;
  known <- gets (fun w => bool_decide (is_Some (agent_metrics (monitor w) !! to_agent))) ;;
  (if known : bool then ret tt else store_metrics to_agent (fresh_metrics to_agent)) ;;;
  x <- metrics_of to_agent ;;
  store_metrics to_agent (with_received (total_messages_received x + 1) x) ;;;
  modify (on_monitor (push_activity
    {| a_agent_id := to_agent; a_timestamp := timestamp; a_activity_type := "message_received";
       a_state := PROCESSING;
       a_details := [("from_agent", DStr from_agent); ("message_type", DStr message_type);
                     ("payload_size", DInt payload_size)];
       a_message_id := Some message_id; a_target_agent := Some from_agent;
       a_processing_time := None |})).

Definition start_timer (seconds : Z) (a : string) : Py World unit :=
  modify (fun w => {| monitor := monitor w; ticks := ticks w;
                      timers := timers w ++ [{| delay_s := seconds; timer_agent := a |}] |}).

(** The running average of [log_processing_complete]. *)
Definition running_average (current_avg : F) (count : Z) (processing_time : F) : F :=
  if 0 <? count
  then fdiv (fadd (fmul current_avg (of_int (count - 1))) processing_time) (of_int count)
  else processing_time.

Definition log_processing_complete
  (a task_type : string) (processing_time : F) (result_summary : list (string * string))
  : Py World unit :=
  _update_agent_state a COMPLETE ;;;
  known <- gets (fun w => bool_decide (is_Some (agent_metrics (monitor w) !! a))) ;;
  (if known : bool then
     x <- metrics_of a ;;
     let current_avg := average_processing_time x in
     let count := total_messages_sent x + total_messages_received x in
     store_metrics a (with_average (running_average current_avg count processing_time) x)
   else ret tt) ;;;
  ts <- _get_timestamp ;;
  modify (on_monitor (push_activity
    {| a_agent_id := a; a_timestamp := ts; a_activity_type := "processing_complete";
       a_state := COMPLETE;
       a_details := [("task_type", DStr task_type); ("result_summary", DDict result_summary);
                     ("success", DBool true)];
       a_message_id := None; a_target_agent := None;
       a_processing_time := Some processing_time |})) ;;;
  start_timer 1 a.

Definition log_processing_error (a task_type error_message : string) : Py World unit :=
  _update_agent_state a ERROR ;;;
  known <- gets (fun w => bool_decide (is_Some (agent_metrics (monitor w) !! a))) ;;
  (if known : bool then
     x <- metrics_of a ;;
     store_metrics a (with_errors (error_count x + 1) x)
   else ret tt) ;;;
  ts <- _get_timestamp ;;
  modify (on_monitor (push_activity
    {| a_agent_id := a; a_timestamp := ts; a_activity_type := "processing_error";
       a_state := ERROR;
       a_details := [("task_type", DStr task_type); ("error_message", DStr error_message);
                     ("success", DBool false)];
       a_message_id := None; a_target_agent := None; a_processing_time := None |})) ;;;
  start_timer 2 a.

(** What [_update_agent_state] leaves behind, for an agent with and without
    a metrics record. *)
Definition state_updated_known (a : string) (st : AgentState) (x : AgentMetrics) (w : World) : World :=
  {| monitor :=
       set_metrics (fun ms => <[a := with_state st (clock (ticks w)) x]> ms)
         (set_states (fun ss => <[a := st]> ss) (monitor w));
     ticks := if AgentState_eqb (default IDLE (agent_states (monitor w) !! a)) st
              then S (ticks w) else S (S (ticks w));
     timers := timers w |}.

Definition state_updated_unknown (a : string) (st : AgentState) (w : World) : World :=
  {| monitor := set_states (fun ss => <[a := st]> ss) (monitor w);
     ticks := if AgentState_eqb (default IDLE (agent_states (monitor w) !! a)) st
              then ticks w else S (ticks w);
     timers := timers w |}.

End Model.

(** *** A concrete monitor, with rationals for floats *)

Definition sample_clock (k : nat) : string := "2026-11-03T10:00:00".

Definition empty_world : World (F := Q) :=
  {| monitor := new_monitor 1000; ticks := 0%nat; timers := [] |}.

(** ["worker"] registers, sends one message and receives one. *)
Definition busy_world : World (F := Q) :=
  snd (log_message_received 0%Q sample_clock "worker" "api_server" "m-2" "request" 10
    (snd (log_message_sent 0%Q sample_clock "worker" "api_server" "m-1" "request" 10
      (snd (register_agent 0%Q sample_clock "worker" "Worker" [] empty_world))))).

End Monitor.

(** ** The agent activity monitor: further logging, and the topology *)

Module MonitorOps.

Import Monitor.

Section Model.

Context {F : Type}.
Variable fzero : F.
Variable of_int : Z -> F.
Variable fadd fmul fdiv : F -> F -> F.
Variable clock : nat -> string.

Definition log_processing_start (a task_type : string) (task_details : list (string * string))
  : Py (World (F := F)) unit :=
  _update_agent_state clock a PROCESSING ;;;
  ts <- _get_timestamp clock ;;
  modify (on_monitor (push_activity
    {| a_agent_id := a; a_timestamp := ts; a_activity_type := "processing_start";
       a_state := PROCESSING;
       a_details := [("task_type", DStr task_type); ("task_details", DDict task_details)];
       a_message_id := None; a_target_agent := None; a_processing_time := None |})).

(** The test of [_get_message_count_between]: the flow went from one of
    the two agents to the other. *)
Definition flows_between (agent1 agent2 : string) (flow : MessageFlow) : bool :=
  (String.eqb (f_from_agent flow) agent1 && String.eqb (f_to_agent flow) agent2)
  || (String.eqb (f_from_agent flow) agent2 && String.eqb (f_to_agent flow) agent1).

Definition _get_message_count_between (agent1 agent2 : string) (m : AgentMonitor (F := F)) : Z :=
  fold_left (fun count flow => if flows_between agent1 agent2 flow then count + 1 else count)
            (message_flows m) 0.

(** A node and an edge of the topology. *)
Record Node : Type := {
  node_id : string;
  node_state : AgentState;
  node_metrics : AgentMetrics (F := F);
  node_total_messages : Z
}.

Record Edge : Type := {
  edge_source : string;
  edge_target : string;
  edge_message_count : Z
}.

(** The order in which a [for] loop visits the items of the two dicts and
    the elements of a set. *)
Variable states_items : gmap string AgentState -> list (string * AgentState).
Variable relationships_items : gmap string (gset string) -> list (string * gset string).
Variable visit : gset string -> list string.

Definition topology_nodes (m : AgentMonitor (F := F)) : list Node :=
  (fun item : string * AgentState =>
     let metrics := default (fresh_metrics fzero item.1) (agent_metrics m !! item.1) in
     {| node_id := item.1;
        node_state := item.2;
        node_metrics := metrics;
        node_total_messages := total_messages_sent metrics + total_messages_received metrics |})
  <$> states_items (agent_states m).

Definition topology_edges (m : AgentMonitor (F := F)) : list Edge :=
  item ← relationships_items (agent_relationships m);
  (fun connected_agent : string =>
     {| edge_source := item.1;
        edge_target := connected_agent;
        edge_message_count := _get_message_count_between item.1 connected_agent m |})
  <$> visit item.2.

(** [get_agent_network_topology]: the nodes, the edges and the
    timestamp. *)
Definition get_agent_network_topology : Py (World (F := F)) (list Node * list Edge * string) :=
  nodes <- gets (fun w => topology_nodes (monitor w)) ;;
  edges <- gets (fun w => topology_edges (monitor w)) ;;
  ts <- _get_timestamp clock ;;
  ret (nodes, edges, ts).

(** The calls that log. *)
Inductive Event : Type :=
| Registered (agent_id agent_name : string) (capabilities : list string)
| MessageSent (from_agent to_agent message_id message_type : string) (payload_size : Z)
| MessageReceived (to_agent from_agent message_id message_type : string) (payload_size : Z)
| ProcessingStarted (agent_id task_type : string) (task_details : list (string * string))
| ProcessingCompleted (agent_id task_type : string) (processing_time : F)
                      (result_summary : list (string * string))
| ProcessingFailed (agent_id task_type error_message : string).

Definition log (e : Event) : Py (World (F := F)) unit :=
  match e with
  | Registered a name capabilities => register_agent fzero clock a name capabilities
  | MessageSent from to id type size => log_message_sent fzero clock from to id type size
  | MessageReceived to from id type size => log_message_received fzero clock to from id type size
  | ProcessingStarted a task details => log_processing_start a task details
  | ProcessingCompleted a task time summary =>
      log_processing_complete of_int fadd fmul fdiv clock a task time summary
  | ProcessingFailed a task error => log_processing_error clock a task error
  end.

Fixpoint log_all (es : list Event) : Py (World (F := F)) unit :=
  match es with
  | [] => ret tt
  | e :: rest => log e ;;; log_all rest
  end.

(** The agent that an event is about, and the type of the activity that
    it records. *)
Definition event_agent (e : Event) : string :=
  match e with
  | Registered a _ _ | ProcessingStarted a _ _ | ProcessingCompleted a _ _ _
  | ProcessingFailed a _ _ => a
  | MessageSent from _ _ _ _ => from
  | MessageReceived to _ _ _ _ => to
  end.

Definition event_type (e : Event) : string :=
  match e with
  | Registered _ _ _ => "agent_registered"
  | MessageSent _ _ _ _ _ => "message_sent"
  | MessageReceived _ _ _ _ _ => "message_received"
  | ProcessingStarted _ _ _ => "processing_start"
  | ProcessingCompleted _ _ _ _ => "processing_complete"
  | ProcessingFailed _ _ _ => "processing_error"
  end.

Definition event_state (e : Event) : AgentState :=
  match e with
  | Registered _ _ _ => IDLE
  | MessageSent _ _ _ _ _ => COMMUNICATING
  | MessageReceived _ _ _ _ _ => PROCESSING
  | ProcessingStarted _ _ _ => PROCESSING
  | ProcessingCompleted _ _ _ _ => COMPLETE
  | ProcessingFailed _ _ _ => ERROR
  end.

End Model.

(** *** Notions that the properties are stated with *)

(** [b] is a peer of [a]. *)
Definition peer (rel : gmap string (gset string)) (a b : string) : Prop :=
  b ∈ default ∅ (rel !! a).

Definition symmetric (rel : gmap string (gset string)) : Prop :=
  forall a b : string, peer rel a b -> peer rel b a.

(** The two histories hold no more than [max_history_size] entries. *)
Definition bounded {F : Type} (m : AgentMonitor (F := F)) : Prop :=
  (length (activity_history m) <= max_history_size m)%nat
  /\ (length (message_flows m) <= max_history_size m)%nat.


(** The orders list what there is. *)
Definition lists_items {V : Type} (items : gmap string V -> list (string * V)) : Prop :=
  forall (d : gmap string V) (k : string) (v : V), (k, v) ∈ items d <-> d !! k = Some v.

Definition lists_set (visit : gset string -> list string) : Prop :=
  forall (X : gset string) (a : string), a ∈ visit X <-> a ∈ X.

(** *** Concrete orders and events *)

Definition sample_items {V : Type} (d : gmap string V) : list (string * V) := map_to_list d.

Definition sample_visit (X : gset string) : list string := elements X.

Definition busy_day : list (Event (F := Q)) :=
  [ MessageSent "ghost" "worker" "m-3" "request" 7;
    ProcessingStarted "worker" "run" [];
    ProcessingCompleted "worker" "run" 10%Q [];
    ProcessingFailed "ghost" "run" "no such test" ].

End MonitorOps.

(** ** The test-execution simulator ([agents/test_execution.py]) *)

Module Executor.

Inductive ExecutionStatus : Type := QUEUED | RUNNING | COMPLETED | FAILED | CANCELLED.

(** [TestResult]; the constructors carry a prefix because [FAILED] is
    taken by [ExecutionStatus]. *)
Inductive TestResult : Type := R_PASSED | R_FAILED | R_SKIPPED | R_ERROR.

(** [ExecutionStep]: [step_status] is the attribute [status], one of the
    strings "pending", "running", "passed" and "failed". *)
Record ExecutionStep : Type := {
  step_number : Z;
  description : string;
  step_status : string;
  step_start_time : option string;
  step_end_time : option string;
  duration_ms : option Z;
  details : option string;
  error_message : option string;
  error_code : option string;
  screenshot : option string
}.

Record Recommendation : Type := {
  rec_action : string;
  rec_priority : string;
  estimated_fix_time : string;
  automation_available : bool
}.

(** The dict that [_attempt_auto_healing] returns. *)
Record HealingResult : Type := {
  success : bool;
  action : string;
  pattern : string;
  analysis : string;
  root_cause : string;
  auto_retry_attempted : bool;
  auto_retry_result : string;
  auto_retry_details : string;
  recommendations : list Recommendation
}.

(** [TestExecution].  The report attributes [performance_metrics],
    [validations] and [environment] are written once, read by nothing in the
    state machine, and are left out. *)
Record TestExecution : Type := {
  execution_id : string;
  test_case_id : string;
  test_name : string;
  transaction : string;
  status : ExecutionStatus;
  result : option TestResult;
  start_time : string;
  end_time : option string;
  duration_seconds : option Q;
  current_step : Z;
  total_steps : Z;
  execution_steps : list ExecutionStep;
  auto_healing : option HealingResult
}.

(** *** The knowledge base *)

Record Complexity : Type := {
  base_time : Z;
  complexity : string;
  failure_rate : Q
}.

Definition sap_transaction_complexity : gmap string Complexity :=
  list_to_map
    [ ("ME21N", {| base_time := 45; complexity := "medium"; failure_rate := 0.15 |});
      ("MIGO",  {| base_time := 30; complexity := "low";    failure_rate := 0.08 |});
      ("VA01",  {| base_time := 60; complexity := "high";   failure_rate := 0.22 |});
      ("FB60",  {| base_time := 40; complexity := "medium"; failure_rate := 0.12 |});
      ("ME28",  {| base_time := 25; complexity := "low";    failure_rate := 0.05 |});
      ("MIRO",  {| base_time := 50; complexity := "high";   failure_rate := 0.18 |});
      ("VF01",  {| base_time := 35; complexity := "medium"; failure_rate := 0.10 |});
      ("VL01N", {| base_time := 55; complexity := "high";   failure_rate := 0.20 |}) ].

Definition default_complexity : Complexity :=
  {| base_time := 45; complexity := "medium"; failure_rate := 0.15 |}.

Record Strategy : Type := {
  strategy_action : string;
  success_rate : Q
}.

Record ErrorPattern : Type := {
  pattern_description : string;
  frequency : Q;
  healing_strategies : list Strategy
}.

(** The keys of [error_patterns], in the order of the dict. *)
Inductive PatternKey : Type :=
| approval_timeout
| vendor_invalid
| material_not_found
| authorization_missing
| network_timeout.

Definition pattern_keys : list PatternKey :=
  [approval_timeout; vendor_invalid; material_not_found; authorization_missing; network_timeout].

Definition key_name (k : PatternKey) : string :=
  match k with
  | approval_timeout => "approval_timeout"
  | vendor_invalid => "vendor_invalid"
  | material_not_found => "material_not_found"
  | authorization_missing => "authorization_missing"
  | network_timeout => "network_timeout"
  end.

Definition error_patterns (k : PatternKey) : ErrorPattern :=
  match k with
  | approval_timeout =>
      {| pattern_description := "Workflow approval timeout";
         frequency := 0.35;
         healing_strategies :=
           [ {| strategy_action := "retry_with_alternative_approver"; success_rate := 0.85 |};
             {| strategy_action := "extend_timeout_period"; success_rate := 0.60 |};
             {| strategy_action := "use_emergency_approval"; success_rate := 0.95 |} ] |}
  | vendor_invalid =>
      {| pattern_description := "Invalid or blocked vendor";
         frequency := 0.25;
         healing_strategies :=
           [ {| strategy_action := "suggest_alternative_vendor"; success_rate := 0.90 |};
             {| strategy_action := "unblock_vendor_temporarily"; success_rate := 0.75 |};
             {| strategy_action := "create_new_vendor_record"; success_rate := 0.95 |} ] |}
  | material_not_found =>
      {| pattern_description := "Material master not maintained";
         frequency := 0.20;
         healing_strategies :=
           [ {| strategy_action := "suggest_similar_material"; success_rate := 0.80 |};
             {| strategy_action := "create_material_master"; success_rate := 0.90 |};
             {| strategy_action := "use_material_substitution"; success_rate := 0.70 |} ] |}
  | authorization_missing =>
      {| pattern_description := "User lacks required authorization";
         frequency := 0.15;
         healing_strategies :=
           [ {| strategy_action := "assign_temporary_authorization"; success_rate := 0.85 |};
             {| strategy_action := "use_authorized_user"; success_rate := 0.95 |};
             {| strategy_action := "request_authorization_from_admin"; success_rate := 0.70 |} ] |}
  | network_timeout =>
      {| pattern_description := "Network connection timeout";
         frequency := 0.05;
         healing_strategies :=
           [ {| strategy_action := "retry_with_backoff"; success_rate := 0.75 |};
             {| strategy_action := "switch_to_backup_server"; success_rate := 0.90 |};
             {| strategy_action := "reduce_transaction_complexity"; success_rate := 0.60 |} ] |}
  end.

(** *** Randomness and time

    [random k] is the value of the [k]-th query when it is a call of
    [random.random()], [ident k] when it makes up an identifier, [now k] when
    it reads the clock.  [asked], in the state below, counts the queries. *)
Record Oracle : Type := {
  random : nat -> Q;
  ident : nat -> string;
  now : nat -> string
}.

Definition Qltb (x y : Q) : bool := negb (Qle_bool y x).

(** [random.uniform(a, b)] is [a + (b - a) * random()]. *)
Definition uniform (a b u : Q) : Q := (a + (b - a) * u)%Q.

(** [int(x)] truncates towards zero. *)
Definition int_of (x : Q) : Z := Z.quot (Qnum x) (Zpos (Qden x)).

(** *** Step generation *)

Definition base_steps (transaction : string) : list string :=
  [ "Login to SAP system";
    "Navigate to " +:+ transaction +:+ " transaction";
    "Enter transaction data";
    "Validate input fields";
    "Save transaction";
    "Verify transaction completion" ].

Definition transaction_steps : gmap string (list string) :=
  list_to_map
    [ ("ME21N", [ "Enter vendor information"; "Add material line items"; "Set delivery details";
                  "Check approval workflow"; "Generate purchase order number" ]);
      ("MIGO",  [ "Reference purchase order"; "Enter received quantities";
                  "Check quality inspection"; "Post goods receipt"; "Generate material document" ]);
      ("VA01",  [ "Enter customer information"; "Add product line items"; "Check ATP availability";
                  "Calculate pricing"; "Generate sales order number" ]);
      ("FB60",  [ "Enter vendor invoice details"; "Reference purchase order";
                  "Validate tax calculations"; "Check approval limits"; "Post invoice document" ]) ].

Definition pending_step (i : nat) (text : string) : ExecutionStep :=
  {| step_number := Z.of_nat i;
     description := text;
     step_status := "pending";
     step_start_time := None;
     step_end_time := None;
     duration_ms := None;
     details := None;
     error_message := None;
     error_code := None;
     screenshot := None |}.

(** [_generate_execution_steps]; its parameter [test_case] is not used by
    the code. *)
Definition _generate_execution_steps (transaction : string) : list ExecutionStep :=
  let all_steps :=
    take 2 (base_steps transaction)
    ++ default [] (transaction_steps !! transaction)
    ++ drop 2 (base_steps transaction) in
  imap (fun i text => pending_step (S i) text) all_steps.

(** *** Failure injection *)

Definition critical_steps : list string :=
  ["Enter transaction data"; "Save transaction"; "Check approval workflow"].

Definition base_failure_rate (transaction : string) : Q :=
  match sap_transaction_complexity !! transaction with
  | Some c => failure_rate c
  | None => 0.15%Q
  end.

(** The probability against which [_should_step_fail] draws. *)
Definition step_failure_rate (transaction : string) (step : ExecutionStep) (step_index : nat) : Q :=
  let rate :=
    if bool_decide (description step ∈ critical_steps)
    then (base_failure_rate transaction * 1.5)%Q
    else (base_failure_rate transaction * 0.5)%Q in
  if (step_index <? 2)%nat then (rate * 0.2)%Q else rate.

Definition _should_step_fail (draw : Q) (transaction : string) (step : ExecutionStep)
  (step_index : nat) : bool :=
  Qltb draw (step_failure_rate transaction step step_index).

(** [random.choices(population, weights)[0]]: with [u] the value of
    [random.random()], the element at the first position whose cumulative
    weight exceeds [u * total]; the last element when there is none. *)
Fixpoint bisect_weights (x acc : Q) (population : list PatternKey) (last : PatternKey) : PatternKey :=
  match population with
  | [] => last
  | k :: rest =>
      match rest with
      | [] => k
      | _ =>
          if Qltb x (acc + frequency (error_patterns k))%Q then k
          else bisect_weights x (acc + frequency (error_patterns k))%Q rest last
      end
  end.

Definition total_weight : Q :=
  fold_left (fun acc k => (acc + frequency (error_patterns k))%Q) pattern_keys 0%Q.

Definition choose_pattern (u : Q) : PatternKey :=
  bisect_weights (u * total_weight)%Q 0%Q pattern_keys network_timeout.

(** The dict that [_generate_step_error] returns; [err_pattern] is its key
    "pattern". *)
Record ErrorInfo : Type := {
  err_code : string;
  err_message : string;
  err_details : string;
  err_pattern : PatternKey
}.

Definition error_codes (k : PatternKey) : string :=
  match k with
  | approval_timeout => "ME_APPROVAL_TIMEOUT"
  | vendor_invalid => "ME_VENDOR_INVALID"
  | material_not_found => "MM_MATERIAL_NOT_FOUND"
  | authorization_missing => "SY_NO_AUTHORIZATION"
  | network_timeout => "SY_NETWORK_TIMEOUT"
  end.

Definition error_messages (transaction : string) (step : ExecutionStep) (k : PatternKey) : string :=
  match k with
  | approval_timeout =>
      "Approval workflow timeout - " +:+ description step +:+ " requires manager approval"
  | vendor_invalid => "Vendor validation failed - vendor does not exist or is blocked"
  | material_not_found => "Material master not maintained for requested item"
  | authorization_missing => "User lacks required authorization for " +:+ transaction
  | network_timeout => "Network timeout during " +:+ description step
  end.

Definition _generate_step_error (u : Q) (transaction : string) (step : ExecutionStep) : ErrorInfo :=
  let selected_pattern := choose_pattern u in
  {| err_code := error_codes selected_pattern;
     err_message := error_messages transaction step selected_pattern;
     err_details := pattern_description (error_patterns selected_pattern);
     err_pattern := selected_pattern |}.

(** *** Auto-healing *)

(** [sorted(healing_strategies, key=success_rate, reverse=True)]: a stable
    sort into descending order, written as an insertion sort. *)
Fixpoint insert_desc (x : Strategy) (l : list Strategy) : list Strategy :=
  match l with
  | [] => [x]
  | y :: l' =>
      if Qltb (success_rate x) (success_rate y) then y :: insert_desc x l' else x :: l
  end.

Definition sorted_strategies (l : list Strategy) : list Strategy :=
  foldr insert_desc [] l.

Definition healed (k : PatternKey) (cause : string) (s : Strategy) : HealingResult :=
  {| success := true;
     action := strategy_action s;
     pattern := key_name k;
     analysis := "Auto-healing successful using " +:+ strategy_action s;
     root_cause := cause;
     auto_retry_attempted := true;
     auto_retry_result := "success";
     auto_retry_details :=
       "Automatically resolved " +:+ key_name k +:+ " by applying " +:+ strategy_action s;
     recommendations :=
       [ {| rec_action := strategy_action s; rec_priority := "high";
            estimated_fix_time := "30 seconds"; automation_available := true |} ] |}.

Definition unhealed (k : PatternKey) (cause : string) : HealingResult :=
  {| success := false;
     action := "manual_intervention_required";
     pattern := key_name k;
     analysis := "Auto-healing failed for " +:+ key_name k;
     root_cause := cause;
     auto_retry_attempted := true;
     auto_retry_result := "failed";
     auto_retry_details := "All automated healing strategies failed";
     recommendations :=
       [ {| rec_action := "manual_investigation_required"; rec_priority := "high";
            estimated_fix_time := "10 minutes"; automation_available := false |} ] |}.

(** The loop over the sorted strategies: one draw per strategy tried. *)
Fixpoint try_strategies (orc : Oracle) (k : PatternKey) (cause : string)
  (strategies : list Strategy) (asked : nat) : HealingResult * nat :=
  match strategies with
  | [] => (unhealed k cause, asked)
  | s :: rest =>
      if Qltb (random orc asked) (success_rate s)
      then (healed k cause s, S asked)
      else try_strategies orc k cause rest (S asked)
  end.

(** [_attempt_auto_healing]; its parameters [execution] and [failed_step]
    are not used by the code. *)
Definition _attempt_auto_healing (orc : Oracle) (error_info : ErrorInfo) (asked : nat)
  : HealingResult * nat :=
  try_strategies orc (err_pattern error_info) (err_details error_info)
    (sorted_strategies (healing_strategies (error_patterns (err_pattern error_info)))) asked.

(** *** One execution: the step loop *)

Definition details_templates (transaction : string) : gmap string string :=
  list_to_map
    [ ("Login to SAP system", "Successful login with user credentials");
      ("Navigate to {transaction} transaction",
         "Transaction " +:+ transaction +:+ " loaded successfully");
      ("Enter transaction data", "All required fields populated successfully");
      ("Save transaction", "Transaction saved successfully");
      ("Enter vendor information", "Vendor V001 validated and accepted");
      ("Add material line items", "Material M001 added, price determined automatically");
      ("Generate purchase order number", "Purchase order 4500123456 created successfully");
      ("Post goods receipt", "Material document 5000654321 created successfully");
      ("Generate sales order number", "Sales order 1000567890 created successfully") ].

Definition _generate_step_success_details (transaction : string) (step : ExecutionStep) : string :=
  default ("Step '" +:+ description step +:+ "' completed successfully")
          (details_templates transaction !! description step).

(** Writes to one [ExecutionStep]. *)
Definition started_step (t : string) (s : ExecutionStep) : ExecutionStep :=
  {| step_number := step_number s; description := description s;
     step_status := "running";
     step_start_time := Some t;
     step_end_time := step_end_time s; duration_ms := duration_ms s; details := details s;
     error_message := error_message s; error_code := error_code s; screenshot := screenshot s |}.

Definition failed_step (info : ErrorInfo) (s : ExecutionStep) : ExecutionStep :=
  {| step_number := step_number s; description := description s;
     step_status := "failed";
     step_start_time := step_start_time s; step_end_time := step_end_time s;
     duration_ms := duration_ms s;
     details := Some (err_details info);
     error_message := Some (err_message info);
     error_code := Some (err_code info);
     screenshot := screenshot s |}.

Definition passed_step (text : string) (s : ExecutionStep) : ExecutionStep :=
  {| step_number := step_number s; description := description s;
     step_status := "passed";
     step_start_time := step_start_time s; step_end_time := step_end_time s;
     duration_ms := duration_ms s;
     details := Some text;
     error_message := error_message s; error_code := error_code s; screenshot := screenshot s |}.

(** [step.status = "passed"; step.details += " | Auto-healed: ..."] *)
Definition healed_step (h : HealingResult) (s : ExecutionStep) : ExecutionStep :=
  passed_step (default "" (details s) +:+ " | Auto-healed: " +:+ action h) s.

Definition finished_step (t : string) (ms : Z) (shot : string) (s : ExecutionStep) : ExecutionStep :=
  {| step_number := step_number s; description := description s;
     step_status := step_status s;
     step_start_time := step_start_time s;
     step_end_time := Some t;
     duration_ms := Some ms;
     details := details s;
     error_message := error_message s; error_code := error_code s;
     screenshot := Some shot |}.

(** Writes to one [TestExecution]. *)
Definition set_current_step (n : Z) (e : TestExecution) : TestExecution :=
  {| execution_id := execution_id e; test_case_id := test_case_id e; test_name := test_name e;
     transaction := transaction e; status := status e; result := result e;
     start_time := start_time e; end_time := end_time e;
     duration_seconds := duration_seconds e;
     current_step := n;
     total_steps := total_steps e; execution_steps := execution_steps e;
     auto_healing := auto_healing e |}.

Definition set_status (st : ExecutionStatus) (e : TestExecution) : TestExecution :=
  {| execution_id := execution_id e; test_case_id := test_case_id e; test_name := test_name e;
     transaction := transaction e;
     status := st;
     result := result e;
     start_time := start_time e; end_time := end_time e;
     duration_seconds := duration_seconds e; current_step := current_step e;
     total_steps := total_steps e; execution_steps := execution_steps e;
     auto_healing := auto_healing e |}.

Definition set_result (r : TestResult) (e : TestExecution) : TestExecution :=
  {| execution_id := execution_id e; test_case_id := test_case_id e; test_name := test_name e;
     transaction := transaction e; status := status e;
     result := Some r;
     start_time := start_time e; end_time := end_time e;
     duration_seconds := duration_seconds e; current_step := current_step e;
     total_steps := total_steps e; execution_steps := execution_steps e;
     auto_healing := auto_healing e |}.

Definition set_auto_healing (h : HealingResult) (e : TestExecution) : TestExecution :=
  {| execution_id := execution_id e; test_case_id := test_case_id e; test_name := test_name e;
     transaction := transaction e; status := status e; result := result e;
     start_time := start_time e; end_time := end_time e;
     duration_seconds := duration_seconds e; current_step := current_step e;
     total_steps := total_steps e; execution_steps := execution_steps e;
     auto_healing := Some h |}.

Definition set_end_time (t : string) (e : TestExecution) : TestExecution :=
  {| execution_id := execution_id e; test_case_id := test_case_id e; test_name := test_name e;
     transaction := transaction e; status := status e; result := result e;
     start_time := start_time e;
     end_time := Some t;
     duration_seconds := duration_seconds e; current_step := current_step e;
     total_steps := total_steps e; execution_steps := execution_steps e;
     auto_healing := auto_healing e |}.

Definition set_duration (d : Q) (e : TestExecution) : TestExecution :=
  {| execution_id := execution_id e; test_case_id := test_case_id e; test_name := test_name e;
     transaction := transaction e; status := status e; result := result e;
     start_time := start_time e; end_time := end_time e;
     duration_seconds := Some d;
     current_step := current_step e;
     total_steps := total_steps e; execution_steps := execution_steps e;
     auto_healing := auto_healing e |}.

Definition set_steps (steps : list ExecutionStep) (e : TestExecution) : TestExecution :=
  {| execution_id := execution_id e; test_case_id := test_case_id e; test_name := test_name e;
     transaction := transaction e; status := status e; result := result e;
     start_time := start_time e; end_time := end_time e;
     duration_seconds := duration_seconds e; current_step := current_step e;
     total_steps := total_steps e;
     execution_steps := steps;
     auto_healing := auto_healing e |}.

(** The local variables of [_simulate_sap_execution] inside its loop,
    together with the attributes of the execution (its steps apart, which
    the loop itself carries) and the count of oracle queries. *)
Record Run : Type := {
  run_exec : TestExecution;
  current_time : string;
  total_duration : Q;
  run_asked : nat
}.

Definition complexity_of (transaction : string) : Complexity :=
  default default_complexity (sap_transaction_complexity !! transaction).

(** The end of a loop iteration that did not [break]. *)
Definition complete_step (orc : Oracle) (i : nat) (step_time : Q) (step : ExecutionStep)
  (e : TestExecution) (r : Run) (asked : nat) : ExecutionStep * Run :=
  let t := now orc asked in
  (finished_step t (int_of (step_time * 1000)%Q)
     (execution_id e +:+ "_step_" +:+ pretty (S i) +:+ ".png") step,
   {| run_exec := e;
      current_time := t;
      total_duration := (total_duration r + step_time)%Q;
      run_asked := S asked |}).

(** One iteration of the loop, for the step at index [i] of [n]; the
    boolean is [false] when the iteration ends in [break]. *)
Definition run_step (orc : Oracle) (n i : nat) (step : ExecutionStep) (r : Run)
  : ExecutionStep * Run * bool :=
  let a := run_asked r in
  let e := set_current_step (Z.of_nat i + 1) (run_exec r) in
  let base_step_time := (inject_Z (base_time (complexity_of (transaction e)))
                         / inject_Z (Z.of_nat n))%Q in
  let step_time := (base_step_time * uniform 0.7 1.8 (random orc a))%Q in
  let step := started_step (current_time r) step in
  if _should_step_fail (random orc (a + 1)) (transaction e) step i then
    let error_info := _generate_step_error (random orc (a + 2)) (transaction e) step in
    let step := failed_step error_info step in
    let '(healing_result, a') := _attempt_auto_healing orc error_info (a + 3) in
    if success healing_result then
      (complete_step orc i step_time (healed_step healing_result step)
         (set_auto_healing healing_result e) r a', true)
    else
      (step,
       {| run_exec := set_result R_FAILED (set_status FAILED e);
          current_time := current_time r;
          total_duration := total_duration r;
          run_asked := a' |},
       false)
  else
    (complete_step orc i step_time
       (passed_step (_generate_step_success_details (transaction e) step) step) e r (a + 2),
     true).

(** [for i, step in enumerate(execution.execution_steps)]: the steps from
    index [i] on; the result lists them as the loop leaves them. *)
Fixpoint run_steps (orc : Oracle) (n i : nat) (todo : list ExecutionStep) (r : Run)
  : list ExecutionStep * Run :=
  match todo with
  | [] => ([], r)
  | step :: rest =>
      let '(step', r', continue) := run_step orc n i step r in
      if continue : bool then
        let '(rest', r'') := run_steps orc n (S i) rest r' in (step' :: rest', r'')
      else (step' :: rest, r')
  end.

(** What [_simulate_sap_execution] does to its execution, before it
    touches the agent. *)
Definition simulate (orc : Oracle) (e : TestExecution) (asked : nat) : TestExecution * nat :=
  let '(steps, r) :=
    run_steps orc (length (execution_steps e)) 0 (execution_steps e)
      {| run_exec := e; current_time := now orc asked; total_duration := 0; run_asked := S asked |} in
  let e := run_exec r in
  let e := match status e with
           | RUNNING => set_result R_PASSED (set_status COMPLETED e)
           | _ => e
           end in
  (set_steps steps (set_duration (total_duration r) (set_end_time (now orc (run_asked r)) e)),
   S (run_asked r)).

(** *** The agent

    [TestExecution] objects are shared: the dict [active_executions] and the
    list [execution_history] hold references to them.  [objects] is the store
    of all executions ever created, a reference is an index into it, and a
    write to an execution is a write to the store.  [asked] counts the oracle
    queries made so far. *)
Record World : Type := {
  active_executions : gmap string nat;
  execution_queue : list string;
  execution_history : list nat;
  max_concurrent_executions : Z;
  objects : list TestExecution;
  asked : nat
}.

(** [TestExecutionAgent()], with the capacity as a parameter (the
    constructor sets 3). *)
Definition new_agent (capacity : Z) : World :=
  {| active_executions := ∅;
     execution_queue := [];
     execution_history := [];
     max_concurrent_executions := capacity;
     objects := [];
     asked := 0%nat |}.

Definition set_active (f : gmap string nat -> gmap string nat) (w : World) : World :=
  {| active_executions := f (active_executions w);
     execution_queue := execution_queue w;
     execution_history := execution_history w;
     max_concurrent_executions := max_concurrent_executions w;
     objects := objects w;
     asked := asked w |}.

Definition set_queue (q : list string) (w : World) : World :=
  {| active_executions := active_executions w;
     execution_queue := q;
     execution_history := execution_history w;
     max_concurrent_executions := max_concurrent_executions w;
     objects := objects w;
     asked := asked w |}.

Definition set_history (h : list nat) (w : World) : World :=
  {| active_executions := active_executions w;
     execution_queue := execution_queue w;
     execution_history := h;
     max_concurrent_executions := max_concurrent_executions w;
     objects := objects w;
     asked := asked w |}.

Definition set_capacity (capacity : Z) (w : World) : World :=
  {| active_executions := active_executions w;
     execution_queue := execution_queue w;
     execution_history := execution_history w;
     max_concurrent_executions := capacity;
     objects := objects w;
     asked := asked w |}.

Definition set_objects (os : list TestExecution) (w : World) : World :=
  {| active_executions := active_executions w;
     execution_queue := execution_queue w;
     execution_history := execution_history w;
     max_concurrent_executions := max_concurrent_executions w;
     objects := os;
     asked := asked w |}.

Definition set_asked (n : nat) (w : World) : World :=
  {| active_executions := active_executions w;
     execution_queue := execution_queue w;
     execution_history := execution_history w;
     max_concurrent_executions := max_concurrent_executions w;
     objects := objects w;
     asked := n |}.

(** [len(self.active_executions) < self.max_concurrent_executions] *)
Definition has_capacity (w : World) : bool :=
  Z.of_nat (size (active_executions w)) <? max_concurrent_executions w.

(** [for exec in self.execution_history: if exec.execution_id == id: ...
    break]: the first execution of the history that carries the id. *)
Definition find_in_history (id : string) (w : World) : option nat :=
  List.find
    (fun l => match objects w !! l with
              | Some e => String.eqb (execution_id e) id
              | None => false
              end)
    (execution_history w).

Section WithOracle.

Variable orc : Oracle.

(** [_simulate_sap_execution], with [process_queue] for the call of
    [_process_execution_queue] in which it ends.  The key deleted from
    [active_executions] is there: both callers of [_start_execution] store the
    execution under its id just before. *)
Definition _simulate_sap_execution (process_queue : World -> World) (l : nat) (w : World) : World :=
  match objects w !! l with
  | None => w
  | Some e =>
      let '(e', a) := simulate orc e (asked w) in
      process_queue
        (set_active (fun act => delete (execution_id e') act)
          (set_history (execution_history w ++ [l])
            (set_objects (<[l := e']> (objects w)) (set_asked a w))))
  end.

Definition _start_execution (process_queue : World -> World) (l : nat) (w : World) : World :=
  match objects w !! l with
  | None => w
  | Some e =>
      _simulate_sap_execution process_queue l
        (set_objects (<[l := set_current_step 1 (set_status RUNNING e)]> (objects w)) w)
  end.

(** The [while] loop of [_process_execution_queue].  Every iteration pops
    the queue, and the executions it starts only ever pop it further, so the
    length of the queue bounds the iterations: [fuel] stands for that
    bound. *)
Fixpoint process_queue_loop (fuel : nat) (w : World) : World :=
  match fuel with
  | O => w
  | S fuel' =>
      match execution_queue w with
      | [] => w
      | execution_id :: rest =>
          if has_capacity w then
            let w := set_queue rest w in
            match find_in_history execution_id w with
            | Some l =>
                process_queue_loop fuel'
                  (_start_execution (process_queue_loop fuel') l
                     (set_active (fun act => <[execution_id := l]> act) w))
            | None => process_queue_loop fuel' w
            end
          else w
      end
  end.

Definition _process_execution_queue (w : World) : World :=
  process_queue_loop (length (execution_queue w)) w.

(** A test case is a dict of strings. *)
Definition _create_test_execution (test_case : gmap string string) (w : World) : nat * World :=
  let a := asked w in
  let execution_id := ident orc a in
  let transaction :=
    default (default "ME21N" (test_case !! "transaction")) (test_case !! "transaction_code") in
  let steps := _generate_execution_steps transaction in
  let execution :=
    {| execution_id := execution_id;
       test_case_id :=
         default (default ("test_" +:+ ident orc (a + 1)) (test_case !! "id"))
                 (test_case !! "test_id");
       test_name := default ("Test execution for " +:+ transaction) (test_case !! "name");
       transaction := transaction;
       status := QUEUED;
       result := None;
       start_time := now orc (a + 2);
       end_time := None;
       duration_seconds := None;
       current_step := 0;
       total_steps := Z.of_nat (length steps);
       execution_steps := steps;
       auto_healing := None |} in
  let l := length (objects w) in
  (l, set_active (fun act => <[execution_id := l]> act)
        (set_objects (objects w ++ [execution]) (set_asked (a + 3) w))).

(** The id under which the execution at [l] is filed. *)
Definition id_of (l : nat) (w : World) : string :=
  match objects w !! l with
  | Some e => execution_id e
  | None => ""
  end.

(** [execute_single_test]: the answer is [None] for an empty test case,
    else the execution id and the status string of the reply. *)
Definition execute_single_test (test_case : gmap string string) (w : World)
  : option (string * string) * World :=
  if bool_decide (test_case = ∅) then (None, w)
  else
    let '(l, w) := _create_test_execution test_case w in
    if has_capacity w
    then (Some (id_of l w, "running"), _start_execution _process_execution_queue l w)
    else (Some (id_of l w, "queued"), set_queue (execution_queue w ++ [id_of l w]) w).

(** The loop of [execute_test_suite]. *)
Fixpoint submit_all (test_cases : list (gmap string string)) (w : World) : list nat * World :=
  match test_cases with
  | [] => ([], w)
  | test_case :: rest =>
      let '(l, w) := _create_test_execution test_case w in
      let w := if has_capacity w
               then _start_execution _process_execution_queue l w
               else set_queue (execution_queue w ++ [id_of l w]) w in
      let '(ls, w) := submit_all rest w in
      (l :: ls, w)
  end.

(** [execute_test_suite]: [None] for an empty suite, else the suite id and
    the executions created. *)
Definition execute_test_suite (test_cases : list (gmap string string)) (w : World)
  : option (string * list nat) * World :=
  match test_cases with
  | [] => (None, w)
  | _ =>
      let suite_id := "suite_" +:+ ident orc (asked w) in
      let '(ls, w) := submit_all test_cases (set_asked (S (asked w)) w) in
      (Some (suite_id, ls), w)
  end.

(** [list.remove(x)]: the first occurrence goes. *)
Fixpoint remove_first (x : string) (l : list string) : list string :=
  match l with
  | [] => []
  | y :: l' => if String.eqb y x then l' else y :: remove_first x l'
  end.

Inductive Reply : Type :=
| Succeeded (message : string)
| Refused (error : string).

Definition cancel_execution (id : string) (w : World) : Reply * World :=
  if bool_decide (id ∈ execution_queue w) then
    (Succeeded ("Execution " +:+ id +:+ " removed from queue"),
     set_queue (remove_first id (execution_queue w)) w)
  else
    match active_executions w !! id with
    | Some l =>
        match objects w !! l with
        | Some e =>
            let e := set_end_time (now orc (asked w)) (set_result R_SKIPPED (set_status CANCELLED e)) in
            (Succeeded ("Execution " +:+ id +:+ " cancelled"),
             set_active (fun act => delete id act)
               (set_history (execution_history w ++ [l])
                  (set_objects (<[l := e]> (objects w)) (set_asked (S (asked w)) w))))
        | None => (Refused ("Execution " +:+ id +:+ " not found or cannot be cancelled"), w)
        end
    | None => (Refused ("Execution " +:+ id +:+ " not found or cannot be cancelled"), w)
    end.

(** [get_execution_status]: the execution that the reply describes. *)
Definition get_execution_status (id : string) (w : World) : option TestExecution :=
  match active_executions w !! id with
  | Some l => objects w !! l
  | None => l ← find_in_history id w; objects w !! l
  end.

(** *** The agent as a transition system

    The requests that [process_message] dispatches and that change the
    agent, and the assignment of the public attribute
    [max_concurrent_executions].  A request runs to its end before the next
    one is looked at: [_async_sleep] blocks in [time.sleep], no coroutine of
    the agent ever suspends. *)
Inductive Request : Type :=
| ExecuteSingleTest (test_case : gmap string string)
| ExecuteTestSuite (test_cases : list (gmap string string))
| CancelExecution (id : string)
| Configure (capacity : Z).

Definition handle (rq : Request) (w : World) : World :=
  match rq with
  | ExecuteSingleTest test_case => snd (execute_single_test test_case w)
  | ExecuteTestSuite test_cases => snd (execute_test_suite test_cases w)
  | CancelExecution id => snd (cancel_execution id w)
  | Configure capacity => set_capacity capacity w
  end.

Definition run (requests : list Request) (w : World) : World :=
  fold_left (fun w rq => handle rq w) requests w.

End WithOracle.

(** *** Notions that the properties are stated with *)




Definition terminal (st : ExecutionStatus) : bool :=
  match st with
  | COMPLETED | FAILED | CANCELLED => true
  | QUEUED | RUNNING => false
  end.

(** What the data model promises of every execution. *)
Definition consistent (e : TestExecution) : Prop :=
  0 <= current_step e <= total_steps e
  /\ (result e = None <-> terminal (status e) = false)
  /\ (end_time e = None <-> terminal (status e) = false).

(** The invariant that carries it: [total_steps] is the number of steps,
    and there is at least one. *)
Definition sound (e : TestExecution) : Prop :=
  consistent e
  /\ total_steps e = Z.of_nat (length (execution_steps e))
  /\ (1 <= length (execution_steps e))%nat.

Definition all_sound (w : World) : Prop := Forall sound (objects w).

(** *** How the wait queue is used *)

(** No execution is waiting or running, and every execution has finished. *)
Definition settled (w : World) : Prop :=
  active_executions w = ∅
  /\ execution_queue w = []
  /\ Forall (fun e => terminal (status e) = true) (objects w).

(** Requests that leave room for at least two executions. *)
Definition keeps_room (rq : Request) : Prop :=
  match rq with
  | Configure capacity => 2 <= capacity
  | _ => True
  end.

(** Requests that leave room for at most one execution. *)
Definition keeps_shut (rq : Request) : Prop :=
  match rq with
  | Configure capacity => capacity <= 1
  | _ => True
  end.

(** An execution that was never run: queued or cancelled, every step pending. *)
Definition never_ran (e : TestExecution) : Prop :=
  (status e = QUEUED \/ status e = CANCELLED)
  /\ Forall (fun s => step_status s = "pending") (execution_steps e).


(** The oracle never makes up the same identifier twice. *)
Definition fresh_ids (orc : Oracle) : Prop :=
  forall j k : nat, ident orc j = ident orc k -> j = k.

(** The bookkeeping of the agent is in order: the ids of the executions
    and of the queue were made up by the oracle, no id of the queue is the id
    of an execution of the history, an active id is filed with an execution
    that carries it, and the history refers to executions that exist. *)
Record tidy (orc : Oracle) (w : World) : Prop := {
  ids_known :
    forall (l : nat) (e : TestExecution),
      objects w !! l = Some e ->
      exists k : nat, (k < asked w)%nat /\ execution_id e = ident orc k;
  queue_known :
    forall id : string,
      id ∈ execution_queue w -> exists k : nat, (k < asked w)%nat /\ id = ident orc k;
  queue_apart :
    forall (id : string) (l : nat) (e : TestExecution),
      id ∈ execution_queue w -> l ∈ execution_history w -> objects w !! l = Some e ->
      execution_id e <> id;
  active_filed :
    forall (id : string) (l : nat),
      active_executions w !! id = Some l ->
      exists e : TestExecution, objects w !! l = Some e /\ execution_id e = id;
  history_valid :
    forall l : nat, l ∈ execution_history w -> (l < length (objects w))%nat
}.

(** From [w] to [w'] no execution was run: each keeps its steps, and its
    status unless it was cancelled. *)
Definition left_alone (w w' : World) : Prop :=
  forall (l : nat) (e : TestExecution),
    objects w !! l = Some e ->
    exists e' : TestExecution,
      objects w' !! l = Some e'
      /\ execution_steps e' = execution_steps e
      /\ (status e' = status e \/ status e' = CANCELLED).

(** What [_start_execution] comes to, for an execution that exists. *)
Definition finished (orc : Oracle) (l : nat) (e : TestExecution) (w : World) : World :=
  set_active (fun act => delete (execution_id e) act)
    (set_history (execution_history w ++ [l])
       (set_objects
          (<[l := fst (simulate orc (set_current_step 1 (set_status RUNNING e)) (asked w))]>
             (objects w))
          (set_asked (snd (simulate orc (set_current_step 1 (set_status RUNNING e)) (asked w)))
             w))).


(** *** Concrete runs *)

(** An oracle under which no step fails: every draw is 0.999. *)
Definition calm : Oracle :=
  {| random := fun _ => 0.999%Q;
     ident := fun k => "exec_" +:+ pretty k;
     now := fun k => "t" +:+ pretty k |}.

(** An oracle under which the first step of the first execution fails and
    no strategy heals it: the draw that decides the failure is 0, every other
    draw is 0.999. *)
Definition doomed : Oracle :=
  {| random := fun k => if (k =? 5)%nat then 0%Q else 0.999%Q;
     ident := fun k => "exec_" +:+ pretty k;
     now := fun k => "t" +:+ pretty k |}.

Definition test_case_for (transaction : string) : gmap string string :=
  {[ "transaction_code" := transaction ]}.

(** An oracle under which the first step of the first execution fails and
    the first strategy tried heals it. *)
Definition shaky : Oracle :=
  {| random := fun k => if (k =? 5)%nat || (k =? 7)%nat then 0%Q else 0.999%Q;
     ident := fun k => "exec_" +:+ pretty k;
     now := fun k => "t" +:+ pretty k |}.

End Executor.

(** ** The test-execution simulator: reports and analysis *)

Module Reports.

Import Executor.

(** *** The history report ([get_execution_history]) *)

(** [l[start:]] for a Python list and an integer [start]: a negative
    [start] counts from the end, and both ends are clipped. *)
Definition slice_from {A : Type} (start : Z) (l : list A) : list A :=
  let n := Z.of_nat (length l) in
  let start := if start <? 0 then Z.max 0 (start + n) else Z.min start n in
  drop (Z.to_nat start) l.

(** [n / d * 100 if d > 0 else 0] *)
Definition percent (n d : nat) : Q :=
  if (0 <? d)%nat then (inject_Z (Z.of_nat n) / inject_Z (Z.of_nat d) * 100)%Q else 0%Q.

(** The executions that [execution_history] refers to, oldest first. *)
Definition history_of (w : World) : list TestExecution :=
  omap (fun l => objects w !! l) (execution_history w).

Definition has_result (r : TestResult) (e : TestExecution) : bool :=
  match result e, r with
  | Some R_PASSED, R_PASSED | Some R_FAILED, R_FAILED
  | Some R_SKIPPED, R_SKIPPED | Some R_ERROR, R_ERROR => true
  | _, _ => false
  end.

(** [e.auto_healing] is truthy, and [e.auto_healing.get("success")] is. *)
Definition healing_attempted (e : TestExecution) : bool :=
  match auto_healing e with
  | Some _ => true
  | None => false
  end.

Definition healing_succeeded (e : TestExecution) : bool :=
  match auto_healing e with
  | Some h => success h
  | None => false
  end.

(** The durations that are truthy: not [None] and not zero. *)
Definition truthy_durations (h : list TestExecution) : list Q :=
  omap (fun e => match duration_seconds e with
                 | Some d => if Qeq_bool d 0 then None else Some d
                 | None => None
                 end) h.

Definition Qsum (l : list Q) : Q := fold_left Qplus l 0%Q.

Record SummaryStats : Type := {
  total_executions : nat;
  passed : nat;
  failed : nat;
  in_progress : nat;
  success_rate : Q;
  average_duration : Q;
  auto_healing_success_rate : Q
}.

Record ResourceUsage : Type := {
  cpu_percent : Q;
  memory_percent : Q;
  disk_io_percent : Q
}.

(** The dict that [get_execution_history] returns, without its constant
    entries. *)
Record HistoryReport : Type := {
  executions : list TestExecution;
  summary_stats : SummaryStats;
  monitoring_active_executions : nat;
  queue_length : nat;
  resource_usage : ResourceUsage;
  last_updated : string;
  report_timestamp : string
}.

Definition get_execution_history (orc : Oracle) (limit : Z) (w : World) : HistoryReport * World :=
  let history := history_of w in
  let recent_executions := match execution_history w with
                           | [] => []
                           | _ => slice_from (- limit) history
                           end in
  let total_executions := length history in
  let passed_executions := length (filter (fun e => has_result R_PASSED e = true) history) in
  let failed_executions := length (filter (fun e => has_result R_FAILED e = true) history) in
  let durations := truthy_durations history in
  let auto_healing_attempts := length (filter (fun e => healing_attempted e = true) history) in
  let auto_healing_successes :=
    length (filter (fun e => healing_attempted e && healing_succeeded e = true) history) in
  let a := asked w in
  ({| executions := recent_executions;
      summary_stats :=
        {| total_executions := total_executions;
           passed := passed_executions;
           failed := failed_executions;
           in_progress := size (active_executions w);
           success_rate := percent passed_executions total_executions;
           average_duration :=
             match durations with
             | [] => 0%Q
             | _ => (Qsum durations / inject_Z (Z.of_nat (length durations)))%Q
             end;
           auto_healing_success_rate := percent auto_healing_successes auto_healing_attempts |};
      monitoring_active_executions := size (active_executions w);
      queue_length := length (execution_queue w);
      resource_usage :=
        {| cpu_percent := uniform 15 35 (random orc a);
           memory_percent := uniform 25 55 (random orc (a + 1));
           disk_io_percent := uniform 5 25 (random orc (a + 2)) |};
      last_updated := now orc (a + 3);
      report_timestamp := now orc (a + 4) |},
   set_asked (a + 5) w).

(** *** Quality metrics ([_calculate_quality_metrics]) *)

Record QualityMetrics : Type := {
  step_success_rate : Q;
  validation_success_rate : Q;
  quality_total_steps : nat;
  passed_steps : nat;
  failed_steps : nat;
  auto_healing_applied : bool;
  auto_healing_success : bool
}.

(** [execution.validations], which the record of an execution leaves out,
    is an argument: a list of dicts. *)
Definition _calculate_quality_metrics (e : TestExecution) (validations : list (gmap string string))
  : QualityMetrics :=
  let total_steps := length (execution_steps e) in
  let passed_steps := length (filter (fun s => step_status s = "passed") (execution_steps e)) in
  let failed_steps := length (filter (fun s => step_status s = "failed") (execution_steps e)) in
  let passed_validations :=
    length (filter (fun v : gmap string string => v !! "status" = Some "passed") validations) in
  let total_validations := length validations in
  {| step_success_rate := percent passed_steps total_steps;
     validation_success_rate := percent passed_validations total_validations;
     quality_total_steps := total_steps;
     passed_steps := passed_steps;
     failed_steps := failed_steps;
     auto_healing_applied := healing_attempted e;
     auto_healing_success := healing_succeeded e |}.

(** *** Performance ([_calculate_performance_metrics], [_analyze_performance]) *)

(** The dict [performance_metrics] when it is not empty. *)
Record PerformanceMetrics : Type := {
  metrics_total_duration : Q;
  response_time_avg : Z;
  response_time_max : Z;
  response_time_min : Z;
  cpu_usage_avg : Q;
  memory_usage_mb : Z;
  network_latency_ms : Z
}.

(** The durations of the steps that are truthy: not [None] and not 0. *)
Definition step_durations (e : TestExecution) : list Z :=
  omap (fun s => match duration_ms s with
                 | Some d => if d =? 0 then None else Some d
                 | None => None
                 end) (execution_steps e).

Definition Zsum (l : list Z) : Z := fold_left Z.add l 0.

(** [max] and [min] of a list with first element [d]. *)
Definition Zmaximum (d : Z) (l : list Z) : Z := fold_left Z.max l d.

Definition Zminimum (d : Z) (l : list Z) : Z := fold_left Z.min l d.

(** [randint k lo hi] is what the [k]-th query of the oracle yields when
    it is a call of [random.randint(lo, hi)]. *)
Definition _calculate_performance_metrics (orc : Oracle) (randint : nat -> Z -> Z -> Z)
  (e : TestExecution) (asked : nat) : option PerformanceMetrics * nat :=
  match step_durations e with
  | [] => (None, asked)
  | d :: rest =>
      (Some {| metrics_total_duration := default 0%Q (duration_seconds e);
               response_time_avg := Zsum (d :: rest) / Z.of_nat (length (d :: rest));
               response_time_max := Zmaximum d rest;
               response_time_min := Zminimum d rest;
               cpu_usage_avg := uniform 10 25 (random orc asked);
               memory_usage_mb := randint (asked + 1)%nat 180 300;
               network_latency_ms := randint (asked + 2)%nat 15 50 |},
       (asked + 3)%nat)
  end.

(** The three ratings. *)
Definition response_rating_of (avg_response : Z) : string :=
  if avg_response <=? 2000 then "excellent"
  else if avg_response <=? 5000 then "good"
  else "poor".

Definition cpu_rating_of (cpu_usage : Q) : string :=
  if Qle_bool cpu_usage 20 then "excellent"
  else if Qle_bool cpu_usage 50 then "acceptable"
  else "high".

Definition memory_rating_of (memory_usage : Z) : string :=
  if memory_usage <=? 200 then "excellent"
  else if memory_usage <=? 400 then "acceptable"
  else "high".

(** [["excellent", "good", "acceptable", "poor"].index(rating)], which
    raises [ValueError] for a rating that is not in the list. *)
Definition rating_index (rating : string) : res nat :=
  if String.eqb rating "excellent" then Ok 0%nat
  else if String.eqb rating "good" then Ok 1%nat
  else if String.eqb rating "acceptable" then Ok 2%nat
  else if String.eqb rating "poor" then Ok 3%nat
  else Raise ValueError.

(** [min(a, b, c, key=rating_index)]: the keys are computed from left to
    right, and the first of the smallest wins. *)
Definition min_by_index (a b c : string) : res string :=
  match rating_index a with
  | Raise e => Raise e
  | Ok ka =>
      match rating_index b with
      | Raise e => Raise e
      | Ok kb =>
          match rating_index c with
          | Raise e => Raise e
          | Ok kc =>
              let '(best, kbest) := if (kb <? ka)%nat then (b, kb) else (a, ka) in
              Ok (if (kc <? kbest)%nat then c else best)
          end
      end
  end.

(** The dict that [_analyze_performance] returns for metrics that are not
    empty. *)
Record PerformanceAnalysis : Type := {
  overall_rating : string;
  response_time_rating : string;
  cpu_usage_rating : string;
  memory_usage_rating : string;
  analysed_metrics : PerformanceMetrics
}.

(** [_analyze_performance]: [None] stands for the answer
    [{"status": "no_metrics_available"}]. *)
Definition _analyze_performance (performance_metrics : option PerformanceMetrics)
  : res (option PerformanceAnalysis) :=
  match performance_metrics with
  | None => Ok None
  | Some metrics =>
      let response_rating := response_rating_of (response_time_avg metrics) in
      let cpu_rating := cpu_rating_of (cpu_usage_avg metrics) in
      let memory_rating := memory_rating_of (memory_usage_mb metrics) in
      match min_by_index response_rating cpu_rating memory_rating with
      | Ok overall =>
          Ok (Some {| overall_rating := overall;
                      response_time_rating := response_rating;
                      cpu_usage_rating := cpu_rating;
                      memory_usage_rating := memory_rating;
                      analysed_metrics := metrics |})
      | Raise e => Raise e
      end
  end.

(** *** Notions that the properties are stated with *)

(** A step that was not begun, one that was completed, and one that
    failed and was not healed. *)
Definition untouched (s : ExecutionStep) : Prop :=
  step_status s = "pending"
  /\ step_start_time s = None /\ step_end_time s = None /\ duration_ms s = None
  /\ details s = None /\ error_message s = None /\ error_code s = None /\ screenshot s = None.

Definition completed_step (s : ExecutionStep) : Prop :=
  step_status s = "passed"
  /\ is_Some (step_start_time s) /\ is_Some (step_end_time s) /\ is_Some (duration_ms s)
  /\ is_Some (details s) /\ is_Some (screenshot s).

Definition broken_step (s : ExecutionStep) : Prop :=
  step_status s = "failed"
  /\ is_Some (step_start_time s) /\ step_end_time s = None /\ duration_ms s = None
  /\ is_Some (details s) /\ is_Some (error_message s) /\ is_Some (error_code s)
  /\ screenshot s = None.

(** What the status of an execution says about its result and its steps. *)
Definition shape (e : TestExecution) : Prop :=
  match status e with
  | QUEUED => result e = None /\ Forall untouched (execution_steps e)
  | CANCELLED => result e = Some R_SKIPPED /\ Forall untouched (execution_steps e)
  | COMPLETED =>
      result e = Some R_PASSED
      /\ Forall completed_step (execution_steps e)
      /\ current_step e = total_steps e
  | FAILED =>
      result e = Some R_FAILED
      /\ exists (done : list ExecutionStep) (f : ExecutionStep) (rest : list ExecutionStep),
           execution_steps e = done ++ f :: rest
           /\ Forall completed_step done
           /\ broken_step f
           /\ Forall untouched rest
           /\ current_step e = Z.of_nat (length done) + 1
  | RUNNING => False
  end.

(** The healing record of an execution, when there is one, is a success. *)
Definition healing_ok (e : TestExecution) : Prop :=
  forall h : HealingResult, auto_healing e = Some h -> success h = true.

(** The bookkeeping that the reports rely on: no two executions carry the
    same id, an execution that is filed as active is queued, and every
    execution is either filed as active under its id or in the history, where
    the executions are finished. *)
Record orderly (w : World) : Prop := {
  shapes : Forall (fun e => shape e /\ healing_ok e) (objects w);
  ids_apart : NoDup (execution_id <$> objects w);
  active_queued :
    forall (id : string) (l : nat) (e : TestExecution),
      active_executions w !! id = Some l -> objects w !! l = Some e -> status e = QUEUED;
  all_filed :
    forall (l : nat) (e : TestExecution),
      objects w !! l = Some e ->
      active_executions w !! execution_id e = Some l \/ l ∈ execution_history w;
  history_finished :
    forall (l : nat) (e : TestExecution),
      l ∈ execution_history w -> objects w !! l = Some e -> terminal (status e) = true
}.

(** The executions of a history that were cancelled: their result is
    [SKIPPED]. *)
Definition cancelled_executions (h : list TestExecution) : nat :=
  length (filter (fun e => has_result R_SKIPPED e = true) h).

(** The draws of [random.random()] lie in [[0, 1)] and those of
    [random.randint(lo, hi)] between [lo] and [hi]. *)
Definition draws_in_range (orc : Oracle) (randint : nat -> Z -> Z -> Z) : Prop :=
  (forall k : nat, (0 <= random orc k)%Q /\ (random orc k < 1)%Q)
  /\ (forall (k : nat) (lo hi : Z), lo <= hi -> lo <= randint k lo hi <= hi).

(** The better of two ratings is the one that comes first in the list. *)
Definition at_least_as_good (a b : string) : Prop :=
  match rating_index a, rating_index b with
  | Ok ka, Ok kb => (ka <= kb)%nat
  | _, _ => False
  end.

(** *** Concrete reports *)

Definition sample_randint (k : nat) (lo hi : Z) : Z := lo.

(** An execution of ME21N that was run under the calm oracle. *)
Definition sample_execution : TestExecution :=
  fst (simulate calm
         {| execution_id := "exec_0";
            test_case_id := "test_1";
            test_name := "Test execution for ME21N";
            transaction := "ME21N";
            status := RUNNING;
            result := None;
            start_time := "t2";
            end_time := None;
            duration_seconds := None;
            current_step := 1;
            total_steps := Z.of_nat (length (_generate_execution_steps "ME21N"));
            execution_steps := _generate_execution_steps "ME21N";
            auto_healing := None |} 3).

End Reports.

(** * Part II: the properties *)

(** ** The message router *)

Module RouterFacts.

Import Router.

Section Properties.

Context {H : Type}.
Variable fromisoformat : string -> res datetime.
Variable invoke : H -> AgentMessage -> Py (World H) bool.

Lemma is_expired_naive_past (now : Z) (message : AgentMessage) (c : ascii) (s : string) (t : datetime) :
  expires_at message = Some (String c s) ->
  fromisoformat (replace_Z (String c s)) = Ok t ->
  utcoffset t = None ->
  wall t < now ->
  _is_expired fromisoformat now message = true.
Proof.
  intros He Hp Hn Hlt. unfold _is_expired. rewrite He, Hp.
  unfold datetime_gt. rewrite Hn. apply Z.ltb_lt, Hlt.
Qed.

Lemma is_expired_aware (now : Z) (message : AgentMessage) (s : string) (t : datetime) (off : Z) :
  expires_at message = Some s ->
  fromisoformat (replace_Z s) = Ok t ->
  utcoffset t = Some off ->
  _is_expired fromisoformat now message = false.
Proof.
  intros He Hp Ha. unfold _is_expired. rewrite He.
  destruct s as [|c s]; [reflexivity|].
  rewrite Hp. unfold datetime_gt. now rewrite Ha.
Qed.


(** An expired message: one counter moves, nothing else does. *)
Lemma send_message_expired (now : Z) (message : AgentMessage) (w : World H) :
  _is_expired fromisoformat now message = true ->
  send_message fromisoformat invoke now message w = (Ok false, with_stats bump_expired w).
Proof. intros Hx. unfold send_message, try_except. now rewrite Hx. Qed.

Lemma send_message_not_expired (now : Z) (message : AgentMessage) (w : World H) :
  _is_expired fromisoformat now message = false ->
  send_message fromisoformat invoke now message w
  = try_except (_add_to_history message ;;; deliver invoke message) on_exception w.
Proof. intros Hx. unfold send_message, try_except. now rewrite Hx. Qed.

Lemma deliver_unregistered (message : AgentMessage) (w : World H) :
  delivery_handlers (router w) !! to_agent message = None ->
  try_except (_add_to_history message ;;; deliver invoke message) on_exception w
  = (Ok false, with_stats bump_failed (with_history (append_capped message) w)).
Proof.
  intros Hn. unfold try_except, bind, _add_to_history, deliver, bind, gets, modify.
  cbn. now rewrite Hn.
Qed.

Lemma deliver_handler_raises (message : AgentMessage) (w w' : World H) (h : H) (e : exn) :
  delivery_handlers (router w) !! to_agent message = Some h ->
  invoke h message (log_call (to_agent message) message (with_history (append_capped message) w))
  = (Raise e, w') ->
  try_except (_add_to_history message ;;; deliver invoke message) on_exception w
  = (Ok false, with_stats bump_failed w').
Proof.
  intros Hs Hi. unfold try_except, bind, _add_to_history, deliver, bind, gets, modify.
  cbn. rewrite Hs. cbn. now rewrite Hi.
Qed.


(** X5.  An expiry without a UTC offset that lies before [now] is honoured:
    the message is dropped and counted as expired, no handler is called and
    the history is not written. *)
Theorem naive_expiry_is_dropped
  (now : Z) (message : AgentMessage) (c : ascii) (s : string) (t : datetime) (w : World H) :
  expires_at message = Some (String c s) ->
  fromisoformat (replace_Z (String c s)) = Ok t ->
  utcoffset t = None ->
  wall t < now ->
  send_message fromisoformat invoke now message w = (Ok false, with_stats bump_expired w)
  /\ calls (with_stats bump_expired w) = calls w
  /\ message_history (router (with_stats bump_expired w)) = message_history (router w)
  /\ expired (delivery_stats (router (with_stats bump_expired w)))
     = expired (delivery_stats (router w)) + 1.
Proof.
  intros He Hp Hn Hlt. split; [|repeat split].
  apply send_message_expired. now apply (is_expired_naive_past now message c s t).
Qed.

(** C7.  A message that is not expired and has no registered recipient
    calls no handler, counts as "failed" and yields [False]; when the
    recipient's handler raises, [send_message] still returns normally, with
    [False], and the failure is counted in the state the handler left. *)
Theorem send_message_failure_is_reported (now : Z) (message : AgentMessage) (w : World H) :
  _is_expired fromisoformat now message = false ->
  (delivery_handlers (router w) !! to_agent message = None ->
     send_message fromisoformat invoke now message w
     = (Ok false, with_stats bump_failed (with_history (append_capped message) w))
     /\ calls (snd (send_message fromisoformat invoke now message w)) = calls w
     /\ failed (delivery_stats (router (snd (send_message fromisoformat invoke now message w))))
        = failed (delivery_stats (router w)) + 1)
  /\ (forall (h : H) (e : exn) (w' : World H),
        delivery_handlers (router w) !! to_agent message = Some h ->
        invoke h message
          (log_call (to_agent message) message (with_history (append_capped message) w))
        = (Raise e, w') ->
        send_message fromisoformat invoke now message w = (Ok false, with_stats bump_failed w')
        /\ failed (delivery_stats (router (snd (send_message fromisoformat invoke now message w))))
           = failed (delivery_stats (router w')) + 1).
Proof.
  intros Hx. split.
  - intros Hn.
    rewrite (send_message_not_expired _ _ _ Hx), (deliver_unregistered _ _ Hn).
    repeat split.
  - intros h e w' Hs Hi.
    rewrite (send_message_not_expired _ _ _ Hx), (deliver_handler_raises _ _ _ _ _ Hs Hi).
    split; reflexivity.
Qed.


End Properties.

Lemma send_message_failure_is_reported_witness :
  send_message iso_parser run_sample noon (msg "nobody" None) sample_world
  = (Ok false,
     with_stats bump_failed (with_history (append_capped (msg "nobody" None)) sample_world))
  /\ send_message iso_parser run_sample noon (msg "broken" None) sample_world
     = (Ok false,
        with_stats bump_failed
          (log_call "broken" (msg "broken" None)
             (with_history (append_capped (msg "broken" None)) sample_world))).
Proof.
  split.
  - apply (send_message_failure_is_reported iso_parser run_sample noon (msg "nobody" None)
             sample_world); reflexivity.
  - eapply (proj2 (send_message_failure_is_reported iso_parser run_sample noon
                     (msg "broken" None) sample_world eq_refl) h_crash HandlerError);
      reflexivity.
Defined.


(** C6, at the failing input.  The expiry ["2020-01-01T00:00:00Z"] lies
    years before [noon]; the code itself rewrites the [Z] into [+00:00], the
    parse yields an aware [datetime], its comparison with the naive
    [datetime.now()] raises, and the bare [except] answers "not expired": the
    message is delivered to its handler and counted as delivered. *)
Theorem aware_expiry_in_the_past_is_delivered :
  let m := msg "worker" (Some "2020-01-01T00:00:00Z") in
  let r := send_message iso_parser run_sample noon m sample_world in
  _is_expired iso_parser noon m = false
  /\ fst r = Ok true
  /\ calls (snd r) = [("worker", m)]
  /\ message_history (router (snd r)) = [m]
  /\ expired (delivery_stats (router (snd r))) = 0
  /\ delivered (delivery_stats (router (snd r))) = 1.
Proof. vm_compute. repeat split. Qed.

(** The same expiry written without an offset is honoured. *)
Lemma naive_expiry_is_dropped_witness :
  send_message iso_parser run_sample noon (msg "worker" (Some "2020-01-01T00:00:00")) sample_world
  = (Ok false, with_stats bump_expired sample_world).
Proof.
  apply (naive_expiry_is_dropped iso_parser run_sample noon
           (msg "worker" (Some "2020-01-01T00:00:00")) "2"%char "020-01-01T00:00:00"
           {| wall := wall_of "2020-01-01T00:00:00"; utcoffset := None |} sample_world);
    reflexivity.
Defined.

End RouterFacts.

(** ** The agent activity monitor *)

Module MonitorFacts.

Import Monitor.

Section Properties.

Context {F : Type}.
Variable fzero : F.
Variable of_int : Z -> F.
Variable fadd fmul fdiv : F -> F -> F.
Variable clock : nat -> string.

Lemma update_agent_state_known (a : string) (st : AgentState) (x : AgentMetrics (F := F)) (w : World (F := F)) :
  agent_metrics (monitor w) !! a = Some x ->
  _update_agent_state clock a st w = (Ok tt, state_updated_known clock a st x w).
Proof.
  intros Hx. unfold _update_agent_state, state_updated_known, bind, gets, modify.
  cbn. rewrite Hx. rewrite bool_decide_true by eauto.
  unfold metrics_of, subscript, bind. cbn. rewrite Hx. cbn.
  destruct (AgentState_eqb _ st); reflexivity.
Qed.

Lemma update_agent_state_unknown (a : string) (st : AgentState) (w : World (F := F)) :
  agent_metrics (monitor w) !! a = None ->
  _update_agent_state clock a st w = (Ok tt, state_updated_unknown a st w).
Proof.
  intros Hx. unfold _update_agent_state, state_updated_unknown, bind, gets, modify.
  cbn. rewrite Hx. rewrite bool_decide_false by (intros [? ?]; discriminate).
  cbn. destruct (AgentState_eqb _ st); reflexivity.
Qed.

Lemma running_average_positive (avg pt : F) (n : Z) :
  0 < n -> running_average of_int fadd fmul fdiv avg n pt = fdiv (fadd (fmul avg (of_int (n - 1))) pt) (of_int n).
Proof. intros Hn. unfold running_average. now rewrite (proj2 (Z.ltb_lt 0 n) Hn). Qed.

Lemma running_average_zero (avg pt : F) : running_average of_int fadd fmul fdiv avg 0 pt = pt.
Proof. reflexivity. Qed.

(** C8.  For an agent with a metrics record, [log_processing_complete]
    returns normally and replaces the average processing time by
    [(prev_avg * (n - 1) + processing_time) / n], where [n] is the agent's
    sent plus received count when the call is made, and by [processing_time]
    when [n] is zero; the two counters are left as they were. *)
Theorem log_processing_complete_average
  (a task_type : string) (processing_time : F) (result_summary : list (string * string))
  (w : World (F := F)) (x : AgentMetrics (F := F)) :
  agent_metrics (monitor w) !! a = Some x ->
  let n := total_messages_sent x + total_messages_received x in
  exists (w' : World) (x' : AgentMetrics),
    log_processing_complete of_int fadd fmul fdiv clock a task_type processing_time result_summary w = (Ok tt, w')
    /\ agent_metrics (monitor w') !! a = Some x'
    /\ (0 < n ->
        average_processing_time x'
        = fdiv (fadd (fmul (average_processing_time x) (of_int (n - 1))) processing_time)
               (of_int n))
    /\ (n = 0 -> average_processing_time x' = processing_time)
    /\ total_messages_sent x' = total_messages_sent x
    /\ total_messages_received x' = total_messages_received x
    /\ current_state x' = COMPLETE.
Proof.
  intros Hx n.
  unfold log_processing_complete, bind at 1.
  rewrite (update_agent_state_known a COMPLETE x w Hx).
  unfold bind at 1, gets. cbn. rewrite lookup_insert_eq.
  rewrite bool_decide_true by eauto.
  unfold bind at 1. unfold bind at 1. unfold metrics_of, subscript. cbn.
  rewrite lookup_insert_eq. cbn.
  eexists _, _. split; [reflexivity|]. cbn.
  rewrite lookup_insert_eq. split; [reflexivity|]. cbn. fold n.
  split; [apply running_average_positive|].
  split; [intros ->; apply running_average_zero|].
  repeat split.
Qed.


End Properties.

Lemma log_processing_complete_average_witness :
  exists (w' : World) (x' : AgentMetrics),
    log_processing_complete inject_Z Qplus Qmult Qdiv sample_clock
      "worker" "run" 10%Q [] busy_world = (Ok tt, w')
    /\ agent_metrics (monitor w') !! "worker" = Some x'
    /\ average_processing_time x' = Qdiv (Qplus (Qmult 0 (inject_Z (2 - 1))) 10) (inject_Z 2).
Proof.
  destruct (log_processing_complete_average inject_Z Qplus Qmult Qdiv sample_clock
              "worker" "run" 10%Q [] busy_world _ eq_refl)
    as (w' & x' & H1 & H2 & H3 & _).
  exists w', x'. split; [exact H1|]. split; [exact H2|].
  apply H3. reflexivity.
Defined.


End MonitorFacts.

(** ** The test-execution simulator *)

Module ExecutorFacts.

Import Executor.

(** *** Failure injection: the probability of a step failure *)





(** *** Auto-healing: the order of the strategies and the first success *)







(** Healing succeeds exactly when the record says so. *)
Lemma try_strategies_success
  (orc : Oracle) (k : PatternKey) (cause : string) (strategies : list Strategy) (asked : nat) :
  (exists s : Strategy,
     s ∈ strategies /\ fst (try_strategies orc k cause strategies asked) = healed k cause s)
  \/ fst (try_strategies orc k cause strategies asked) = unhealed k cause.
Proof.
  revert asked. induction strategies as [|b strategies IH]; intros asked; cbn.
  - now right.
  - destruct (Qltb (random orc asked) (success_rate b)).
    + left. exists b. split; [constructor|reflexivity].
    + destruct (IH (S asked)) as [(s & Hin & Hs)|Hn]; [left|now right].
      exists s. split; [now constructor|exact Hs].
Qed.

(** *** The step loop *)




(** *** The invariant of an execution *)

Lemma generated_steps_length (transaction : string) :
  (6 <= length (_generate_execution_steps transaction))%nat.
Proof.
  unfold _generate_execution_steps. rewrite length_imap, !length_app. cbn. lia.
Qed.

(** What one iteration, and the whole loop, do to the attributes of the
    execution. *)
Lemma run_step_effect
  (orc : Oracle) (n i : nat) (step step' : ExecutionStep) (r r' : Run) (c : bool) :
  run_step orc n i step r = (step', r', c) ->
  current_step (run_exec r') = Z.of_nat i + 1
  /\ total_steps (run_exec r') = total_steps (run_exec r)
  /\ execution_id (run_exec r') = execution_id (run_exec r)
  /\ (if c
      then status (run_exec r') = status (run_exec r)
           /\ result (run_exec r') = result (run_exec r)
      else status (run_exec r') = FAILED /\ result (run_exec r') = Some R_FAILED).
Proof.
  unfold run_step.
  destruct (_should_step_fail _ _ _ _).
  - destruct (_attempt_auto_healing _ _ _) as [h a']. destruct (success h).
    + intros [= <- <- <-]. cbn. tauto.
    + intros [= <- <- <-]. cbn. tauto.
  - intros [= <- <- <-]. cbn. tauto.
Qed.

Lemma run_steps_effect (orc : Oracle) (n : nat) (todo : list ExecutionStep) :
  forall (i : nat) (r : Run),
    let r' := snd (run_steps orc n i todo r) in
    length (fst (run_steps orc n i todo r)) = length todo
    /\ total_steps (run_exec r') = total_steps (run_exec r)
    /\ execution_id (run_exec r') = execution_id (run_exec r)
    /\ ((status (run_exec r') = status (run_exec r)
         /\ result (run_exec r') = result (run_exec r))
        \/ (status (run_exec r') = FAILED /\ result (run_exec r') = Some R_FAILED))
    /\ (todo = [] -> current_step (run_exec r') = current_step (run_exec r))
    /\ (todo <> [] ->
        Z.of_nat i + 1 <= current_step (run_exec r') <= Z.of_nat i + Z.of_nat (length todo)).
Proof.
  induction todo as [|step rest IH]; intros i r.
  - cbn. repeat split; tauto.
  - cbn [run_steps].
    destruct (run_step orc n i step r) as [[step' r1] c] eqn:Hstep.
    destruct (run_step_effect _ _ _ _ _ _ _ _ Hstep) as (Hcur & Htot & Hid & Hc).
    destruct c.
    + specialize (IH (S i) r1).
      destruct (run_steps orc n (S i) rest r1) as [rest' r2]. cbn [fst snd] in *.
      destruct IH as (Hlen & Htot2 & Hid2 & Hst2 & Hnil & Hcons).
      destruct Hc as [Hst Hres].
      split; [cbn; lia|]. split; [congruence|]. split; [congruence|].
      split; [destruct Hst2 as [[? ?]|[? ?]]; [left; split; congruence|right; split; assumption]|].
      split; [discriminate|]. intros _.
      destruct rest as [|s rest0].
      * rewrite (Hnil eq_refl), Hcur. cbn. lia.
      * assert (Hne : s :: rest0 <> []) by discriminate.
        specialize (Hcons Hne). cbn [length] in *. lia.
    + cbn [fst snd]. destruct Hc as [Hst Hres].
      split; [reflexivity|]. split; [exact Htot|]. split; [exact Hid|].
      split; [right; split; assumption|].
      split; [discriminate|]. intros _. rewrite Hcur. cbn [length]. lia.
Qed.

(** An execution that was started comes out of [simulate] finished. *)
Lemma simulate_sound (orc : Oracle) (e : TestExecution) (asked : nat) :
  status e = RUNNING ->
  total_steps e = Z.of_nat (length (execution_steps e)) ->
  (1 <= length (execution_steps e))%nat ->
  sound (fst (simulate orc e asked))
  /\ terminal (status (fst (simulate orc e asked))) = true
  /\ execution_id (fst (simulate orc e asked)) = execution_id e.
Proof.
  intros Hrun Htot Hlen. unfold simulate.
  set (r0 := {| run_exec := e; current_time := now orc asked;
                total_duration := 0; run_asked := S asked |}).
  pose proof (run_steps_effect orc (length (execution_steps e)) (execution_steps e) 0%nat r0)
    as Heff.
  destruct (run_steps orc (length (execution_steps e)) 0 (execution_steps e) r0) as [steps r].
  cbn [fst snd] in Heff. cbv zeta in Heff.
  destruct Heff as (Hl & Ht & Hid & Hst & _ & Hcur).
  assert (Hne : execution_steps e <> [])
    by (destruct (execution_steps e); [cbn in Hlen; lia|discriminate]).
  specialize (Hcur Hne). subst r0. cbn [run_exec] in *.
  cbn [fst]. unfold sound, consistent.
  destruct Hst as [[Hs Hr]|[Hs Hr]]; rewrite Hs; [rewrite Hrun|]; cbn;
    rewrite ?Hs, ?Hr, Hl; cbn;
    (repeat split; try lia; try congruence; try discriminate).
Qed.

(** Every request keeps all executions sound. *)

Lemma sound_lookup (w : World) (l : nat) (e : TestExecution) :
  all_sound w -> objects w !! l = Some e -> sound e.
Proof. intros Hw He. exact (Forall_lookup_1 _ _ _ _ Hw He). Qed.

Lemma start_execution_sound (orc : Oracle) (k : World -> World) (l : nat) (w : World) :
  (forall w', all_sound w' -> all_sound (k w')) ->
  all_sound w ->
  all_sound (_start_execution orc k l w).
Proof.
  intros Hk Hw. unfold _start_execution.
  destruct (objects w !! l) as [e|] eqn:He; [|exact Hw].
  unfold _simulate_sap_execution. cbn [objects set_objects asked].
  rewrite list_lookup_insert_eq by (eapply lookup_lt_Some; eassumption).
  destruct (sound_lookup w l e Hw He) as (_ & Htot & Hlen).
  destruct (simulate_sound orc (set_current_step 1 (set_status RUNNING e)) (asked w)
              eq_refl Htot Hlen) as (Hsound & _ & _).
  destruct (simulate orc (set_current_step 1 (set_status RUNNING e)) (asked w)) as [e' a].
  apply Hk. unfold all_sound. cbn.
  rewrite list_insert_insert_eq. apply Forall_insert; assumption.
Qed.

Lemma process_queue_loop_sound (orc : Oracle) (fuel : nat) :
  forall w : World, all_sound w -> all_sound (process_queue_loop orc fuel w).
Proof.
  induction fuel as [|fuel IH]; intros w Hw; cbn [process_queue_loop]; [exact Hw|].
  destruct (execution_queue w) as [|id rest]; [exact Hw|].
  destruct (has_capacity w); [|exact Hw].
  destruct (find_in_history id (set_queue rest w)) as [l|].
  - apply IH. apply start_execution_sound; [exact IH|exact Hw].
  - apply IH. exact Hw.
Qed.

Lemma process_execution_queue_sound (orc : Oracle) (w : World) :
  all_sound w -> all_sound (_process_execution_queue orc w).
Proof. apply process_queue_loop_sound. Qed.

Lemma create_test_execution_sound (orc : Oracle) (test_case : gmap string string) (w : World) :
  all_sound w -> all_sound (snd (_create_test_execution orc test_case w)).
Proof.
  intros Hw. unfold all_sound, _create_test_execution. cbn.
  apply Forall_app_2; [exact Hw|]. constructor; [|constructor].
  pose proof (generated_steps_length
                (default (default "ME21N" (test_case !! "transaction"))
                   (test_case !! "transaction_code"))) as Hlen.
  unfold sound, consistent. cbn. repeat split; try lia; try discriminate.
Qed.

Lemma submit_sound (orc : Oracle) (l : nat) (w : World) :
  all_sound w ->
  all_sound (if has_capacity w
             then _start_execution orc (_process_execution_queue orc) l w
             else set_queue (execution_queue w ++ [id_of l w]) w).
Proof.
  intros Hw. destruct (has_capacity w); [|exact Hw].
  apply start_execution_sound; [apply process_execution_queue_sound|exact Hw].
Qed.

Lemma execute_single_test_sound (orc : Oracle) (test_case : gmap string string) (w : World) :
  all_sound w -> all_sound (snd (execute_single_test orc test_case w)).
Proof.
  intros Hw. unfold execute_single_test.
  destruct (bool_decide (test_case = ∅)); [exact Hw|].
  pose proof (create_test_execution_sound orc test_case w Hw) as Hc.
  destruct (_create_test_execution orc test_case w) as [l w1]. cbn [snd] in Hc.
  pose proof (submit_sound orc l w1 Hc) as Hs.
  destruct (has_capacity w1); exact Hs.
Qed.

Lemma submit_all_sound (orc : Oracle) (test_cases : list (gmap string string)) :
  forall w : World, all_sound w -> all_sound (snd (submit_all orc test_cases w)).
Proof.
  induction test_cases as [|test_case rest IH]; intros w Hw; cbn [submit_all]; [exact Hw|].
  pose proof (create_test_execution_sound orc test_case w Hw) as Hc.
  destruct (_create_test_execution orc test_case w) as [l w1]. cbn [snd] in Hc.
  pose proof (submit_sound orc l w1 Hc) as Hs.
  specialize (IH _ Hs).
  destruct (submit_all orc rest _) as [ls w2]. exact IH.
Qed.

Lemma execute_test_suite_sound (orc : Oracle) (test_cases : list (gmap string string)) (w : World) :
  all_sound w -> all_sound (snd (execute_test_suite orc test_cases w)).
Proof.
  intros Hw. unfold execute_test_suite.
  destruct test_cases as [|test_case rest]; [exact Hw|].
  pose proof (submit_all_sound orc (test_case :: rest) (set_asked (S (asked w)) w) Hw) as Hs.
  destruct (submit_all orc (test_case :: rest) _) as [ls w1]. exact Hs.
Qed.

Lemma cancel_execution_sound (orc : Oracle) (id : string) (w : World) :
  all_sound w -> all_sound (snd (cancel_execution orc id w)).
Proof.
  intros Hw. unfold cancel_execution.
  destruct (bool_decide (id ∈ execution_queue w)); [exact Hw|].
  destruct (active_executions w !! id) as [l|]; [|exact Hw].
  destruct (objects w !! l) as [e|] eqn:He; [|exact Hw].
  unfold all_sound. cbn. apply Forall_insert; [exact Hw|].
  destruct (sound_lookup w l e Hw He) as ((Hcur & _ & _) & Htot & Hlen).
  unfold sound, consistent. cbn. repeat split; try lia; try discriminate; assumption.
Qed.

Lemma handle_sound (orc : Oracle) (rq : Request) (w : World) :
  all_sound w -> all_sound (handle orc rq w).
Proof.
  destruct rq; cbn [handle].
  - apply execute_single_test_sound.
  - apply execute_test_suite_sound.
  - apply cancel_execution_sound.
  - intros Hw. exact Hw.
Qed.

Lemma run_sound (orc : Oracle) (requests : list Request) :
  forall w : World, all_sound w -> all_sound (run orc requests w).
Proof.
  induction requests as [|rq requests IH]; intros w Hw; [exact Hw|].
  apply IH, handle_sound, Hw.
Qed.

(** C4.  After any sequence of requests, and whatever the clock and the
    random source return, every execution the agent ever created has its
    current step between 0 and [total_steps], a result exactly when its status
    is terminal, and an end time exactly when its status is terminal. *)
Theorem execution_invariant
  (orc : Oracle) (capacity : Z) (requests : list Request) (l : nat) (e : TestExecution) :
  objects (run orc requests (new_agent capacity)) !! l = Some e ->
  0 <= current_step e <= total_steps e
  /\ (result e = None <-> status e = QUEUED \/ status e = RUNNING)
  /\ (is_Some (result e) <-> status e = COMPLETED \/ status e = FAILED \/ status e = CANCELLED)
  /\ (is_Some (end_time e) <-> status e = COMPLETED \/ status e = FAILED \/ status e = CANCELLED).
Proof.
  intros He.
  assert (Hinit : all_sound (new_agent capacity)) by constructor.
  destruct (sound_lookup _ l e (run_sound orc requests _ Hinit) He)
    as ((Hcur & Hres & Hend) & _).
  split; [exact Hcur|].
  destruct (status e), (result e), (end_time e); cbn in Hres, Hend;
    repeat split; intros; try tauto; try discriminate; try (eexists; reflexivity);
    try (exfalso; intuition discriminate);
    try (exfalso; eapply is_Some_None; eassumption).
Qed.

(** *** The wait queue *)

(** The fuel of [process_queue_loop] is enough: the loop and the executions
    it starts never lengthen the queue, and with at least as much fuel as the
    queue is long the result does not depend on the fuel. *)
Lemma start_execution_queue_le (orc : Oracle) (k : World -> World) (l : nat) (w : World) :
  (forall w', (length (execution_queue (k w')) <= length (execution_queue w'))%nat) ->
  (length (execution_queue (_start_execution orc k l w)) <= length (execution_queue w))%nat.
Proof.
  intros Hk. unfold _start_execution.
  destruct (objects w !! l) as [e|]; [|reflexivity].
  unfold _simulate_sap_execution.
  destruct (objects (set_objects _ w) !! l) as [e1|]; [|reflexivity].
  destruct (simulate orc e1 _) as [e' a]. etransitivity; [apply Hk|]. reflexivity.
Qed.

Lemma process_queue_loop_queue_le (orc : Oracle) (fuel : nat) :
  forall w : World,
    (length (execution_queue (process_queue_loop orc fuel w)) <= length (execution_queue w))%nat.
Proof.
  induction fuel as [|fuel IH]; intros w; cbn [process_queue_loop]; [reflexivity|].
  destruct (execution_queue w) as [|id rest] eqn:Hq; [now rewrite Hq|].
  destruct (has_capacity w); [|now rewrite Hq].
  destruct (find_in_history id (set_queue rest w)) as [l|].
  - etransitivity; [apply IH|].
    etransitivity; [apply start_execution_queue_le, IH|]. cbn. lia.
  - etransitivity; [apply IH|]. cbn. lia.
Qed.

Lemma start_execution_ext (orc : Oracle) (k1 k2 : World -> World) (l : nat) (w : World) :
  (forall w', execution_queue w' = execution_queue w -> k1 w' = k2 w') ->
  _start_execution orc k1 l w = _start_execution orc k2 l w.
Proof.
  intros Hk. unfold _start_execution.
  destruct (objects w !! l) as [e|]; [|reflexivity].
  unfold _simulate_sap_execution.
  destruct (objects (set_objects _ w) !! l) as [e1|]; [|reflexivity].
  destruct (simulate orc e1 _) as [e' a]. now apply Hk.
Qed.

Lemma process_queue_loop_fuel (orc : Oracle) (f1 : nat) :
  forall (f2 : nat) (w : World),
    (length (execution_queue w) <= f1)%nat ->
    (length (execution_queue w) <= f2)%nat ->
    process_queue_loop orc f1 w = process_queue_loop orc f2 w.
Proof.
  induction f1 as [|f1 IH]; intros f2 w H1 H2.
  - destruct (execution_queue w) as [|id rest] eqn:Hq; [|cbn in H1; lia].
    destruct f2; cbn [process_queue_loop]; [reflexivity|now rewrite Hq].
  - destruct f2 as [|f2].
    + destruct (execution_queue w) as [|id rest] eqn:Hq; [|cbn in H2; lia].
      cbn [process_queue_loop]. now rewrite Hq.
    + cbn [process_queue_loop].
      destruct (execution_queue w) as [|id rest] eqn:Hq; [reflexivity|].
      cbn [length] in H1, H2.
      destruct (has_capacity w); [|reflexivity].
      destruct (find_in_history id (set_queue rest w)) as [l|].
      * assert (Hstart : _start_execution orc (process_queue_loop orc f1) l
                           (set_active (fun act => <[id := l]> act) (set_queue rest w))
                         = _start_execution orc (process_queue_loop orc f2) l
                             (set_active (fun act => <[id := l]> act) (set_queue rest w))).
        { apply start_execution_ext. intros w' Hw'. cbn in Hw'.
          apply IH; rewrite Hw'; lia. }
        rewrite Hstart.
        pose proof (start_execution_queue_le orc (process_queue_loop orc f2) l
                      (set_active (fun act => <[id := l]> act) (set_queue rest w))
                      (process_queue_loop_queue_le orc f2)) as Hle.
        cbn in Hle. apply IH; lia.
      * apply IH; cbn; lia.
Qed.

(** When the loop returns, its condition is false: the fuel did not run
    out on it. *)
Lemma process_queue_loop_done (orc : Oracle) (fuel : nat) :
  forall w : World,
    (length (execution_queue w) <= fuel)%nat ->
    execution_queue (process_queue_loop orc fuel w) = []
    \/ has_capacity (process_queue_loop orc fuel w) = false.
Proof.
  induction fuel as [|fuel IH]; intros w Hlen; cbn [process_queue_loop].
  - left. destruct (execution_queue w); [reflexivity|cbn in Hlen; lia].
  - destruct (execution_queue w) as [|id rest] eqn:Hq; [now left|].
    destruct (has_capacity w) eqn:Hcap; [|now right].
    cbn [length] in Hlen.
    destruct (find_in_history id (set_queue rest w)) as [l|].
    + apply IH.
      pose proof (start_execution_queue_le orc (process_queue_loop orc fuel) l
                    (set_active (fun act => <[id := l]> act) (set_queue rest w))
                    (process_queue_loop_queue_le orc fuel)) as Hle.
      cbn in Hle. lia.
    + apply IH. cbn. lia.
Qed.

(** [_process_execution_queue] is its loop run to the end. *)
Lemma process_execution_queue_total (orc : Oracle) (fuel : nat) (w : World) :
  (length (execution_queue w) <= fuel)%nat ->
  process_queue_loop orc fuel w = _process_execution_queue orc w.
Proof. intros Hf. now apply process_queue_loop_fuel. Qed.


(** A queued execution lives in [active_executions], never in the history,
    and the history is where [_process_execution_queue] looks: when no id of
    the queue is the id of an execution of the history, the queue is emptied,
    if there is capacity, and nothing is started. *)
Lemma process_queue_loop_discards (orc : Oracle) (fuel : nat) :
  forall w : World,
    (length (execution_queue w) <= fuel)%nat ->
    (forall id : string, id ∈ execution_queue w -> find_in_history id w = None) ->
    process_queue_loop orc fuel w = if has_capacity w then set_queue [] w else w.
Proof.
  induction fuel as [|fuel IH]; intros w Hlen Hnone; cbn [process_queue_loop].
  - destruct w as [act q h c os a]. cbn in *.
    destruct q; [|cbn in Hlen; lia]. now destruct (has_capacity _).
  - destruct (execution_queue w) as [|id rest] eqn:Hq.
    + destruct w as [act q h c os a]. cbn in *. subst q. now destruct (has_capacity _).
    + destruct (has_capacity w) eqn:Hcap; [|reflexivity].
      assert (Hfind : find_in_history id (set_queue rest w) = None)
        by (apply (Hnone id); constructor).
      rewrite Hfind. rewrite IH.
      * unfold has_capacity in *. cbn. now rewrite Hcap.
      * cbn. cbn in Hlen. lia.
      * intros id' Hin. apply (Hnone id'). now constructor.
Qed.

Lemma process_execution_queue_discards (orc : Oracle) (w : World) :
  (forall id : string, id ∈ execution_queue w -> find_in_history id w = None) ->
  _process_execution_queue orc w = if has_capacity w then set_queue [] w else w.
Proof. intros Hnone. now apply process_queue_loop_discards. Qed.

(** Cancelling an id of the queue takes its first occurrence out of the
    queue and does nothing else: the execution stays in
    [active_executions], with the status it had. *)
Lemma cancel_execution_queued (orc : Oracle) (id : string) (w : World) :
  id ∈ execution_queue w ->
  cancel_execution orc id w
  = (Succeeded ("Execution " +:+ id +:+ " removed from queue"),
     set_queue (remove_first id (execution_queue w)) w).
Proof. intros Hin. unfold cancel_execution. now rewrite bool_decide_true. Qed.

Lemma remove_first_not_elem (x : string) (l : list string) :
  NoDup l -> x ∉ remove_first x l.
Proof.
  induction 1 as [|y l Hy Hnd IH]; cbn; [apply not_elem_of_nil|].
  destruct (String.eqb_spec y x) as [->|Hne]; [exact Hy|].
  rewrite not_elem_of_cons. split; [congruence|exact IH].
Qed.

(** Cancelling an active execution that is not in the queue does not look
    at the queue. *)
Lemma cancel_execution_keeps_queue (orc : Oracle) (id : string) (w : World) :
  id ∉ execution_queue w ->
  execution_queue (snd (cancel_execution orc id w)) = execution_queue w.
Proof.
  intros Hin. unfold cancel_execution. rewrite bool_decide_false by exact Hin.
  destruct (active_executions w !! id) as [l|]; [|reflexivity].
  now destruct (objects w !! l).
Qed.

(** C1, at the failing input.  With the capacity set to 1 a submission is
    queued; the capacity is raised to 3 and a second test is submitted, runs
    and terminates while the queue holds the first.  The head of the queue is
    taken off, but the execution it names is looked for in the history, where
    a queued execution never is: it is not started, it stays [QUEUED] with
    all its steps pending, and the queue is empty. *)
Theorem queued_execution_is_never_promoted :
  let w1 := run calm [Configure 1; ExecuteSingleTest (test_case_for "ME21N")] (new_agent 3) in
  let w2 := run calm [Configure 3; ExecuteSingleTest (test_case_for "MIGO")] w1 in
  execution_queue w1 = ["exec_0"]
  /\ status <$> get_execution_status "exec_0" w1 = Some QUEUED
  /\ status <$> get_execution_status "exec_3" w2 = Some COMPLETED
  /\ execution_history w2 = [1%nat]
  /\ has_capacity w2 = true
  /\ execution_queue w2 = []
  /\ status <$> get_execution_status "exec_0" w2 = Some QUEUED
  /\ (fun e => step_status <$> execution_steps e) <$> get_execution_status "exec_0" w2
     = Some (replicate 11 "pending")
  /\ active_executions w2 !! "exec_0" = Some 0%nat.
Proof. vm_compute. repeat split. Qed.

(** C2, at the failing input.  A queued execution is cancelled: its id
    leaves the queue and the reply reports success, but the execution is not
    touched; it stays in [active_executions] and its reported status is still
    "queued". *)
Theorem cancelled_queued_execution_reports_queued :
  let w1 := run calm [Configure 1; ExecuteSingleTest (test_case_for "ME21N")] (new_agent 3) in
  let w2 := snd (cancel_execution calm "exec_0" w1) in
  execution_queue w1 = ["exec_0"]
  /\ fst (cancel_execution calm "exec_0" w1) = Succeeded "Execution exec_0 removed from queue"
  /\ execution_queue w2 = []
  /\ objects w2 = objects w1
  /\ active_executions w2 !! "exec_0" = Some 0%nat
  /\ status <$> get_execution_status "exec_0" w2 = Some QUEUED
  /\ result <$> get_execution_status "exec_0" w2 = Some None.
Proof. vm_compute. repeat split. Qed.

Lemma execution_invariant_witness :
  match objects (run doomed [ExecuteSingleTest (test_case_for "VA01");
                             ExecuteSingleTest (test_case_for "ZZ99")] (new_agent 3)) !! 0%nat with
  | Some e =>
      status e = FAILED
      /\ 0 <= current_step e <= total_steps e
      /\ (result e = None <-> status e = QUEUED \/ status e = RUNNING)
      /\ (is_Some (result e)
          <-> status e = COMPLETED \/ status e = FAILED \/ status e = CANCELLED)
      /\ (is_Some (end_time e)
          <-> status e = COMPLETED \/ status e = FAILED \/ status e = CANCELLED)
  | None => False
  end.
Proof.
  destruct (objects (run doomed [ExecuteSingleTest (test_case_for "VA01");
                                 ExecuteSingleTest (test_case_for "ZZ99")] (new_agent 3))
            !! 0%nat) as [e|] eqn:He.
  - split.
    + vm_compute in He. injection He as <-. reflexivity.
    + exact (execution_invariant doomed 3 _ 0%nat e He).
  - vm_compute in He. discriminate He.
Defined.

Lemma unhealed_failure_ends_the_run :
  let w := run doomed [ExecuteSingleTest (test_case_for "VA01")] (new_agent 3) in
  (fun e => (status e, result e, current_step e, auto_healing e,
             step_status <$> execution_steps e)) <$> (objects w !! 0%nat)
  = Some (FAILED, Some R_FAILED, 1, None, "failed" :: replicate 10 "pending").
Proof. vm_compute. reflexivity. Qed.

Lemma healed_failure_goes_on :
  let w := run shaky [ExecuteSingleTest (test_case_for "VA01")] (new_agent 3) in
  (fun e => (status e, result e, current_step e, action <$> auto_healing e,
             step_status <$> execution_steps e,
             head (execution_steps e) ≫= details)) <$> (objects w !! 0%nat)
  = Some (COMPLETED, Some R_PASSED, 11, Some "switch_to_backup_server",
          replicate 11 "passed",
          Some "Network connection timeout | Auto-healed: switch_to_backup_server").
Proof. vm_compute. reflexivity. Qed.


(** *** How the wait queue is used *)

(** One submission, when nothing is active and there is room for two: the
    new execution is started at once and has finished when the request
    returns. *)
Lemma submit_settled (orc : Oracle) (test_case : gmap string string) (w : World) :
  2 <= max_concurrent_executions w ->
  settled w ->
  has_capacity (snd (_create_test_execution orc test_case w)) = true
  /\ settled (_start_execution orc (_process_execution_queue orc)
                (fst (_create_test_execution orc test_case w))
                (snd (_create_test_execution orc test_case w)))
  /\ max_concurrent_executions
       (_start_execution orc (_process_execution_queue orc)
          (fst (_create_test_execution orc test_case w))
          (snd (_create_test_execution orc test_case w)))
     = max_concurrent_executions w.
Proof.
  intros Hcap (Hact & Hq & Hterm).
  destruct w as [act q h c os a]. cbn in Hcap, Hact, Hq, Hterm. subst act q.
  unfold _create_test_execution. cbn [fst snd asked objects].
  set (transaction := default (default "ME21N" (test_case !! "transaction"))
                        (test_case !! "transaction_code")).
  set (e := {| execution_id := ident orc a; test_case_id := _; test_name := _;
               transaction := transaction; status := QUEUED; result := None;
               start_time := _; end_time := None; duration_seconds := None;
               current_step := 0; total_steps := _; execution_steps := _;
               auto_healing := None |}).
  split.
  - unfold has_capacity. cbn. rewrite insert_empty, map_size_singleton. apply Z.ltb_lt. lia.
  - unfold _start_execution. cbn [objects set_objects set_active set_asked].
    rewrite list_lookup_middle by reflexivity.
    unfold _simulate_sap_execution. cbn [objects set_objects asked].
    rewrite list_lookup_insert_eq by (rewrite length_app; cbn; lia).
    cbn [asked set_objects set_active set_asked].
    pose proof (generated_steps_length transaction) as Hlen.
    destruct (simulate_sound orc (set_current_step 1 (set_status RUNNING e)) (a + 3)%nat
                eq_refl eq_refl ltac:(cbn; lia)) as (_ & Hte & Hid).
    destruct (simulate orc (set_current_step 1 (set_status RUNNING e)) (a + 3)%nat)
      as [e' a'].
    cbn [fst] in Hte, Hid. cbn in Hid.
    unfold _process_execution_queue.
    cbn [execution_queue set_active set_history set_objects set_asked length process_queue_loop].
    unfold settled.
    cbn [active_executions execution_queue objects max_concurrent_executions
         set_active set_history set_objects set_asked].
    rewrite Hid, delete_insert_eq, delete_empty.
    split; [|reflexivity].
    split; [reflexivity|]. split; [reflexivity|].
    rewrite list_insert_insert_eq.
    rewrite insert_app_r_alt by lia. rewrite Nat.sub_diag. cbn [insert].
    apply Forall_app_2; [exact Hterm|]. repeat constructor. exact Hte.
Qed.

Lemma submit_all_settled (orc : Oracle) (test_cases : list (gmap string string)) :
  forall w : World,
    2 <= max_concurrent_executions w ->
    settled w ->
    settled (snd (submit_all orc test_cases w))
    /\ max_concurrent_executions (snd (submit_all orc test_cases w))
       = max_concurrent_executions w.
Proof.
  induction test_cases as [|test_case rest IH]; intros w Hcap Hw; cbn [submit_all].
  - split; [exact Hw|reflexivity].
  - destruct (submit_settled orc test_case w Hcap Hw) as (Hroom & Hs & Hc).
    destruct (_create_test_execution orc test_case w) as [l w1]. cbn [fst snd] in *.
    rewrite Hroom.
    destruct (IH _ ltac:(rewrite Hc; exact Hcap) Hs) as [Hs' Hc'].
    destruct (submit_all orc rest _) as [ls w2]. cbn [snd] in *.
    split; [exact Hs'|congruence].
Qed.

Lemma handle_settled (orc : Oracle) (rq : Request) (w : World) :
  keeps_room rq ->
  2 <= max_concurrent_executions w ->
  settled w ->
  settled (handle orc rq w) /\ 2 <= max_concurrent_executions (handle orc rq w).
Proof.
  intros Hrq Hcap Hw. destruct rq as [test_case|test_cases|id|capacity]; cbn [handle].
  - unfold execute_single_test.
    destruct (bool_decide (test_case = ∅)); [now split|].
    destruct (submit_settled orc test_case w Hcap Hw) as (Hroom & Hs & Hc).
    destruct (_create_test_execution orc test_case w) as [l w1]. cbn [fst snd] in *.
    rewrite Hroom. cbn [snd]. split; [exact Hs|now rewrite Hc].
  - unfold execute_test_suite.
    destruct test_cases as [|test_case rest]; [now split|].
    destruct (submit_all_settled orc (test_case :: rest) (set_asked (S (asked w)) w) Hcap)
      as [Hs Hc].
    { destruct Hw as (? & ? & ?). now repeat split. }
    destruct (submit_all orc (test_case :: rest) _) as [ls w1]. cbn [snd] in *.
    split; [exact Hs|]. rewrite Hc. exact Hcap.
  - destruct Hw as (Hact & Hq & Hterm). unfold cancel_execution.
    rewrite Hq, bool_decide_false by apply not_elem_of_nil.
    rewrite Hact, lookup_empty. cbn [snd]. split; [now repeat split|exact Hcap].
  - split; [|exact Hrq]. destruct Hw as (? & ? & ?). now repeat split.
Qed.

(** X1.  With room for two or more executions, as with the default of three,
    every test runs to its end within the request that submits it: between
    requests nothing is active, nothing waits, and every execution has a
    terminal status. *)
Theorem wait_queue_is_never_used (orc : Oracle) (capacity : Z) (requests : list Request) :
  2 <= capacity ->
  Forall keeps_room requests ->
  let w := run orc requests (new_agent capacity) in
  execution_queue w = []
  /\ active_executions w = ∅
  /\ Forall (fun e => terminal (status e) = true) (objects w).
Proof.
  intros Hcap Hrqs.
  assert (Hgen : forall w, 2 <= max_concurrent_executions w -> settled w ->
                           settled (run orc requests w)).
  { induction Hrqs as [|rq requests Hrq Hrqs IH]; intros w Hc Hw; [exact Hw|].
    destruct (handle_settled orc rq w Hrq Hc Hw) as [Hs Hc'].
    now apply IH. }
  destruct (Hgen (new_agent capacity) Hcap) as (Hact & Hq & Hterm).
  { repeat split. constructor. }
  cbv zeta. now repeat split.
Qed.

Lemma generated_steps_pending (transaction : string) :
  Forall (fun s => step_status s = "pending") (_generate_execution_steps transaction).
Proof.
  unfold _generate_execution_steps. apply Forall_forall. intros s Hs.
  apply elem_of_lookup_imap in Hs as (i & text & -> & _). reflexivity.
Qed.

(** One submission, when there is room for one at most: the new execution
    fills the room itself, so the capacity test fails and it is queued. *)
Lemma submit_shut (orc : Oracle) (test_case : gmap string string) (w : World) :
  max_concurrent_executions w <= 1 ->
  Forall never_ran (objects w) ->
  has_capacity (snd (_create_test_execution orc test_case w)) = false
  /\ Forall never_ran (objects (snd (_create_test_execution orc test_case w)))
  /\ max_concurrent_executions (snd (_create_test_execution orc test_case w))
     = max_concurrent_executions w.
Proof.
  intros Hcap Hw. unfold _create_test_execution. cbn [snd]. split; [|split].
  - unfold has_capacity. cbn [active_executions set_active set_objects set_asked
                              max_concurrent_executions].
    apply Z.ltb_ge.
    assert (size (<[ident orc (asked w) := length (objects w)]> (active_executions w)) <> 0%nat).
    { apply map_size_ne_0_lookup. exists (ident orc (asked w)).
      rewrite lookup_insert_eq. eauto. }
    lia.
  - cbn. apply Forall_app_2; [exact Hw|]. constructor; [|constructor].
    split; [now left|]. cbn. apply generated_steps_pending.
  - reflexivity.
Qed.

Lemma submit_all_shut (orc : Oracle) (test_cases : list (gmap string string)) :
  forall w : World,
    max_concurrent_executions w <= 1 ->
    Forall never_ran (objects w) ->
    Forall never_ran (objects (snd (submit_all orc test_cases w)))
    /\ max_concurrent_executions (snd (submit_all orc test_cases w))
       = max_concurrent_executions w.
Proof.
  induction test_cases as [|test_case rest IH]; intros w Hcap Hw; cbn [submit_all].
  - split; [exact Hw|reflexivity].
  - destruct (submit_shut orc test_case w Hcap Hw) as (Hroom & Hs & Hc).
    destruct (_create_test_execution orc test_case w) as [l w1]. cbn [fst snd] in *.
    rewrite Hroom.
    destruct (IH (set_queue (execution_queue w1 ++ [id_of l w1]) w1)
                ltac:(cbn; rewrite Hc; exact Hcap) Hs) as [Hs' Hc'].
    destruct (submit_all orc rest _) as [ls w2]. cbn [snd] in *.
    split; [exact Hs'|]. rewrite Hc'. exact Hc.
Qed.

Lemma handle_shut (orc : Oracle) (rq : Request) (w : World) :
  keeps_shut rq ->
  max_concurrent_executions w <= 1 ->
  Forall never_ran (objects w) ->
  Forall never_ran (objects (handle orc rq w))
  /\ max_concurrent_executions (handle orc rq w) <= 1.
Proof.
  intros Hrq Hcap Hw. destruct rq as [test_case|test_cases|id|capacity]; cbn [handle].
  - unfold execute_single_test.
    destruct (bool_decide (test_case = ∅)); [now split|].
    destruct (submit_shut orc test_case w Hcap Hw) as (Hroom & Hs & Hc).
    destruct (_create_test_execution orc test_case w) as [l w1]. cbn [fst snd] in *.
    rewrite Hroom. cbn. split; [exact Hs|now rewrite Hc].
  - unfold execute_test_suite.
    destruct test_cases as [|test_case rest]; [now split|].
    destruct (submit_all_shut orc (test_case :: rest) (set_asked (S (asked w)) w) Hcap Hw)
      as [Hs Hc].
    destruct (submit_all orc (test_case :: rest) _) as [ls w1]. cbn [snd] in *.
    split; [exact Hs|]. rewrite Hc. exact Hcap.
  - unfold cancel_execution.
    destruct (bool_decide (id ∈ execution_queue w)); [now split|].
    destruct (active_executions w !! id) as [l|]; [|now split].
    destruct (objects w !! l) as [e|] eqn:He; [|now split].
    cbn. split; [|exact Hcap].
    apply Forall_insert; [exact Hw|].
    destruct (Forall_lookup_1 _ _ _ _ Hw He) as [_ Hsteps].
    split; [now right|exact Hsteps].
  - split; [exact Hw|exact Hrq].
Qed.

(** X2.  With room for at most one execution every test is queued, because the
    new execution is counted against the capacity, and none is ever run. *)
Theorem nothing_runs_below_capacity_two
  (orc : Oracle) (capacity : Z) (requests : list Request) :
  capacity <= 1 ->
  Forall keeps_shut requests ->
  Forall never_ran (objects (run orc requests (new_agent capacity))).
Proof.
  intros Hcap Hrqs.
  assert (Hgen : forall w, max_concurrent_executions w <= 1 -> Forall never_ran (objects w) ->
                           Forall never_ran (objects (run orc requests w))).
  { induction Hrqs as [|rq requests Hrq Hrqs IH]; intros w Hc Hw; [exact Hw|].
    destruct (handle_shut orc rq w Hrq Hc Hw) as [Hs Hc'].
    now apply IH. }
  apply Hgen; [exact Hcap|constructor].
Qed.

(** *** No execution is ever promoted *)

Lemma left_alone_refl (w : World) : left_alone w w.
Proof. intros l e He. exists e. auto. Qed.

Lemma left_alone_trans (w1 w2 w3 : World) :
  left_alone w1 w2 -> left_alone w2 w3 -> left_alone w1 w3.
Proof.
  intros H12 H23 l e He.
  destruct (H12 l e He) as (e2 & He2 & Hs2 & Hst2).
  destruct (H23 l e2 He2) as (e3 & He3 & Hs3 & Hst3).
  exists e3. split; [exact He3|]. split; [congruence|].
  destruct Hst3 as [Hst3|Hst3]; [|now right].
  destruct Hst2 as [Hst2|Hst2]; [left|right]; congruence.
Qed.

Lemma left_alone_same_objects (w w' : World) : objects w' = objects w -> left_alone w w'.
Proof. intros Ho l e He. exists e. rewrite Ho. auto. Qed.

(** In a tidy state the lookup of [_process_execution_queue] fails for
    every id of the queue. *)
Lemma tidy_find_none (orc : Oracle) (w : World) (id : string) :
  tidy orc w -> id ∈ execution_queue w -> find_in_history id w = None.
Proof.
  intros Hw Hin. unfold find_in_history.
  destruct (List.find _ (execution_history w)) as [l|] eqn:Hfind; [|reflexivity].
  apply List.find_some in Hfind as [Hl Hp].
  destruct (objects w !! l) as [e|] eqn:He; [|discriminate].
  apply String.eqb_eq in Hp. apply list_elem_of_In in Hl.
  exfalso. exact (queue_apart orc w Hw id l e Hin Hl He Hp).
Qed.

Lemma tidy_process_queue (orc : Oracle) (w : World) :
  tidy orc w ->
  tidy orc (_process_execution_queue orc w)
  /\ objects (_process_execution_queue orc w) = objects w.
Proof.
  intros Hw.
  rewrite process_execution_queue_discards by (intros id Hin; apply (tidy_find_none orc); assumption).
  destruct (has_capacity w); [|now split]. split; [|reflexivity].
  destruct Hw as [H1 H2 H3 H4 H5].
  constructor; cbn; try assumption.
  - intros id Hin. now apply not_elem_of_nil in Hin.
  - intros id l e Hin. now apply not_elem_of_nil in Hin.
Qed.

(** The oracle is only ever asked further questions. *)
Lemma try_strategies_asked
  (orc : Oracle) (k : PatternKey) (cause : string) (strategies : list Strategy) :
  forall asked : nat, (asked <= snd (try_strategies orc k cause strategies asked))%nat.
Proof.
  induction strategies as [|s rest IH]; intros asked; cbn; [lia|].
  destruct (Qltb _ _); cbn; [lia|]. specialize (IH (S asked)). lia.
Qed.

Lemma run_step_asked
  (orc : Oracle) (n i : nat) (step : ExecutionStep) (r : Run) :
  (run_asked r <= run_asked (snd (fst (run_step orc n i step r))))%nat.
Proof.
  unfold run_step.
  destruct (_should_step_fail _ _ _ _).
  - unfold _attempt_auto_healing.
    pose proof (try_strategies_asked orc
                  (err_pattern (_generate_step_error (random orc (run_asked r + 2))
                     (transaction (set_current_step (Z.of_nat i + 1) (run_exec r)))
                     (started_step (current_time r) step)))
                  (err_details (_generate_step_error (random orc (run_asked r + 2))
                     (transaction (set_current_step (Z.of_nat i + 1) (run_exec r)))
                     (started_step (current_time r) step)))
                  (sorted_strategies (healing_strategies (error_patterns
                     (err_pattern (_generate_step_error (random orc (run_asked r + 2))
                        (transaction (set_current_step (Z.of_nat i + 1) (run_exec r)))
                        (started_step (current_time r) step))))))
                  (run_asked r + 3)%nat) as Hle.
    destruct (try_strategies _ _ _ _ _) as [h a']. cbn [snd] in Hle.
    destruct (success h); cbn; lia.
  - cbn. lia.
Qed.

Lemma run_steps_asked (orc : Oracle) (n : nat) (todo : list ExecutionStep) :
  forall (i : nat) (r : Run), (run_asked r <= run_asked (snd (run_steps orc n i todo r)))%nat.
Proof.
  induction todo as [|step rest IH]; intros i r; cbn [run_steps]; [cbn; lia|].
  pose proof (run_step_asked orc n i step r) as Hstep.
  destruct (run_step orc n i step r) as [[step' r1] c]. cbn [fst snd] in Hstep.
  destruct c.
  - specialize (IH (S i) r1). destruct (run_steps orc n (S i) rest r1) as [rest' r2].
    cbn [snd] in *. lia.
  - cbn. exact Hstep.
Qed.

Lemma simulate_asked (orc : Oracle) (e : TestExecution) (asked : nat) :
  (asked < snd (simulate orc e asked))%nat.
Proof.
  unfold simulate.
  pose proof (run_steps_asked orc (length (execution_steps e)) (execution_steps e) 0%nat
                {| run_exec := e; current_time := now orc asked;
                   total_duration := 0; run_asked := S asked |}) as Hle.
  destruct (run_steps _ _ _ _ _) as [steps r]. cbn in *. lia.
Qed.

Lemma simulate_execution_id (orc : Oracle) (e : TestExecution) (asked : nat) :
  execution_id (fst (simulate orc e asked)) = execution_id e.
Proof.
  unfold simulate.
  pose proof (run_steps_effect orc (length (execution_steps e)) (execution_steps e) 0%nat
                {| run_exec := e; current_time := now orc asked;
                   total_duration := 0; run_asked := S asked |}) as Heff.
  destruct (run_steps _ _ _ _ _) as [steps r]. cbn [fst snd] in *. cbv zeta in Heff.
  destruct Heff as (_ & _ & Hid & _). cbn in Hid.
  now destruct (status (run_exec r)).
Qed.

Lemma start_execution_unfold
  (orc : Oracle) (k : World -> World) (l : nat) (e : TestExecution) (w : World) :
  objects w !! l = Some e ->
  _start_execution orc k l w = k (finished orc l e w).
Proof.
  intros He. unfold _start_execution. rewrite He.
  unfold _simulate_sap_execution. cbn [objects set_objects asked].
  rewrite list_lookup_insert_eq by (eapply lookup_lt_Some; eassumption).
  pose proof (simulate_execution_id orc (set_current_step 1 (set_status RUNNING e)) (asked w))
    as Hid.
  unfold finished.
  destruct (simulate orc (set_current_step 1 (set_status RUNNING e)) (asked w)) as [e' a].
  cbn [fst snd] in *. cbn in Hid. rewrite Hid.
  cbn [set_active set_history set_objects set_asked active_executions execution_queue
       execution_history max_concurrent_executions objects asked].
  now rewrite list_insert_insert_eq.
Qed.

(** One submission keeps the bookkeeping in order and runs none of the
    executions that were there before. *)
Lemma submit_tidy (orc : Oracle) (test_case : gmap string string) (w : World) :
  fresh_ids orc ->
  tidy orc w ->
  let l := fst (_create_test_execution orc test_case w) in
  let w1 := snd (_create_test_execution orc test_case w) in
  let w2 := if has_capacity w1
            then _start_execution orc (_process_execution_queue orc) l w1
            else set_queue (execution_queue w1 ++ [id_of l w1]) w1 in
  tidy orc w2 /\ left_alone w w2.
Proof.
  intros Hfresh [Hids Hqk Hqa Haf Hhv].
  destruct w as [act q h c os a]. cbn in Hids, Hqk, Hqa, Haf, Hhv.
  unfold _create_test_execution. cbn [fst snd asked objects]. cbv zeta.
  set (e := {| execution_id := ident orc a; test_case_id := _; test_name := _;
               transaction := _; status := QUEUED; result := None;
               start_time := _; end_time := None; duration_seconds := None;
               current_step := 0; total_steps := _; execution_steps := _;
               auto_healing := None |}).
  set (w1 := set_active _ _).
  assert (He : objects w1 !! length os = Some e) by (cbn; now rewrite list_lookup_middle).
  assert (Hold : forall l' e', os !! l' = Some e' -> l' <> length os).
  { intros l' e' Hl' ->. apply lookup_lt_Some in Hl'. lia. }
  destruct (has_capacity w1).
  - rewrite (start_execution_unfold orc _ _ e w1 He).
    set (w' := finished orc (length os) e w1).
    pose proof (simulate_asked orc (set_current_step 1 (set_status RUNNING e)) (a + 3)%nat) as Ha'.
    pose proof (simulate_execution_id orc (set_current_step 1 (set_status RUNNING e)) (a + 3)%nat)
      as Hid'. cbn in Hid'.
    assert (Hobj : objects w' = os ++ [fst (simulate orc
                      (set_current_step 1 (set_status RUNNING e)) (a + 3)%nat)]).
    { cbn. rewrite insert_app_r_alt by lia. now rewrite Nat.sub_diag. }
    assert (Hw' : tidy orc w').
    { constructor.
      - intros l' e'. rewrite Hobj. intros [[_ Hl']|[_ <-]]%lookup_snoc_Some.
        + destruct (Hids l' e' Hl') as (k & Hk & ->). exists k. cbn. split; [lia|reflexivity].
        + exists a. cbn. split; [lia|exact Hid'].
      - intros id Hin. destruct (Hqk id Hin) as (k & Hk & ->). exists k. cbn. split; [lia|reflexivity].
      - intros id l' e' Hin Hl'. rewrite Hobj. cbn in Hin, Hl'.
        apply elem_of_app in Hl' as [Hl'|Hl'].
        + intros [[_ Hlook]|[-> _]]%lookup_snoc_Some.
          * now apply (Hqa id l' e').
          * apply Hhv in Hl'. lia.
        + apply list_elem_of_singleton in Hl' as ->.
          intros [[Hlt _]|[_ <-]]%lookup_snoc_Some; [lia|].
          rewrite Hid'. destruct (Hqk id Hin) as (k & Hk & ->).
          intros Heq. apply Hfresh in Heq. lia.
      - intros id l'. cbn. rewrite delete_insert_eq.
        intros [Hne Hl']%lookup_delete_Some.
        destruct (Haf id l' Hl') as (e' & Hl & Hide). exists e'. split; [|exact Hide].
        rewrite insert_app_r_alt by lia. now apply lookup_app_l_Some.
      - intros l'. rewrite Hobj, length_app. cbn.
        intros [Hl'|Hs%list_elem_of_singleton]%elem_of_app; [apply Hhv in Hl'|subst l']; lia. }
    destruct (tidy_process_queue orc w' Hw') as [Ht Ho]. split; [exact Ht|].
    intros l' e' Hl'. cbn in Hl'. exists e'. rewrite Ho, Hobj.
    split; [now apply lookup_app_l_Some|auto].
  - assert (Hid : id_of (length os) w1 = ident orc a) by (unfold id_of; now rewrite He).
    rewrite Hid. split.
    + constructor.
      * intros l' e'. cbn. intros [[_ Hl']|[_ <-]]%lookup_snoc_Some.
        -- destruct (Hids l' e' Hl') as (k & Hk & ->). exists k. split; [lia|reflexivity].
        -- exists a. split; [lia|reflexivity].
      * intros id. cbn. intros [Hin|Hs%list_elem_of_singleton]%elem_of_app; [|subst id].
        -- destruct (Hqk id Hin) as (k & Hk & ->). exists k. split; [lia|reflexivity].
        -- exists a. split; [lia|reflexivity].
      * intros id l' e'. cbn. intros Hin Hl' [[_ Hlook]|[-> _]]%lookup_snoc_Some.
        -- apply elem_of_app in Hin as [Hin|Hs%list_elem_of_singleton]; [|subst id].
           ++ now apply (Hqa id l' e').
           ++ destruct (Hids l' e' Hlook) as (k & Hk & ->).
              intros Heq. apply Hfresh in Heq. lia.
        -- apply Hhv in Hl'. lia.
      * intros id l'. cbn. intros [[<- <-]|[Hne Hl']]%lookup_insert_Some.
        -- exists e. split; [now rewrite list_lookup_middle|reflexivity].
        -- destruct (Haf id l' Hl') as (e' & Hl & Hide). exists e'.
           split; [now apply lookup_app_l_Some|exact Hide].
      * intros l' Hl'. cbn. rewrite length_app. cbn. cbn in Hl'. apply Hhv in Hl'. lia.
    + intros l' e' Hl'. cbn in Hl'. exists e'. cbn.
      split; [now apply lookup_app_l_Some|auto].
Qed.

Lemma tidy_set_asked (orc : Oracle) (n : nat) (w : World) :
  (asked w <= n)%nat -> tidy orc w -> tidy orc (set_asked n w).
Proof.
  intros Hn [Hids Hqk Hqa Haf Hhv]. constructor; cbn; try assumption.
  - intros l e He. destruct (Hids l e He) as (k & Hk & Hid). exists k. split; [lia|exact Hid].
  - intros id Hin. destruct (Hqk id Hin) as (k & Hk & Hid). exists k. split; [lia|exact Hid].
Qed.

Lemma submit_all_tidy (orc : Oracle) (test_cases : list (gmap string string)) :
  fresh_ids orc ->
  forall w : World,
    tidy orc w ->
    tidy orc (snd (submit_all orc test_cases w))
    /\ left_alone w (snd (submit_all orc test_cases w)).
Proof.
  intros Hfresh. induction test_cases as [|test_case rest IH]; intros w Hw; cbn [submit_all].
  - split; [exact Hw|apply left_alone_refl].
  - destruct (submit_tidy orc test_case w Hfresh Hw) as [Ht Hl].
    destruct (_create_test_execution orc test_case w) as [l w1]. cbn [fst snd] in Ht, Hl.
    cbv zeta in Ht, Hl.
    destruct (IH _ Ht) as [Ht' Hl'].
    destruct (submit_all orc rest _) as [ls w2]. cbn [snd] in *.
    split; [exact Ht'|]. eapply left_alone_trans; eassumption.
Qed.

Lemma remove_first_elem (x y : string) (l : list string) :
  x ∈ remove_first y l -> x ∈ l.
Proof.
  induction l as [|z l IH]; cbn; [trivial|].
  destruct (String.eqb z y); [now constructor|].
  intros [->|Hin]%elem_of_cons; [constructor|]. constructor. now apply IH.
Qed.

Lemma cancel_execution_tidy (orc : Oracle) (id : string) (w : World) :
  tidy orc w ->
  tidy orc (snd (cancel_execution orc id w))
  /\ left_alone w (snd (cancel_execution orc id w)).
Proof.
  intros Hw. unfold cancel_execution.
  destruct (bool_decide (id ∈ execution_queue w)) eqn:Hq.
  - cbn [snd]. split; [|now apply left_alone_same_objects].
    destruct Hw as [Hids Hqk Hqa Haf Hhv]. constructor; cbn; try assumption.
    + intros id' Hin. apply Hqk. eapply remove_first_elem, Hin.
    + intros id' l e Hin. apply Hqa. eapply remove_first_elem, Hin.
  - apply bool_decide_eq_false in Hq.
    destruct (active_executions w !! id) as [l|] eqn:Hact;
      [|split; [exact Hw|apply left_alone_refl]].
    destruct (objects w !! l) as [e|] eqn:He; [|split; [exact Hw|apply left_alone_refl]].
    cbn [snd]. destruct Hw as [Hids Hqk Hqa Haf Hhv].
    destruct (Haf id l Hact) as (e0 & He0 & Hid0). rewrite He in He0. injection He0 as <-.
    assert (Hlt : (l < length (objects w))%nat) by (eapply lookup_lt_Some; eassumption).
    split.
    + constructor; cbn.
      * intros l' e'. destruct (decide (l' = l)) as [->|Hne].
        -- rewrite list_lookup_insert_eq by exact Hlt. intros [= <-]. cbn.
           destruct (Hids l e He) as (k & Hk & Hidk). exists k. split; [lia|exact Hidk].
        -- rewrite list_lookup_insert_ne by congruence. intros Hl'.
           destruct (Hids l' e' Hl') as (k & Hk & Hidk). exists k. split; [lia|exact Hidk].
      * intros id' Hin. destruct (Hqk id' Hin) as (k & Hk & Hidk). exists k.
        split; [lia|exact Hidk].
      * intros id' l' e' Hin Hl'. destruct (decide (l' = l)) as [->|Hne].
        -- rewrite list_lookup_insert_eq by exact Hlt. intros [= <-]. cbn.
           rewrite Hid0. intros ->. contradiction.
        -- rewrite list_lookup_insert_ne by congruence. intros Hlook.
           apply elem_of_app in Hl' as [Hl'|Hs%list_elem_of_singleton]; [|congruence].
           now apply (Hqa id' l' e').
      * intros id' l'. intros [Hne Hl']%lookup_delete_Some.
        destruct (Haf id' l' Hl') as (e' & Hlook & Hide).
        destruct (decide (l' = l)) as [->|Hnl].
        -- rewrite He in Hlook. injection Hlook as <-. congruence.
        -- exists e'. split; [now rewrite list_lookup_insert_ne by congruence|exact Hide].
      * intros l'. rewrite length_insert.
        intros [Hl'|Hs%list_elem_of_singleton]%elem_of_app; [now apply Hhv|now subst l'].
    + intros l' e' Hl'. cbn. destruct (decide (l' = l)) as [->|Hne].
      * rewrite list_lookup_insert_eq by exact Hlt. rewrite He in Hl'. injection Hl' as <-.
        eexists. split; [reflexivity|]. cbn. split; [reflexivity|now right].
      * exists e'. rewrite list_lookup_insert_ne by congruence. auto.
Qed.

Lemma handle_tidy (orc : Oracle) (rq : Request) (w : World) :
  fresh_ids orc ->
  tidy orc w ->
  tidy orc (handle orc rq w) /\ left_alone w (handle orc rq w).
Proof.
  intros Hfresh Hw. destruct rq as [test_case|test_cases|id|capacity]; cbn [handle].
  - unfold execute_single_test.
    destruct (bool_decide (test_case = ∅)); [split; [exact Hw|apply left_alone_refl]|].
    pose proof (submit_tidy orc test_case w Hfresh Hw) as Hs.
    destruct (_create_test_execution orc test_case w) as [l w1]. cbn [fst snd] in Hs.
    cbv zeta in Hs. now destruct (has_capacity w1).
  - unfold execute_test_suite.
    destruct test_cases as [|test_case rest]; [split; [exact Hw|apply left_alone_refl]|].
    pose proof (submit_all_tidy orc (test_case :: rest) Hfresh (set_asked (S (asked w)) w)
                  (tidy_set_asked orc (S (asked w)) w (Nat.le_succ_diag_r _) Hw)) as [Ht Hl].
    destruct (submit_all orc (test_case :: rest) _) as [ls w1]. cbn [snd] in *.
    split; [exact Ht|]. intros l e He. apply Hl. exact He.
  - now apply cancel_execution_tidy.
  - split; [|now apply left_alone_same_objects].
    destruct Hw as [Hids Hqk Hqa Haf Hhv]. now constructor.
Qed.

Lemma run_tidy (orc : Oracle) (requests : list Request) :
  fresh_ids orc ->
  forall w : World, tidy orc w -> tidy orc (run orc requests w).
Proof.
  intros Hfresh. induction requests as [|rq requests IH]; intros w Hw; [exact Hw|].
  apply IH. now apply handle_tidy.
Qed.

Lemma new_agent_tidy (orc : Oracle) (capacity : Z) : tidy orc (new_agent capacity).
Proof.
  constructor; cbn.
  - intros l e He. discriminate.
  - intros id Hin. now apply not_elem_of_nil in Hin.
  - intros id l e Hin. now apply not_elem_of_nil in Hin.
  - intros id l Hl. now rewrite lookup_empty in Hl.
  - intros l Hin. now apply not_elem_of_nil in Hin.
Qed.

(** X3.  When the oracle's identifiers are distinct, a request never runs an
    execution that an earlier request created: it leaves its steps alone and
    can change its status only to [CANCELLED].  An execution that was queued
    is therefore never promoted, whatever the capacity is set to later. *)
Theorem later_requests_run_nothing
  (orc : Oracle) (capacity : Z) (before : list Request) (rq : Request)
  (l : nat) (e : TestExecution) :
  fresh_ids orc ->
  objects (run orc before (new_agent capacity)) !! l = Some e ->
  exists e' : TestExecution,
    objects (handle orc rq (run orc before (new_agent capacity))) !! l = Some e'
    /\ execution_steps e' = execution_steps e
    /\ (status e' = status e \/ status e' = CANCELLED).
Proof.
  intros Hfresh He.
  pose proof (run_tidy orc before Hfresh _ (new_agent_tidy orc capacity)) as Hw.
  destruct (handle_tidy orc rq _ Hfresh Hw) as [_ Hleft].
  exact (Hleft l e He).
Qed.

(** X4.  When the oracle's identifiers are distinct, in every state that
    the agent reaches [_process_execution_queue] starts nothing: it empties the queue when there is capacity and does
    nothing otherwise. *)
Theorem queue_never_promotes
  (orc : Oracle) (capacity : Z) (requests : list Request) :
  fresh_ids orc ->
  let w := run orc requests (new_agent capacity) in
  _process_execution_queue orc w = if has_capacity w then set_queue [] w else w.
Proof.
  intros Hfresh w. apply process_execution_queue_discards.
  intros id Hin. apply (tidy_find_none orc); [|exact Hin].
  apply run_tidy; [exact Hfresh|apply new_agent_tidy].
Qed.

(** X6.  Cancelling a queued execution takes its id out of the queue and
    changes no execution: it is not run, and none of its attributes is written. *)
Theorem cancel_queued_leaves_the_queue (orc : Oracle) (id : string) (w : World) :
  NoDup (execution_queue w) ->
  id ∈ execution_queue w ->
  fst (cancel_execution orc id w) = Succeeded ("Execution " +:+ id +:+ " removed from queue")
  /\ (id ∉ execution_queue (snd (cancel_execution orc id w)))
  /\ objects (snd (cancel_execution orc id w)) = objects w
  /\ active_executions (snd (cancel_execution orc id w)) = active_executions w
  /\ get_execution_status id (snd (cancel_execution orc id w)) = get_execution_status id w.
Proof.
  intros Hnd Hin. rewrite (cancel_execution_queued orc id w Hin). cbn [fst snd].
  split; [reflexivity|]. split; [now apply remove_first_not_elem|]. repeat split.
Qed.

(** *** The theorems at concrete runs *)

Lemma calm_fresh : fresh_ids calm.
Proof.
  intros j k Hjk. unfold calm, ident in Hjk.
  apply (inj (String.append "exec_")) in Hjk.
  exact (inj pretty j k Hjk).
Qed.

Lemma wait_queue_is_never_used_witness :
  let w := run calm [ExecuteTestSuite [test_case_for "ME21N"; test_case_for "MIGO";
                                       test_case_for "VA01"; test_case_for "ZZ99"]]
             (new_agent 3) in
  execution_queue w = []
  /\ active_executions w = ∅
  /\ Forall (fun e => terminal (status e) = true) (objects w).
Proof.
  apply (wait_queue_is_never_used calm 3); [lia|]. repeat constructor.
Defined.

Lemma nothing_runs_below_capacity_two_witness :
  Forall never_ran
    (objects (run calm [ExecuteSingleTest (test_case_for "ME21N");
                        ExecuteSingleTest (test_case_for "MIGO");
                        CancelExecution "exec_0"; CancelExecution "exec_0"] (new_agent 1))).
Proof.
  apply (nothing_runs_below_capacity_two calm 1); [lia|]. repeat constructor.
Defined.

Lemma later_requests_run_nothing_witness :
  exists e' : TestExecution,
    objects (handle calm (ExecuteSingleTest (test_case_for "MIGO"))
               (run calm [Configure 1; ExecuteSingleTest (test_case_for "ME21N"); Configure 3]
                  (new_agent 3))) !! 0%nat = Some e'
    /\ status e' = QUEUED.
Proof.
  destruct (objects (run calm [Configure 1; ExecuteSingleTest (test_case_for "ME21N");
                               Configure 3] (new_agent 3)) !! 0%nat) as [e|] eqn:He.
  - destruct (later_requests_run_nothing calm 3
                [Configure 1; ExecuteSingleTest (test_case_for "ME21N"); Configure 3]
                (ExecuteSingleTest (test_case_for "MIGO")) 0%nat e calm_fresh He)
      as (e' & He' & _ & _).
    exists e'. split; [exact He'|].
    vm_compute in He'. injection He' as <-. reflexivity.
  - vm_compute in He. discriminate He.
Defined.

Lemma queue_never_promotes_witness :
  let w := run calm [Configure 1; ExecuteSingleTest (test_case_for "ME21N"); Configure 3]
             (new_agent 3) in
  execution_queue w = ["exec_0"]
  /\ has_capacity w = true
  /\ _process_execution_queue calm w = set_queue [] w.
Proof.
  split; [reflexivity|]. split; [reflexivity|].
  exact (queue_never_promotes calm 3
           [Configure 1; ExecuteSingleTest (test_case_for "ME21N"); Configure 3] calm_fresh).
Defined.

Lemma cancel_queued_leaves_the_queue_witness :
  let w := run calm [Configure 1; ExecuteSingleTest (test_case_for "ME21N")] (new_agent 3) in
  ("exec_0" ∉ execution_queue (snd (cancel_execution calm "exec_0" w)))
  /\ objects (snd (cancel_execution calm "exec_0" w)) = objects w.
Proof.
  cbv zeta.
  destruct (cancel_queued_leaves_the_queue calm "exec_0"
              (run calm [Configure 1; ExecuteSingleTest (test_case_for "ME21N")] (new_agent 3)))
    as (_ & Hq & Ho & _).
  - vm_compute. repeat constructor. intros Hin. inversion Hin.
  - vm_compute. constructor.
  - split; [exact Hq|exact Ho].
Defined.

End ExecutorFacts.

Module RouterOpsFacts.

Import Router RouterOps.

(** *** The wire format *)

(** X7.  [from_dict] undoes [to_dict]: the dict written for a message reads
    back as that message, attribute by attribute. *)
Theorem from_dict_to_dict (m : AgentMessage) : from_dict (to_dict m) = Ok (untyped m).
Proof.
  destruct m as [a b c t p ts pl ci rt ex]. destruct t, p; reflexivity.
Qed.







(** *** Subscriptions *)

Lemma list_remove_elem (a : string) (l : list string) :
  a ∈ l ->
  exists r : list string,
    list_remove a l = Ok r
    /\ (forall x : string, x ∈ r -> x ∈ l)
    /\ (forall x : string, x <> a -> x ∈ l -> x ∈ r)
    /\ (NoDup l -> NoDup r /\ a ∉ r).
Proof.
  induction l as [|y l IH]; intros Ha; [now apply elem_of_nil in Ha|].
  cbn. destruct (String.eqb_spec y a) as [->|Hne].
  - exists l. split; [reflexivity|]. split; [intros x Hx; now right|].
    split.
    + intros x Hx Hin. apply elem_of_cons in Hin as [->|Hin]; [contradiction|exact Hin].
    + intros Hnd. apply NoDup_cons in Hnd as [Hn Hnd]. now split.
  - apply elem_of_cons in Ha as [->|Ha]; [contradiction|].
    destruct (IH Ha) as (r & -> & Hsub & Hkeep & Hnd).
    exists (y :: r). split; [reflexivity|]. split; [|split].
    + intros x Hx. apply elem_of_cons in Hx as [->|Hx]; [now left|right; now apply Hsub].
    + intros x Hx Hin. apply elem_of_cons in Hin as [->|Hin]; [now left|right; now apply Hkeep].
    + intros Hl. apply NoDup_cons in Hl as [Hy Hl]. destruct (Hnd Hl) as [Hr Har]. split.
      * apply NoDup_cons. split; [|exact Hr]. intros Hyr. apply Hy, Hsub, Hyr.
      * intros Hin. apply elem_of_cons in Hin as [->|Hin]; [now apply Hne|now apply Har].
Qed.

Section Subscriptions.

Context {H : Type}.

Implicit Types w : World H.

Lemma subscriptions_apart_refl w : subscriptions_apart w w.
Proof. repeat split. Qed.

Lemma subscriptions_apart_trans w1 w2 w3 :
  subscriptions_apart w1 w2 -> subscriptions_apart w2 w3 -> subscriptions_apart w1 w3.
Proof.
  intros (A1 & A2 & A3 & A4 & A5) (B1 & B2 & B3 & B4 & B5).
  repeat split; congruence.
Qed.

(** What [subscribe] does: the agent is added at the end of the pattern's
    list unless it is there; the list is made when the pattern is new. *)
Lemma subscribe_effect (a p : string) w :
  exists w',
    subscribe a p w = (Ok tt, w')
    /\ subscriptions_apart w w'
    /\ patterns_of w'
       = <[p := if bool_decide (a ∈ default [] (patterns_of w !! p))
                then default [] (patterns_of w !! p)
                else default [] (patterns_of w !! p) ++ [a]]> (patterns_of w).
Proof.
  unfold subscribe, bind, gets, modify, subscript, ret, patterns_of.
  destruct (subscription_patterns (router w) !! p) as [agents|] eqn:Hp.
  - rewrite bool_decide_true by eauto. cbn. rewrite Hp. cbn.
    destruct (bool_decide (a ∈ agents)) eqn:Ha.
    + eexists. split; [reflexivity|]. split; [apply subscriptions_apart_refl|].
      symmetry. now apply insert_id.
    + eexists. split; [reflexivity|]. split; [repeat split|reflexivity].
  - rewrite bool_decide_false by (intros [? ?]; discriminate). cbn.
    rewrite lookup_insert_eq. cbn.
    rewrite bool_decide_false by (apply not_elem_of_nil).
    eexists. split; [reflexivity|]. split; [repeat split|].
    cbn. now rewrite insert_insert_eq.
Qed.

Lemma only_lost_refl (a : string) (sp : gmap string (list string)) : only_lost a sp sp.
Proof. intros q. destruct (sp !! q); [split; auto|exact I]. Qed.

Lemma only_lost_trans (a : string) (sp1 sp2 sp3 : gmap string (list string)) :
  only_lost a sp1 sp2 -> only_lost a sp2 sp3 -> only_lost a sp1 sp3.
Proof.
  intros H12 H23 q. specialize (H12 q). specialize (H23 q).
  destruct (sp1 !! q), (sp2 !! q), (sp3 !! q); try tauto.
  destruct H12 as [A1 A2], H23 as [B1 B2]. split; auto.
Qed.

Lemma strip_effect (a p : string) w :
  is_Some (patterns_of w !! p) ->
  no_double_subscription w ->
  exists w',
    strip a p w = (Ok tt, w')
    /\ subscriptions_apart w w'
    /\ no_double_subscription w'
    /\ only_lost a (patterns_of w) (patterns_of w')
    /\ ~ subscribed a p (patterns_of w').
Proof.
  intros [agents Hp] Hnd.
  unfold strip, bind, subscript. rewrite Hp.
  destruct (bool_decide (a ∈ agents)) eqn:Ha.
  - apply bool_decide_eq_true in Ha.
    destruct (list_remove_elem a agents Ha) as (r & Hr & Hsub & Hkeep & Hdup).
    unfold remove_subscriber, bind, subscript. rewrite Hp, Hr.
    eexists. split; [reflexivity|]. split; [repeat split|].
    destruct (Hdup (Hnd p agents Hp)) as [Hndr Har].
    split; [|split].
    + intros q l. unfold modify, with_subscriptions; cbn.
      destruct (decide (q = p)) as [->|Hq].
      * rewrite lookup_insert_eq. now intros [= <-].
      * rewrite lookup_insert_ne by congruence. apply Hnd.
    + intros q. unfold modify, with_subscriptions, patterns_of; cbn.
      destruct (decide (q = p)) as [->|Hq].
      * unfold patterns_of in Hp. rewrite Hp, lookup_insert_eq. now split.
      * rewrite lookup_insert_ne by congruence.
        destruct (subscription_patterns (router w) !! q); [split; auto|exact I].
    + intros (l & Hl & Hal). unfold modify, with_subscriptions, patterns_of in Hl; cbn in Hl.
      rewrite lookup_insert_eq in Hl. injection Hl as <-. contradiction.
  - apply bool_decide_eq_false in Ha.
    eexists. split; [reflexivity|]. split; [apply subscriptions_apart_refl|].
    split; [exact Hnd|]. split; [apply only_lost_refl|].
    intros (l & Hl & Hal). rewrite Hp in Hl. injection Hl as <-. contradiction.
Qed.

Lemma only_lost_keys (a : string) (sp sp' : gmap string (list string)) (q : string) :
  only_lost a sp sp' -> is_Some (sp !! q) <-> is_Some (sp' !! q).
Proof.
  intros Hl. specialize (Hl q).
  destruct (sp !! q), (sp' !! q); try tauto; split; intros [? ?]; try discriminate; eauto.
Qed.

Lemma only_lost_not_subscribed (a b q : string) (sp sp' : gmap string (list string)) :
  only_lost a sp sp' -> ~ subscribed b q sp -> ~ subscribed b q sp'.
Proof.
  intros Hl Hn (l' & Hq & Hb). specialize (Hl q). rewrite Hq in Hl.
  destruct (sp !! q) as [l|] eqn:E; [|contradiction].
  apply Hn. exists l. split; [exact E|]. now apply Hl.
Qed.

Lemma only_lost_others (a b q : string) (sp sp' : gmap string (list string)) :
  only_lost a sp sp' -> b <> a -> subscribed b q sp <-> subscribed b q sp'.
Proof.
  intros Hl Hne. specialize (Hl q). split.
  - intros (l & Hq & Hb). rewrite Hq in Hl.
    destruct (sp' !! q) as [l'|] eqn:E; [|contradiction].
    exists l'. split; [exact E|]. now apply Hl.
  - intros (l' & Hq & Hb). rewrite Hq in Hl.
    destruct (sp !! q) as [l|] eqn:E; [|contradiction].
    exists l. split; [exact E|]. now apply Hl.
Qed.

Lemma unsubscribe_effect (a p : string) w :
  no_double_subscription w ->
  exists w',
    unsubscribe a p w = (Ok tt, w')
    /\ subscriptions_apart w w'
    /\ no_double_subscription w'
    /\ only_lost a (patterns_of w) (patterns_of w')
    /\ ~ subscribed a p (patterns_of w').
Proof.
  intros Hnd. unfold unsubscribe. unfold bind at 1, gets.
  destruct (patterns_of w !! p) as [agents|] eqn:Hp.
  - rewrite bool_decide_true by eauto.
    apply strip_effect; [rewrite Hp; eauto|exact Hnd].
  - rewrite bool_decide_false by (intros [? ?]; discriminate).
    exists w. split; [reflexivity|]. split; [apply subscriptions_apart_refl|].
    split; [exact Hnd|]. split; [apply only_lost_refl|].
    intros (l & Hl & _). rewrite Hp in Hl. discriminate.
Qed.

Lemma unsubscribe_all_effect (a : string) (ps : list string) w :
  (forall q : string, q ∈ ps -> is_Some (patterns_of w !! q)) ->
  no_double_subscription w ->
  exists w',
    unsubscribe_all a ps w = (Ok tt, w')
    /\ subscriptions_apart w w'
    /\ no_double_subscription w'
    /\ only_lost a (patterns_of w) (patterns_of w')
    /\ (forall q : string, q ∈ ps -> ~ subscribed a q (patterns_of w')).
Proof.
  revert w. induction ps as [|p ps IH]; intros w Hkeys Hnd.
  - exists w. split; [reflexivity|]. split; [apply subscriptions_apart_refl|].
    split; [exact Hnd|]. split; [apply only_lost_refl|].
    intros q Hq. now apply elem_of_nil in Hq.
  - destruct (strip_effect a p w (Hkeys p (list_elem_of_here _ _)) Hnd)
      as (w1 & E1 & A1 & N1 & L1 & S1).
    destruct (IH w1) as (w2 & E2 & A2 & N2 & L2 & S2); [|exact N1|].
    { intros q Hq. apply (only_lost_keys a _ _ q L1). apply Hkeys. now right. }
    exists w2. split.
    + cbn [unsubscribe_all]. unfold bind at 1. rewrite E1. exact E2.
    + split; [exact (subscriptions_apart_trans _ _ _ A1 A2)|].
      split; [exact N2|]. split; [exact (only_lost_trans _ _ _ _ L1 L2)|].
      intros q Hq. apply elem_of_cons in Hq as [->|Hq]; [|now apply S2].
      now apply (only_lost_not_subscribed a a p _ _ L2).
Qed.

Lemma unregister_agent_effect (keys : gmap string (list string) -> list string) (a : string) w :
  lists_keys keys ->
  no_double_subscription w ->
  exists w',
    unregister_agent keys a w = (Ok tt, w')
    /\ no_double_subscription w'
    /\ only_lost a (patterns_of w) (patterns_of w')
    /\ (forall q : string, ~ subscribed a q (patterns_of w'))
    /\ delivery_handlers (router w') = delete a (delivery_handlers (router w))
    /\ message_queue (router w') = message_queue (router w)
    /\ message_history (router w') = message_history (router w)
    /\ delivery_stats (router w') = delivery_stats (router w)
    /\ calls w' = calls w.
Proof.
  intros Hkeys Hnd. unfold unregister_agent. unfold bind at 1, gets.
  set (w1 := if bool_decide (is_Some (delivery_handlers (router w) !! a))
             then with_handlers (fun hs => delete a hs) w else w).
  assert (Hw1 : (if bool_decide (is_Some (delivery_handlers (router w) !! a))
                 then modify (with_handlers (fun hs => delete a hs)) else ret tt) w
                = (Ok tt, w1)).
  { unfold w1. now destruct (bool_decide _). }
  assert (Hh : delivery_handlers (router w1) = delete a (delivery_handlers (router w))).
  { unfold w1. destruct (bool_decide _) eqn:E; [reflexivity|].
    apply bool_decide_eq_false in E. symmetry. apply delete_id.
    destruct (delivery_handlers (router w) !! a) eqn:E'; [|reflexivity].
    exfalso. apply E. eauto. }
  assert (Hs : patterns_of w1 = patterns_of w
               /\ message_queue (router w1) = message_queue (router w)
               /\ message_history (router w1) = message_history (router w)
               /\ delivery_stats (router w1) = delivery_stats (router w)
               /\ calls w1 = calls w).
  { unfold w1. destruct (bool_decide _); repeat split. }
  destruct Hs as (Hp & Hmq & Hm & Hd & Hc).
  unfold bind at 1. rewrite Hw1. unfold bind at 1, gets.
  destruct (unsubscribe_all_effect a (keys (patterns_of w1)) w1)
    as (w2 & E2 & (A1 & A2 & A3 & A4 & A5) & N2 & L2 & S2).
  { intros q Hq. now apply Hkeys. }
  { intros q l Hl. apply (Hnd q l). unfold patterns_of in Hp. now rewrite <- Hp. }
  exists w2. split; [exact E2|]. split; [exact N2|].
  split; [now rewrite <- Hp|]. split.
  - intros q Hsub. destruct Hsub as (l & Hl & Ha).
    apply (S2 q); [|now exists l].
    apply Hkeys. apply (only_lost_keys a _ _ q L2). eauto.
  - repeat split; congruence.
Qed.

(** X9.  Where no agent is listed twice under a pattern,
    [unregister_agent] returns normally and forgets the agent: its handler is
    gone and no pattern lists it any more.  The other agents keep their
    handlers and their subscriptions, and no pattern is removed. *)
Theorem unregistered_agent_is_forgotten
  (keys : gmap string (list string) -> list string) (a : string) w :
  lists_keys keys ->
  no_double_subscription w ->
  exists w',
    unregister_agent keys a w = (Ok tt, w')
    /\ delivery_handlers (router w') !! a = None
    /\ (forall q : string, ~ subscribed a q (patterns_of w'))
    /\ (forall b : string, b <> a ->
          delivery_handlers (router w') !! b = delivery_handlers (router w) !! b
          /\ (forall q : string, subscribed b q (patterns_of w) <-> subscribed b q (patterns_of w')))
    /\ (forall q : string, is_Some (patterns_of w !! q) <-> is_Some (patterns_of w' !! q)).
Proof.
  intros Hkeys Hnd.
  destruct (unregister_agent_effect keys a w Hkeys Hnd)
    as (w' & E & _ & L & S & Hh & _).
  exists w'. split; [exact E|]. split; [rewrite Hh; apply lookup_delete_eq|].
  split; [exact S|]. split.
  - intros b Hb. split; [rewrite Hh; now apply lookup_delete_ne|].
    intros q. now apply only_lost_others with (a := a).
  - intros q. now apply only_lost_keys with (a := a).
Qed.

Lemma subscribe_no_double (a p : string) w w' :
  no_double_subscription w ->
  subscribe a p w = (Ok tt, w') ->
  no_double_subscription w'.
Proof.
  intros Hnd E. destruct (subscribe_effect a p w) as (w1 & E1 & _ & Hp).
  rewrite E in E1. injection E1 as <-.
  intros q l. unfold patterns_of in Hp. rewrite Hp.
  destruct (decide (q = p)) as [->|Hq].
  - rewrite lookup_insert_eq. intros [= <-].
    pose proof (Hnd p) as Hndp.
    destruct (subscription_patterns (router w) !! p) as [agents|] eqn:E'; cbn.
    + specialize (Hndp agents eq_refl).
      destruct (bool_decide (a ∈ agents)) eqn:Ha; [exact Hndp|].
      apply bool_decide_eq_false in Ha.
      apply NoDup_app. split; [exact Hndp|]. split; [|apply NoDup_singleton].
      intros x Hx Hx'. apply list_elem_of_singleton in Hx'. now subst.
    + rewrite bool_decide_false by apply not_elem_of_nil. apply NoDup_singleton.
  - rewrite lookup_insert_ne by congruence. apply Hnd.
Qed.

Lemma change_effect (keys : gmap string (list string) -> list string) (c : Change) w :
  lists_keys keys ->
  no_double_subscription w ->
  exists w',
    change keys c w = (Ok tt, w')
    /\ no_double_subscription w'
    /\ (forall q : string, is_Some (patterns_of w !! q) -> is_Some (patterns_of w' !! q)).
Proof.
  intros Hkeys Hnd. destruct c as [a p|a p|a]; cbn.
  - destruct (subscribe_effect a p w) as (w' & E & _ & Hp).
    exists w'. split; [exact E|]. split; [exact (subscribe_no_double a p w w' Hnd E)|].
    intros q Hq. rewrite Hp. destruct (decide (q = p)) as [->|Hne].
    + rewrite lookup_insert_eq. eauto.
    + now rewrite lookup_insert_ne by congruence.
  - destruct (unsubscribe_effect a p w Hnd) as (w' & E & _ & N & L & _).
    exists w'. split; [exact E|]. split; [exact N|].
    intros q Hq. apply (only_lost_keys a _ _ q L), Hq.
  - destruct (unregister_agent_effect keys a w Hkeys Hnd) as (w' & E & N & L & _).
    exists w'. split; [exact E|]. split; [exact N|].
    intros q Hq. apply (only_lost_keys a _ _ q L), Hq.
Qed.

Lemma changes_effect (keys : gmap string (list string) -> list string) (cs : list Change) w :
  lists_keys keys ->
  no_double_subscription w ->
  exists w',
    changes keys cs w = (Ok tt, w')
    /\ no_double_subscription w'
    /\ (forall q : string, is_Some (patterns_of w !! q) -> is_Some (patterns_of w' !! q)).
Proof.
  intros Hkeys. revert w. induction cs as [|c cs IH]; intros w Hnd.
  - exists w. split; [reflexivity|]. split; [exact Hnd|auto].
  - destruct (change_effect keys c w Hkeys Hnd) as (w1 & E1 & N1 & K1).
    destruct (IH w1 N1) as (w2 & E2 & N2 & K2).
    exists w2. split.
    + cbn [changes]. unfold bind. now rewrite E1.
    + split; [exact N2|]. intros q Hq. apply K2, K1, Hq.
Qed.

(** X10.  Whatever calls of [subscribe], [unsubscribe] and
    [unregister_agent] are made, in whatever order, each returns normally, no
    agent is ever listed twice under a pattern, and a pattern once known is
    never removed, also when its last subscriber has gone. *)
Theorem subscriptions_stay_duplicate_free
  (keys : gmap string (list string) -> list string) (cs : list Change) w :
  lists_keys keys ->
  no_double_subscription w ->
  exists w',
    changes keys cs w = (Ok tt, w')
    /\ no_double_subscription w'
    /\ (forall q : string, is_Some (patterns_of w !! q) -> is_Some (patterns_of w' !! q)).
Proof. apply changes_effect. Qed.

(** [subscribe] returns normally whether or not the pattern is
    known, lists the agent under the pattern, adds no other subscription and
    removes none; a second call changes nothing. *)
Theorem subscribe_adds_one_subscription (a p : string) w :
  exists w',
    subscribe a p w = (Ok tt, w')
    /\ subscribed a p (patterns_of w')
    /\ (forall b q : string,
          subscribed b q (patterns_of w') <-> (b = a /\ q = p) \/ subscribed b q (patterns_of w))
    /\ subscribe a p w' = (Ok tt, w').
Proof.
  destruct (subscribe_effect a p w) as (w' & E & _ & Hp).
  exists w'. split; [exact E|].
  set (old := default [] (patterns_of w !! p)) in *.
  assert (Hnew : exists l, patterns_of w' !! p = Some l /\ a ∈ l
                           /\ forall b, b ∈ l <-> b = a \/ b ∈ old).
  { rewrite Hp, lookup_insert_eq. eexists. split; [reflexivity|].
    destruct (bool_decide (a ∈ old)) eqn:Ha.
    - apply bool_decide_eq_true in Ha. split; [exact Ha|].
      intros b. split; [now right|]. intros [->|Hb]; assumption.
    - split; [apply elem_of_app; right; now left|].
      intros b. rewrite elem_of_app, list_elem_of_singleton. tauto. }
  destruct Hnew as (l & Hl & Hal & Hiff).
  split; [now exists l|]. split.
  - intros b q. destruct (decide (q = p)) as [->|Hq].
    + split.
      * intros (l' & Hl' & Hb). rewrite Hl in Hl'. injection Hl' as <-.
        apply Hiff in Hb as [->|Hb]; [now left|right].
        unfold old in Hb. destruct (patterns_of w !! p) as [l0|] eqn:E0.
        -- now exists l0.
        -- now apply elem_of_nil in Hb.
      * intros [[-> _]|(l0 & Hl0 & Hb)]; [now exists l|].
        exists l. split; [exact Hl|]. apply Hiff. right. unfold old. now rewrite Hl0.
    + unfold subscribed. rewrite Hp, lookup_insert_ne by congruence.
      split; [now right|]. intros [[_ ->]|Hs]; [contradiction|exact Hs].
  - destruct (subscribe_effect a p w') as (w'' & E' & (A1 & A2 & A3 & A4 & A5) & Hp').
    rewrite E'. f_equal.
    rewrite Hl in Hp'. cbn in Hp'. rewrite bool_decide_true in Hp' by exact Hal.
    rewrite insert_id in Hp' by exact Hl.
    destruct w' as [[q1 h1 s1 m1 d1] c1], w'' as [[q2 h2 s2 m2 d2] c2].
    unfold patterns_of in Hp'. cbn in *. congruence.
Qed.

End Subscriptions.

(** *** Pattern matching *)

Lemma starts_with_spec (p s : string) :
  starts_with p s = true <-> exists b : string, s = p +:+ b.
Proof.
  revert s. induction p as [|a p IH]; intros s; cbn.
  - split; [intros _; now exists s|reflexivity].
  - destruct s as [|b s]; cbn.
    + split; [discriminate|intros [? [=]]].
    + rewrite andb_true_iff, IH. split.
      * intros [Hab [t ->]]. apply Ascii.eqb_eq in Hab as ->. now exists t.
      * intros [t [= -> ->]]. split; [apply Ascii.eqb_refl|now exists t].
Qed.

Lemma contains_spec (p s : string) : contains p s = true <-> occurs_in p s.
Proof.
  induction s as [|c s IH]; cbn; rewrite orb_true_iff, starts_with_spec.
  - split.
    + intros [[b Hb]|[=]]. now exists "", b.
    + intros (a & b & Hab). left. destruct a; [now exists b|discriminate].
  - rewrite IH. split.
    + intros [[b Hb]|(a & b & ->)]; [now exists "", b|now exists (String c a), b].
    + intros (a & b & Hab). destruct a as [|c' a]; [left; now exists b|].
      right. injection Hab as -> ->. now exists a, b.
Qed.

(** X11.  [_matches_pattern] tests containment, not equality: a pattern
    matches a message when it is ["*"], when it occurs somewhere in the
    payload's ["type"] entry, or when it occurs somewhere in the value of the
    message type.  The empty pattern therefore matches every message. *)
Theorem matches_pattern_iff (message : AgentMessage) (pattern : string) :
  (_matches_pattern message pattern = true
   <-> pattern = "*"
       \/ occurs_in pattern (default "" (payload message !! "type"))
       \/ occurs_in pattern (MessageType_value (message_type message)))
  /\ _matches_pattern message "" = true.
Proof.
  split.
  - unfold _matches_pattern.
    destruct (String.eqb_spec pattern "*") as [->|Hne]; [tauto|].
    rewrite <- !contains_spec.
    destruct (contains pattern (default "" (payload message !! "type"))); [tauto|].
    destruct (contains pattern (MessageType_value (message_type message))); [tauto|].
    split; [discriminate|]. intros [?|[?|?]]; congruence.
  - unfold _matches_pattern. cbn.
    now destruct (default "" (payload message !! "type")).
Qed.

(** *** Sending *)

Section Sending.

Context {H : Type}.
Variable fromisoformat : string -> res datetime.
Variable invoke : H -> AgentMessage -> Py (World H) bool.

Implicit Types w : World H.


(** With a handler that leaves the router alone, [send_message] counts
    the message once and, unless it has expired, writes it to the history. *)
Lemma send_message_quiet (now : Z) (message : AgentMessage) w :
  quiet invoke ->
  exists (b : bool) w',
    send_message fromisoformat invoke now message w = (Ok b, w')
    /\ message_queue (router w') = message_queue (router w)
    /\ delivery_handlers (router w') = delivery_handlers (router w)
    /\ subscription_patterns (router w') = subscription_patterns (router w)
    /\ (if _is_expired fromisoformat now message
        then b = false
             /\ message_history (router w') = message_history (router w)
             /\ delivery_stats (router w') = bump_expired (delivery_stats (router w))
             /\ calls w' = calls w
        else message_history (router w') = append_capped message (message_history (router w))
             /\ delivery_stats (router w')
                = (if b then bump_delivered else bump_failed) (delivery_stats (router w))
             /\ calls w'
                = calls w ++ (if bool_decide (is_Some (delivery_handlers (router w)
                                                         !! to_agent message))
                              then [(to_agent message, message)] else [])).
Proof.
  intros Hq. unfold send_message, try_except.
  destruct (_is_expired fromisoformat now message).
  - cbn. exists false. eexists. split; [reflexivity|]. repeat split.
  - unfold _add_to_history, deliver, bind, gets, modify. cbn.
    destruct (delivery_handlers _ !! to_agent message) as [h|]; cbn.
    + match goal with |- context [invoke h message ?w0] =>
        pose proof (Hq h message w0) as Hr; destruct (invoke h message w0) as [[b|e] w1]
      end; cbn in Hr; subst w1.
      * exists b. destruct b; (eexists; split; [reflexivity|]; cbn; repeat split).
      * exists false. eexists. split; [reflexivity|]. cbn. repeat split.
    + exists false. eexists. split; [reflexivity|]. cbn. rewrite app_nil_r. repeat split.
Qed.

Lemma last_n_all {A : Type} (n : nat) (l : list A) : (length l <= n)%nat -> last_n n l = l.
Proof. intros Hl. unfold last_n. now replace (length l - n)%nat with 0%nat by lia. Qed.

Lemma append_capped_last_n (message : AgentMessage) (l : list AgentMessage) :
  append_capped message (last_n 1000 l) = last_n 1000 (l ++ [message]).
Proof.
  unfold append_capped, last_n.
  rewrite !length_app, length_drop. cbn [length].
  destruct (le_lt_dec 1000 (length l)) as [Hge|Hlt].
  - replace (length l - (length l - 1000) + 1)%nat with 1001%nat by lia.
    replace (length l + 1 - 1000)%nat with (S (length l - 1000)) by lia.
    cbn. rewrite drop_app_le by (rewrite length_drop; lia).
    rewrite drop_app_le by lia. rewrite drop_drop. do 2 f_equal. lia.
  - replace (length l - 1000)%nat with 0%nat by lia.
    replace (length l + 1 - 1000)%nat with 0%nat by lia.
    rewrite Nat.sub_0_r. cbn [drop].
    destruct (Z.ltb_spec 1000 (Z.of_nat (length l + 1))) as [Hc|Hc]; [lia|reflexivity].
Qed.

(** X12.  With handlers that leave the router alone, every call of
    [send_message] is counted exactly once, as delivered, failed or expired:
    after a run of calls the three counters have grown by the number of
    calls, "delivered" by the number of [True] answers, and "sent" and the
    message queue are as they were. *)
Theorem every_message_is_counted_once (messages : list (Z * AgentMessage)) w :
  quiet invoke ->
  exists (answers : list bool) w',
    send_all fromisoformat invoke messages w = (Ok answers, w')
    /\ length answers = length messages
    /\ sent (delivery_stats (router w')) = sent (delivery_stats (router w))
    /\ delivered (delivery_stats (router w'))
       = delivered (delivery_stats (router w)) + successes answers
    /\ expired (delivery_stats (router w'))
       = expired (delivery_stats (router w))
         + Z.of_nat (length messages) - Z.of_nat (length (unexpired fromisoformat messages))
    /\ total_messages (get_message_stats (router w'))
       = total_messages (get_message_stats (router w)) + Z.of_nat (length messages)
    /\ queue_size (get_message_stats (router w')) = queue_size (get_message_stats (router w)).
Proof.
  intros Hq. revert w. induction messages as [|[now message] rest IH]; intros w.
  - exists [], w. split; [reflexivity|]. unfold successes, unexpired. cbn.
    repeat split; lia.
  - destruct (send_message_quiet now message w Hq) as (b & w1 & E1 & Q1 & _ & _ & Hx).
    destruct (IH w1) as (bs & w2 & E2 & Hl & Hs & Hd & He & Ht & Hqs).
    exists (b :: bs), w2. split.
    { cbn [send_all]. unfold bind at 1. rewrite E1. unfold bind at 1. now rewrite E2. }
    split; [cbn; now rewrite Hl|].
    unfold get_message_stats, queue_size, total_messages in *. cbn [length].
    unfold unexpired, successes in *.
    destruct (_is_expired fromisoformat now message) eqn:Ex.
    + destruct Hx as (-> & _ & Hst & _).
      rewrite filter_cons_False by (intros Hc; cbn [fst snd] in Hc; congruence).
      rewrite filter_cons_False by (intros Hc; cbn [fst snd] in Hc; congruence).
      rewrite Hst in *. cbn in *.
      rewrite Q1 in Hqs. repeat split; try lia; try exact Hqs.
    + destruct Hx as (_ & Hst & _).
      rewrite (filter_cons_True
                 (fun nm : Z * AgentMessage => _is_expired fromisoformat nm.1 nm.2 = false))
        by exact Ex.
      cbn [fmap list_fmap length].
      rewrite Q1 in Hqs. rewrite Hst in *.
      destruct b.
      * rewrite filter_cons_True by (cbn [fst snd]; congruence). cbn in *.
        repeat split; try lia; try exact Hqs.
      * rewrite filter_cons_False by (intros Hc; cbn [fst snd] in Hc; congruence). cbn in *.
        repeat split; try lia; try exact Hqs.
Qed.

(** X13.  With handlers that leave the router alone, the history is the
    tail of what was sent: after a run of [send_message] calls it holds the
    last 1000 of the messages it held before followed by the messages of the
    run that had not expired, in the order of sending, whether or not their
    delivery succeeded. *)
Theorem history_keeps_the_last_thousand (messages : list (Z * AgentMessage)) w :
  quiet invoke ->
  (length (message_history (router w)) <= 1000)%nat ->
  exists (answers : list bool) w',
    send_all fromisoformat invoke messages w = (Ok answers, w')
    /\ message_history (router w')
       = last_n 1000 (message_history (router w) ++ unexpired fromisoformat messages)
    /\ (length (message_history (router w')) <= 1000)%nat.
Proof.
  intros Hq Hlen.
  assert (Hgen : forall (l : list AgentMessage) w,
            message_history (router w) = last_n 1000 l ->
            exists (answers : list bool) w',
              send_all fromisoformat invoke messages w = (Ok answers, w')
              /\ message_history (router w')
                 = last_n 1000 (l ++ unexpired fromisoformat messages)).
  { clear w Hlen. induction messages as [|[now message] rest IH]; intros l w Hl.
    - exists [], w. split; [reflexivity|]. unfold unexpired. cbn. now rewrite app_nil_r.
    - destruct (send_message_quiet now message w Hq) as (b & w1 & E1 & _ & _ & _ & Hx).
      unfold unexpired.
      destruct (_is_expired fromisoformat now message) eqn:Ex.
      + destruct Hx as (_ & Hh & _).
        rewrite filter_cons_False by (intros Hc; cbn [fst snd] in Hc; congruence).
        destruct (IH l w1) as (bs & w2 & E2 & Hh2); [congruence|].
        exists (b :: bs), w2. split; [|exact Hh2].
        cbn [send_all]. unfold bind at 1. rewrite E1. unfold bind at 1. now rewrite E2.
      + destruct Hx as (Hh & _). rewrite filter_cons_True by (cbn [fst snd]; congruence).
        destruct (IH (l ++ [message]) w1) as (bs & w2 & E2 & Hh2).
        { rewrite Hh, Hl. apply append_capped_last_n. }
        exists (b :: bs), w2. split.
        * cbn [send_all]. unfold bind at 1. rewrite E1. unfold bind at 1. now rewrite E2.
        * rewrite Hh2. cbn [fmap list_fmap]. now rewrite <- app_assoc. }
  destruct (Hgen (message_history (router w)) w) as (bs & w' & E & Hh).
  { symmetry. now apply last_n_all. }
  exists bs, w'. split; [exact E|]. split; [exact Hh|].
  rewrite Hh. unfold last_n. rewrite length_drop. lia.
Qed.

End Sending.

(** *** Broadcast *)

Lemma elem_of_subscribers_of (message : AgentMessage) (sp : gmap string (list string)) (a : string) :
  a ∈ subscribers_of message sp
  <-> exists p : string, _matches_pattern message p = true /\ subscribed a p sp.
Proof.
  unfold subscribers_of. rewrite elem_of_union_list. split.
  - intros (X & HX & Ha). apply list_elem_of_fmap in HX as ([p agents] & -> & Hin).
    apply elem_of_map_to_list in Hin. cbn in Ha.
    destruct (_matches_pattern message p) eqn:Hm; [|now apply elem_of_empty in Ha].
    exists p. split; [exact Hm|]. exists agents. split; [exact Hin|].
    now apply elem_of_list_to_set in Ha.
  - intros (p & Hm & agents & Hp & Ha).
    exists (list_to_set agents). split; [|now apply elem_of_list_to_set].
    apply list_elem_of_fmap. exists (p, agents). cbn. rewrite Hm.
    split; [reflexivity|now apply elem_of_map_to_list].
Qed.

Section Broadcasting.

Context {H : Type}.
Variable fromisoformat : string -> res datetime.
Variable invoke : H -> AgentMessage -> Py (World H) bool.
Variable visit : gset string -> list string.
Variable uuid4 : nat -> string.
Variable isoformat_now : nat -> string.
Variable clock : nat -> Z.

Implicit Types w : World H.



(** The calls that a broadcast adds to the log. *)
Lemma broadcast_loop_quiet (message : AgentMessage) (agents : list string) :
  quiet invoke ->
  NoDup agents ->
  forall (k : nat) (results : gmap string bool) w,
  exists (results' : gmap string bool) w' (new : list (string * AgentMessage)),
    broadcast_loop fromisoformat invoke uuid4 isoformat_now clock message k agents results w
    = (Ok results', w')
    /\ calls w' = calls w ++ new
    /\ NoDup new.*1
    /\ (forall a : string,
          a ∈ new.*1
          <-> a ∈ agents /\ a <> from_agent message
              /\ is_Some (delivery_handlers (router w) !! a))
    /\ Forall (fun c : string * AgentMessage =>
                 to_agent c.2 = c.1
                 /\ from_agent c.2 = from_agent message
                 /\ message_type c.2 = BROADCAST
                 /\ priority c.2 = priority message
                 /\ payload c.2 = payload message
                 /\ correlation_id c.2 = correlation_id message
                 /\ expires_at c.2 = None) new
    /\ delivery_handlers (router w') = delivery_handlers (router w)
    /\ subscription_patterns (router w') = subscription_patterns (router w)
    /\ sent (delivery_stats (router w')) = sent (delivery_stats (router w))
    /\ expired (delivery_stats (router w')) = expired (delivery_stats (router w)).
Proof.
  intros Hq. induction agents as [|b agents IH]; intros Hnd k results w.
  - exists results, w, []. split; [reflexivity|]. rewrite app_nil_r.
    split; [reflexivity|]. split; [constructor|]. split.
    + intros a. cbn. split; [intros Ha; now apply elem_of_nil in Ha|].
      intros [Ha _]. now apply elem_of_nil in Ha.
    + split; [constructor|repeat split].
  - apply NoDup_cons in Hnd as [Hb Hnd].
    cbn [broadcast_loop]. destruct (String.eqb_spec b (from_agent message)) as [->|Hne].
    + destruct (IH Hnd (S k) results w) as (r' & w' & new & E & Hc & Hn & Hin & Hall & Hrest).
      exists r', w', new. split; [exact E|]. split; [exact Hc|]. split; [exact Hn|].
      split; [|split; [exact Hall|exact Hrest]].
      intros a. rewrite Hin, elem_of_cons. split; [tauto|].
      intros [[->|?] [? ?]]; tauto.
    + destruct (send_message_quiet fromisoformat invoke (clock k)
                  (broadcast_copy uuid4 isoformat_now k message b) w Hq)
        as (ok & w1 & E1 & _ & Hh1 & Hp1 & Hx).
      assert (Hne' : _is_expired fromisoformat (clock k)
                       (broadcast_copy uuid4 isoformat_now k message b) = false)
        by reflexivity.
      rewrite Hne' in Hx. destruct Hx as (_ & Hs1 & Hc1). cbn [to_agent broadcast_copy] in Hc1.
      destruct (IH Hnd (S k) (<[b := ok]> results) w1)
        as (r' & w' & new & E & Hc & Hn & Hin & Hall & Hh & Hp & Hs & He).
      eexists r', w', (_ ++ new). split; [unfold bind; now rewrite E1|].
      split; [rewrite Hc, Hc1, <- app_assoc; reflexivity|].
      assert (Hnew : b ∉ new.*1).
      { intros Hbn. apply Hin in Hbn as [Hbn _]. contradiction. }
      split; [|split; [|split; [|split; [congruence|split; [congruence|]]]]].
      * destruct (bool_decide _); cbn; [|exact Hn]. apply NoDup_cons. now split.
      * intros a. rewrite fmap_app, elem_of_app, Hin, elem_of_cons, Hh1.
        destruct (bool_decide (is_Some (delivery_handlers (router w) !! b))) eqn:Hreg.
        -- apply bool_decide_eq_true in Hreg. cbn. rewrite list_elem_of_singleton.
           split; [intros [->|?]; tauto|]. intros [[->|?] [? ?]]; tauto.
        -- apply bool_decide_eq_false in Hreg. cbn. split.
           ++ intros [Ha|?]; [now apply elem_of_nil in Ha|tauto].
           ++ intros [[->|?] [? ?]]; tauto.
      * apply Forall_app. split; [|exact Hall].
        destruct (bool_decide _); constructor; [|constructor]. cbn. repeat split.
      * rewrite Hs, He, Hs1. now destruct ok.
Qed.

(** X15.  With handlers that leave the router alone, a broadcast calls
    the handler of every registered agent that subscribes to a matching
    pattern and is not the sender, each of them once and no other.  What the
    handler receives is a copy addressed to it, of type [BROADCAST], with the
    sender, priority, payload and correlation id of the original and without
    an expiry: the expiry of the original is not looked at, and no broadcast
    is ever counted as expired. *)
Theorem broadcast_calls_each_subscriber_once (message : AgentMessage) w :
  quiet invoke ->
  lists_elements visit ->
  exists (results : gmap string bool) w' (new : list (string * AgentMessage)),
    broadcast_message fromisoformat invoke visit uuid4 isoformat_now clock message w
    = (Ok results, w')
    /\ calls w' = calls w ++ new
    /\ NoDup new.*1
    /\ (forall a : string,
          a ∈ new.*1
          <-> a <> from_agent message
              /\ is_Some (delivery_handlers (router w) !! a)
              /\ exists p : string,
                   _matches_pattern message p = true /\ subscribed a p (patterns_of w))
    /\ Forall (fun c : string * AgentMessage =>
                 to_agent c.2 = c.1
                 /\ from_agent c.2 = from_agent message
                 /\ message_type c.2 = BROADCAST
                 /\ priority c.2 = priority message
                 /\ payload c.2 = payload message
                 /\ correlation_id c.2 = correlation_id message
                 /\ expires_at c.2 = None) new
    /\ expired (delivery_stats (router w')) = expired (delivery_stats (router w)).
Proof.
  intros Hq Hv. unfold broadcast_message, bind, gets.
  destruct (broadcast_loop_quiet message
              (visit (subscribers_of message (subscription_patterns (router w))))
              Hq (proj1 (Hv _)) 0 ∅ w)
    as (results & w' & new & E & Hc & Hn & Hin & Hall & _ & _ & _ & He).
  exists results, w', new. split; [exact E|]. split; [exact Hc|]. split; [exact Hn|].
  split; [|split; [exact Hall|exact He]].
  intros a. rewrite Hin, (proj2 (Hv _) a), elem_of_subscribers_of.
  unfold patterns_of. tauto.
Qed.

End Broadcasting.

(** *** Queries *)

Lemma conversation_loop_take (agent1 agent2 : string) (limit : Z)
  (messages conversation : list AgentMessage) :
  (length conversation < Z.to_nat (Z.max 1 limit))%nat ->
  conversation_loop agent1 agent2 limit messages conversation
  = take (Z.to_nat (Z.max 1 limit))
         (conversation ++ filter (fun m => between agent1 agent2 m = true) messages).
Proof.
  revert conversation. induction messages as [|m rest IH]; intros acc Hlen.
  - cbn. rewrite app_nil_r. symmetry. apply take_ge. lia.
  - cbn [conversation_loop]. destruct (between agent1 agent2 m) eqn:Hb.
    + rewrite filter_cons_True by exact Hb.
      rewrite length_app. cbn [length].
      destruct (Z.leb_spec limit (Z.of_nat (length acc + 1))) as [Hle|Hgt].
      * replace (acc ++ m :: filter _ rest) with ((acc ++ [m]) ++ filter (fun m => between agent1 agent2 m = true) rest)
          by now rewrite <- app_assoc.
        rewrite take_app_le by (rewrite length_app; cbn; lia).
        symmetry. apply take_ge. rewrite length_app. cbn. lia.
      * rewrite IH by (rewrite length_app; cbn; lia). now rewrite <- app_assoc.
    + rewrite filter_cons_False by congruence. now apply IH.
Qed.

Lemma between_sym (agent1 agent2 : string) (m : AgentMessage) :
  between agent1 agent2 m = between agent2 agent1 m.
Proof. unfold between. apply orb_comm. Qed.

(** X16.  [get_conversation_history] returns the most recent messages of
    the history that went between the two agents, in either direction, oldest
    first: the last [limit] of them, and the last one when [limit] is zero or
    negative, since the limit is only tested after a message has been taken.
    The order of the two agents makes no difference. *)
Theorem conversation_history_is_the_tail {H : Type}
  (agent1 agent2 : string) (limit : Z) (r : MessageRouter H) :
  get_conversation_history agent1 agent2 limit r
  = last_n (Z.to_nat (Z.max 1 limit))
      (filter (fun m => between agent1 agent2 m = true) (message_history r))
  /\ get_conversation_history agent1 agent2 limit r
     = get_conversation_history agent2 agent1 limit r.
Proof.
  assert (Hmain : forall a1 a2,
            get_conversation_history a1 a2 limit r
            = last_n (Z.to_nat (Z.max 1 limit))
                (filter (fun m => between a1 a2 m = true) (message_history r))).
  { intros a1 a2. unfold get_conversation_history, last_n.
    rewrite conversation_loop_take by (cbn; lia). cbn [app].
    rewrite filter_reverse, take_reverse, reverse_involutive. reflexivity. }
  split; [apply Hmain|]. rewrite !Hmain. f_equal.
  apply list_filter_iff. intros m. now rewrite between_sym.
Qed.

(** *** The theorems at concrete routers *)

Lemma dict_keys_lists_keys : lists_keys dict_keys.
Proof.
  intros sp k. unfold dict_keys. rewrite list_elem_of_fmap. split.
  - intros ([k' l] & -> & Hin). apply elem_of_map_to_list in Hin. cbn. eauto.
  - intros [l Hl]. exists (k, l). split; [reflexivity|now apply elem_of_map_to_list].
Qed.

Lemma set_elements_lists_elements : lists_elements set_elements.
Proof.
  intros X. split; [apply NoDup_elements|]. intros a. apply elem_of_elements.
Qed.

Lemma run_sample_quiet : quiet run_sample.
Proof. intros [] message w; reflexivity. Qed.

Lemma fresh_router_no_double : no_double_subscription (snd (register_agent "auditor" h_reject sample_world)).
Proof. intros q l Hl. cbn in Hl. now rewrite lookup_empty in Hl. Qed.

Lemma newsroom_no_double : no_double_subscription newsroom.
Proof.
  unfold newsroom.
  destruct (changes_effect dict_keys
              [Subscribe "worker" "alert"; Subscribe "auditor" "*"; Subscribe "api_server" "*";
               Subscribe "worker" "alert"]
              (snd (register_agent "auditor" h_reject sample_world))
              dict_keys_lists_keys fresh_router_no_double) as (w' & E & N & _).
  now rewrite E.
Qed.

Lemma unregistered_agent_is_forgotten_witness :
  exists w',
    unregister_agent dict_keys "worker" newsroom = (Ok tt, w')
    /\ delivery_handlers (router w') !! "worker" = None
    /\ (forall q : string, ~ subscribed "worker" q (patterns_of w')).
Proof.
  destruct (unregistered_agent_is_forgotten dict_keys "worker" newsroom
              dict_keys_lists_keys newsroom_no_double) as (w' & E & Hh & Hs & _).
  exists w'. auto.
Defined.

Lemma subscriptions_stay_duplicate_free_witness :
  exists w',
    changes dict_keys [Unsubscribe "worker" "alert"; Subscribe "worker" "*"; Unregister "auditor"]
      newsroom = (Ok tt, w')
    /\ no_double_subscription w'
    /\ is_Some (patterns_of w' !! "alert").
Proof.
  destruct (subscriptions_stay_duplicate_free dict_keys
              [Unsubscribe "worker" "alert"; Subscribe "worker" "*"; Unregister "auditor"]
              newsroom dict_keys_lists_keys newsroom_no_double) as (w' & E & N & K).
  exists w'. split; [exact E|]. split; [exact N|]. apply K. vm_compute. eauto.
Defined.

Lemma every_message_is_counted_once_witness :
  exists (answers : list bool) w',
    send_all iso_parser run_sample traffic newsroom = (Ok answers, w')
    /\ length answers = 3%nat
    /\ total_messages (get_message_stats (router w'))
       = total_messages (get_message_stats (router newsroom)) + 3.
Proof.
  destruct (every_message_is_counted_once iso_parser run_sample traffic newsroom
              run_sample_quiet) as (answers & w' & E & Hl & _ & _ & _ & Ht & _).
  exists answers, w'. auto.
Defined.

Lemma history_keeps_the_last_thousand_witness :
  exists (answers : list bool) w',
    send_all iso_parser run_sample traffic newsroom = (Ok answers, w')
    /\ message_history (router w') = [msg "worker" None; msg "nobody" None].
Proof.
  destruct (history_keeps_the_last_thousand iso_parser run_sample traffic newsroom
              run_sample_quiet) as (answers & w' & E & Hh & _).
  - vm_compute. lia.
  - exists answers, w'. split; [exact E|]. rewrite Hh. reflexivity.
Defined.


Lemma broadcast_calls_each_subscriber_once_witness :
  exists (results : gmap string bool) w' (new : list (string * AgentMessage)),
    broadcast_message iso_parser run_sample set_elements sample_uuid sample_stamp sample_now
      alert newsroom = (Ok results, w')
    /\ calls w' = calls newsroom ++ new
    /\ "worker" ∈ new.*1 /\ "auditor" ∈ new.*1
    /\ expired (delivery_stats (router w')) = 0.
Proof.
  destruct (broadcast_calls_each_subscriber_once iso_parser run_sample set_elements
              sample_uuid sample_stamp sample_now alert newsroom
              run_sample_quiet set_elements_lists_elements)
    as (results & w' & new & E & Hc & Hn & Hin & Hall & He).
  exists results, w', new. split; [exact E|]. split; [exact Hc|]. split; [|split].
  - apply Hin. split; [discriminate|]. split; [vm_compute; eauto|].
    exists "alert". split; [reflexivity|].
    exists ["worker"]. split; [reflexivity|]. now left.
  - apply Hin. split; [discriminate|]. split; [vm_compute; eauto|].
    exists "*". split; [reflexivity|].
    exists ["auditor"; "api_server"]. split; [reflexivity|]. now left.
  - rewrite He. reflexivity.
Defined.

End RouterOpsFacts.

Module ConversationsFacts.

Import Conversations.

Lemma dict_get_set_eq {V : Type} (k : string) (v : V) (d : list (string * V)) :
  dict_get k (dict_set k v d) = Some v.
Proof.
  induction d as [|[k' v'] d IH]; cbn.
  - now rewrite String.eqb_refl.
  - destruct (String.eqb_spec k' k) as [->|Hne]; cbn.
    + now rewrite String.eqb_refl.
    + destruct (String.eqb_spec k' k); [contradiction|exact IH].
Qed.

Lemma dict_get_set_ne {V : Type} (k k' : string) (v : V) (d : list (string * V)) :
  k <> k' -> dict_get k' (dict_set k v d) = dict_get k' d.
Proof.
  intros Hne. induction d as [|[k0 v0] d IH]; cbn.
  - destruct (String.eqb_spec k k'); [contradiction|reflexivity].
  - destruct (String.eqb_spec k0 k) as [->|Hk]; cbn.
    + destruct (String.eqb_spec k k'); [contradiction|reflexivity].
    + destruct (String.eqb_spec k0 k'); [reflexivity|exact IH].
Qed.

Lemma dict_get_Some {V : Type} (k : string) (v : V) (d : list (string * V)) :
  dict_get k d = Some v -> (k, v) ∈ d.
Proof.
  induction d as [|[k0 v0] d IH]; cbn; [discriminate|].
  destruct (String.eqb_spec k0 k) as [->|Hk].
  - intros [= ->]. now left.
  - intros Hg. right. now apply IH.
Qed.

Lemma dict_get_None {V : Type} (k : string) (d : list (string * V)) :
  dict_get k d = None <-> k ∉ d.*1.
Proof.
  induction d as [|[k0 v0] d IH]; cbn.
  - split; [intros _; apply not_elem_of_nil|reflexivity].
  - rewrite not_elem_of_cons. destruct (String.eqb_spec k0 k) as [->|Hk].
    + split; [discriminate|intros [Hc _]; contradiction].
    + rewrite IH. split; [intros Hn; split; [congruence|exact Hn]|tauto].
Qed.

Lemma dict_get_elem {V : Type} (k : string) (v : V) (d : list (string * V)) :
  NoDup d.*1 -> (k, v) ∈ d -> dict_get k d = Some v.
Proof.
  induction d as [|[k0 v0] d IH]; cbn; intros Hnd Hin; [now apply elem_of_nil in Hin|].
  apply NoDup_cons in Hnd as [Hk0 Hnd].
  apply elem_of_cons in Hin as [[= -> ->]|Hin].
  - now rewrite String.eqb_refl.
  - destruct (String.eqb_spec k0 k) as [->|Hk]; [|now apply IH].
    exfalso. apply Hk0. apply list_elem_of_fmap. now exists (k, v).
Qed.

Lemma dict_set_Forall {V : Type} (P : string * V -> Prop) (k : string) (v : V)
  (d : list (string * V)) :
  P (k, v) -> Forall P d -> Forall P (dict_set k v d).
Proof.
  intros Hv. induction 1 as [|[k0 v0] d Hx Hd IH]; cbn.
  - now repeat constructor.
  - destruct (String.eqb k0 k); constructor; assumption.
Qed.

Lemma dict_set_keys {V : Type} (k : string) (v : V) (d : list (string * V)) :
  (dict_set k v d).*1 = match dict_get k d with
                        | Some _ => d.*1
                        | None => d.*1 ++ [k]
                        end.
Proof.
  induction d as [|[k0 v0] d IH]; cbn; [reflexivity|].
  destruct (String.eqb_spec k0 k) as [->|Hk]; cbn; [reflexivity|].
  rewrite IH. now destruct (dict_get k d).
Qed.

Lemma dict_set_NoDup {V : Type} (k : string) (v : V) (d : list (string * V)) :
  NoDup d.*1 -> NoDup (dict_set k v d).*1.
Proof.
  intros Hnd. rewrite dict_set_keys. destruct (dict_get k d) eqn:Hg; [exact Hnd|].
  apply NoDup_app. split; [exact Hnd|]. split; [|apply NoDup_singleton].
  intros x Hx Hx'. apply list_elem_of_singleton in Hx' as ->.
  now apply dict_get_None in Hg.
Qed.

Section Properties.

Variable uuid4 : nat -> string.
Variable isoformat_now : nat -> string.

Lemma well_kept_get (m : Manager) (id : string) (conv : Conversation) :
  well_kept m ->
  dict_get id (active_conversations m) = Some conv ->
  conversation_id conv = id /\ coherent conv.
Proof.
  intros [_ Hall] Hg. apply dict_get_Some in Hg.
  rewrite Forall_forall in Hall. exact (Hall _ Hg).
Qed.

Lemma call_well_kept (c : Call) (m : Manager) :
  well_kept m -> well_kept (call uuid4 isoformat_now c m).
Proof.
  intros Hw. pose proof Hw as [Hnd Hall]. destruct c as [i ps t ctx|id|id reason]; cbn.
  - split; cbn; [now apply dict_set_NoDup|].
    apply dict_set_Forall; [|exact Hall]. cbn. split; [reflexivity|].
    split; [cbn; lia|left; repeat split].
  - unfold add_message_to_conversation.
    destruct (dict_get id (active_conversations m)) as [conv|] eqn:Hg; [|exact Hw].
    destruct (well_kept_get m id conv Hw Hg) as [Hid [Hc Hst]].
    split; cbn; [now apply dict_set_NoDup|].
    apply dict_set_Forall; [|exact Hall]. cbn. split; [exact Hid|].
    split; [cbn; lia|exact Hst].
  - unfold end_conversation.
    destruct (dict_get id (active_conversations m)) as [conv|] eqn:Hg; [|exact Hw].
    destruct (well_kept_get m id conv Hw Hg) as [Hid [Hc Hst]].
    split; cbn; [now apply dict_set_NoDup|].
    apply dict_set_Forall; [|exact Hall]. cbn. split; [exact Hid|].
    split; [exact Hc|right; cbn; eauto].
Qed.

Lemma calls_well_kept (cs : list Call) (m : Manager) :
  well_kept m -> well_kept (calls uuid4 isoformat_now cs m).
Proof.
  revert m. induction cs as [|c cs IH]; intros m Hw; [exact Hw|].
  cbn. apply IH. now apply call_well_kept.
Qed.

(** X17.  Whatever calls are made, every conversation of the manager is
    filed once, under its own id, and is either "active" without an end
    time or "completed" with the time and the reason of its end;
    [get_active_conversations] lists exactly the conversations that were not
    ended.  No call removes a conversation: an ended one stays in
    [active_conversations]. *)
Theorem conversations_are_well_kept (cs : list Call) :
  let m := calls uuid4 isoformat_now cs new_manager in
  well_kept m
  /\ (forall conv : Conversation,
        conv ∈ get_active_conversations m
        <-> conv ∈ (active_conversations m).*2 /\ end_time conv = None)
  /\ (forall (c : Call) (id : string),
        id ∈ (active_conversations m).*1 ->
        id ∈ (active_conversations (call uuid4 isoformat_now c m)).*1).
Proof.
  intros m.
  assert (Hw : well_kept m).
  { apply calls_well_kept. split; cbn; constructor. }
  split; [exact Hw|]. split.
  - intros conv. unfold get_active_conversations. rewrite list_elem_of_filter.
    split; intros [Ha Hin]; [|split; [|exact Ha]].
    + split; [exact Hin|].
      apply list_elem_of_fmap in Hin as ([id c] & -> & Hin).
      destruct Hw as [_ Hall]. rewrite Forall_forall in Hall.
      destruct (Hall _ Hin) as [_ [_ [(_ & He & _)|(Hs & _)]]]; [exact He|].
      cbn in *. congruence.
    + apply list_elem_of_fmap in Ha as ([id c] & -> & Ha).
      destruct Hw as [_ Hall]. rewrite Forall_forall in Hall.
      destruct (Hall _ Ha) as [_ [_ [(Hs & _)|(_ & [t Ht] & _)]]]; [exact Hs|].
      cbn in *. congruence.
  - intros c id Hid. destruct c as [i ps t ctx|id'|id' reason]; cbn.
    + rewrite dict_set_keys. destruct (dict_get _ _); [exact Hid|].
      apply elem_of_app. now left.
    + unfold add_message_to_conversation.
      destruct (dict_get id' (active_conversations m)) eqn:Hg; [|exact Hid].
      cbn. rewrite dict_set_keys, Hg. exact Hid.
    + unfold end_conversation.
      destruct (dict_get id' (active_conversations m)) eqn:Hg; [|exact Hid].
      cbn. rewrite dict_set_keys, Hg. exact Hid.
Qed.

Lemma call_counts (id : string) (c : Call) (m : Manager) (conv : Conversation) :
  unused uuid4 id m ->
  dict_get id (active_conversations m) = Some conv ->
  exists conv' : Conversation,
    dict_get id (active_conversations (call uuid4 isoformat_now c m)) = Some conv'
    /\ unused uuid4 id (call uuid4 isoformat_now c m)
    /\ message_count conv'
       = message_count conv + (if adds_to id c then 1 else 0)
    /\ (status conv' = "completed" <-> status conv = "completed" \/ ends id c = true).
Proof.
  intros Hu Hg. destruct c as [i ps t ctx|id'|id' reason]; cbn.
  - exists conv. split; [|split; [|split; [lia|]]].
    + rewrite dict_get_set_ne; [exact Hg|]. apply Hu. lia.
    + intros k Hk. apply Hu. cbn in Hk. lia.
    + split; [tauto|]. intros [?|?]; [assumption|discriminate].
  - unfold add_message_to_conversation.
    destruct (String.eqb_spec id' id) as [->|Hne].
    + rewrite Hg. cbn. rewrite dict_get_set_eq. eexists. split; [reflexivity|].
      split; [intros k Hk; apply Hu; cbn in Hk; lia|]. cbn. split; [reflexivity|].
      split; [tauto|]. intros [?|?]; [assumption|discriminate].
    + destruct (dict_get id' (active_conversations m)) eqn:Hg'; cbn.
      * rewrite dict_get_set_ne by exact Hne. exists conv. split; [exact Hg|].
        split; [intros k Hk; apply Hu; cbn in Hk; lia|]. split; [lia|].
        split; [tauto|]. intros [?|?]; [assumption|discriminate].
      * exists conv. split; [exact Hg|]. split; [exact Hu|]. split; [lia|].
        split; [tauto|]. intros [?|?]; [assumption|discriminate].
  - unfold end_conversation.
    destruct (String.eqb_spec id' id) as [->|Hne].
    + rewrite Hg. cbn. rewrite dict_get_set_eq. eexists. split; [reflexivity|].
      split; [intros k Hk; apply Hu; cbn in Hk; lia|]. cbn. split; [lia|].
      split; [now right|reflexivity].
    + destruct (dict_get id' (active_conversations m)) eqn:Hg'; cbn.
      * rewrite dict_get_set_ne by exact Hne. exists conv. split; [exact Hg|].
        split; [intros k Hk; apply Hu; cbn in Hk; lia|]. split; [lia|].
        split; [tauto|]. intros [?|?]; [assumption|discriminate].
      * exists conv. split; [exact Hg|]. split; [exact Hu|]. split; [lia|].
        split; [tauto|]. intros [?|?]; [assumption|discriminate].
Qed.

Lemma calls_count (id : string) (cs : list Call) (m : Manager) (conv : Conversation) :
  unused uuid4 id m ->
  dict_get id (active_conversations m) = Some conv ->
  exists conv' : Conversation,
    dict_get id (active_conversations (calls uuid4 isoformat_now cs m)) = Some conv'
    /\ message_count conv' = message_count conv + added id cs
    /\ (status conv' = "completed" <-> status conv = "completed" \/ ended id cs = true).
Proof.
  revert m conv. induction cs as [|c cs IH]; intros m conv Hu Hg.
  - exists conv. split; [exact Hg|]. unfold added. cbn. split; [lia|].
    split; [tauto|]. intros [?|?]; [assumption|discriminate].
  - destruct (call_counts id c m conv Hu Hg) as (conv1 & Hg1 & Hu1 & Hc1 & Hs1).
    destruct (IH _ conv1 Hu1 Hg1) as (conv2 & Hg2 & Hc2 & Hs2).
    exists conv2. split; [exact Hg2|]. split.
    + rewrite Hc2, Hc1. unfold added.
      destruct (adds_to id c) eqn:Ha.
      * rewrite filter_cons_True by exact Ha. cbn [length]. lia.
      * rewrite filter_cons_False by congruence. lia.
    + rewrite Hs2, Hs1. cbn [ended existsb]. rewrite orb_true_iff. unfold ended. tauto.
Qed.

(** X18.  When identifiers are never made up twice, the [message_count]
    of a conversation is the number of [add_message_to_conversation] calls
    made for it since it was started, whether they came before or after its
    end, and its status is "completed" exactly when [end_conversation] was
    called for it. *)
Theorem message_count_counts_every_message
  (initiator : string) (participants : list string) (topic : string)
  (context : option (gmap string string)) (before after : list Call) :
  fresh uuid4 ->
  let m := calls uuid4 isoformat_now before new_manager in
  let id := fst (start_conversation uuid4 isoformat_now initiator participants topic context m) in
  let m' := calls uuid4 isoformat_now
              (Start initiator participants topic context :: after) m in
  exists conv : Conversation,
    dict_get id (active_conversations m') = Some conv
    /\ message_count conv = added id after
    /\ (status conv = "completed" <-> ended id after = true)
    /\ (status conv = "active" <-> ended id after = false).
Proof.
  intros Hf m id m'. unfold m'. cbn [calls fold_left call].
  fold (calls uuid4 isoformat_now after
          (snd (start_conversation uuid4 isoformat_now initiator participants topic context m))).
  destruct (calls_count id after
              (snd (start_conversation uuid4 isoformat_now initiator participants topic context m))
              {| conversation_id := id; initiator := initiator; participants := participants;
                 topic := topic; context := default ∅ context; status := "active";
                 start_time := isoformat_now (asked m + 1); message_count := 0;
                 last_activity := isoformat_now (asked m + 2);
                 end_time := None; end_reason := None |})
    as (conv & Hg & Hc & Hs).
  - intros k Hk Heq. cbn in Hk. apply Hf in Heq. lia.
  - cbn. apply dict_get_set_eq.
  - exists conv. split; [exact Hg|]. split; [cbn [message_count] in Hc; lia|].
    assert (Hw : well_kept (calls uuid4 isoformat_now after
               (snd (start_conversation uuid4 isoformat_now initiator participants topic
                       context m)))).
    { apply calls_well_kept. apply (call_well_kept (Start initiator participants topic context)).
      apply calls_well_kept. split; cbn; constructor. }
    destruct (well_kept_get _ _ _ Hw Hg) as [_ [_ Hst]].
    cbn [status] in Hs. split.
    + rewrite Hs. split; [intros [?|?]; [discriminate|assumption]|now right].
    + destruct (ended id after).
      * split; [|discriminate]. intros Ha.
        assert (status conv = "completed") by (apply Hs; now right). congruence.
      * split; [reflexivity|]. intros _.
        destruct Hst as [(Ha & _)|(Hc' & _)]; [exact Ha|].
        apply Hs in Hc' as [?|?]; discriminate.
Qed.

End Properties.

Lemma sample_uuid_fresh : fresh sample_uuid.
Proof.
  intros j k Hjk. unfold sample_uuid in Hjk.
  apply (inj (String.append "conv-")) in Hjk. exact (inj pretty j k Hjk).
Qed.

Lemma message_count_counts_every_message_witness :
  exists conv : Conversation,
    dict_get "conv-3"
      (active_conversations
         (calls sample_uuid sample_stamp
            [Start "planner" ["tester"] "release" None;
             AddMessage "conv-3"; End "conv-3" "done"; AddMessage "conv-3"; AddMessage "conv-0"]
            (calls sample_uuid sample_stamp [Start "planner" ["coder"] "design" None]
               new_manager)))
    = Some conv
    /\ message_count conv = 2
    /\ status conv = "completed".
Proof.
  destruct (message_count_counts_every_message sample_uuid sample_stamp
              "planner" ["tester"] "release" None
              [Start "planner" ["coder"] "design" None]
              [AddMessage "conv-3"; End "conv-3" "done"; AddMessage "conv-3"; AddMessage "conv-0"]
              sample_uuid_fresh) as (conv & Hg & Hc & Hs & _).
  exists conv. split; [exact Hg|]. split; [exact Hc|]. now apply Hs.
Defined.

End ConversationsFacts.

Module WorkflowsFacts.

Import Router RouterOps Workflows.

Section Properties.

Context {H : Type}.
Variable fromisoformat : string -> res datetime.
Variable invoke : H -> AgentMessage -> Py (World H) bool.
Variable uuid4 : nat -> string.
Variable isoformat_now : nat -> string.
Variable clock : nat -> Z.

Implicit Types c : Coordinator H.

Lemma execute_unknown (id : string) c :
  workflows c !! id = None -> execute_workflow_step fromisoformat invoke uuid4 isoformat_now clock id c = (Ok false, c).
Proof. intros Hn. unfold execute_workflow_step, bind, gets. now rewrite Hn. Qed.

Lemma execute_not_running (id : string) (wf : Workflow) c :
  workflows c !! id = Some wf -> status wf <> "running" -> execute_workflow_step fromisoformat invoke uuid4 isoformat_now clock id c = (Ok false, c).
Proof.
  intros Hs Hst. unfold execute_workflow_step, bind, gets. rewrite Hs.
  destruct (String.eqb_spec (status wf) "running"); [contradiction|reflexivity].
Qed.

(** [execute_workflow_step] does nothing but answer [False] for an
    id it does not know and for a workflow that is "completed" or "failed":
    no message is sent, no counter moves, and the workflow stays as it
    is. *)
Theorem finished_workflows_are_left_alone (id : string) c :
  (forall wf : Workflow, workflows c !! id = Some wf -> status wf <> "running") ->
  execute_workflow_step fromisoformat invoke uuid4 isoformat_now clock id c = (Ok false, c).
Proof.
  intros Hst. destruct (workflows c !! id) as [wf|] eqn:Hw.
  - apply (execute_not_running id wf); [exact Hw|now apply Hst].
  - now apply execute_unknown.
Qed.

(** What [send_message] does for a message without expiry whose
    recipient accepts it. *)
Lemma send_message_accepted (now : Z) (message : AgentMessage) (w : World H) :
  all_accept invoke ->
  expires_at message = None ->
  is_Some (delivery_handlers (router w) !! to_agent message) ->
  send_message fromisoformat invoke now message w
  = (Ok true,
     with_stats bump_delivered
       (log_call (to_agent message) message (with_history (append_capped message) w))).
Proof.
  intros Ha He [h Hh]. unfold send_message, try_except, _is_expired. rewrite He.
  unfold _add_to_history, deliver, bind, gets, modify. cbn. rewrite Hh. cbn.
  now rewrite Ha.
Qed.

Lemma send_message_unregistered (now : Z) (message : AgentMessage) (w : World H) :
  expires_at message = None ->
  delivery_handlers (router w) !! to_agent message = None ->
  send_message fromisoformat invoke now message w
  = (Ok false, with_stats bump_failed (with_history (append_capped message) w)).
Proof.
  intros He Hh. unfold send_message, try_except, _is_expired. rewrite He.
  unfold _add_to_history, deliver, bind, gets, modify. cbn. now rewrite Hh.
Qed.

Lemma execute_ready_step (id : string) (wf : Workflow) (step : Step) c :
  all_accept invoke ->
  workflows c !! id = Some wf ->
  status wf = "running" ->
  steps wf !! current_step wf = Some step ->
  ready (delivery_handlers (router (world c))) step ->
  exists (agent : string) (payload : gmap string string),
    step = {| step_agent := Some agent; step_payload := Some payload |}
    /\ execute_workflow_step fromisoformat invoke uuid4 isoformat_now clock id c
       = (Ok true, stepped uuid4 isoformat_now id wf agent payload c).
Proof.
  intros Ha Hw Hst Hstep [[payload Hp] (agent & Hag & Hreg)].
  destruct step as [sa sp]. cbn in Hp, Hag. subst sa sp.
  exists agent, payload. split; [reflexivity|].
  unfold execute_workflow_step, bind at 1, gets. rewrite Hw, Hst, Hstep. cbn.
  unfold send_step, bind, tick, on_router. cbn.
  rewrite send_message_accepted by (try exact Ha; try reflexivity; exact Hreg).
  reflexivity.
Qed.

Lemma result_key_inj (j k : nat) : result_key j = result_key k -> j = k.
Proof.
  unfold result_key. intros Hjk. apply (inj (String.append "step_")) in Hjk.
  exact (inj pretty j k Hjk).
Qed.

(** The calls that take a running workflow through its remaining [n]
    steps. *)
Lemma run_remaining (id : string) (n : nat) :
  all_accept invoke ->
  forall (wf : Workflow) c,
    workflows c !! id = Some wf ->
    status wf = "running" ->
    (current_step wf + n = length (steps wf))%nat ->
    Forall (ready (delivery_handlers (router (world c)))) (drop (current_step wf) (steps wf)) ->
    exists (wf' : Workflow) (c' : Coordinator H),
      execute_steps fromisoformat invoke uuid4 isoformat_now clock n id c
      = (Ok (replicate n true), c')
      /\ workflows c' !! id = Some wf'
      /\ status wf' = "running"
      /\ current_step wf' = length (steps wf)
      /\ steps wf' = steps wf
      /\ errors wf' = errors wf
      /\ end_time wf' = end_time wf
      /\ (forall k : nat,
            (current_step wf <= k < length (steps wf))%nat ->
            results wf' !! result_key k = Some {[ "status" := "completed" ]})
      /\ (forall key : string,
            (forall k : nat, (current_step wf <= k)%nat -> key <> result_key k) ->
            results wf' !! key = results wf !! key)
      /\ delivered (delivery_stats (router (world c')))
         = delivered (delivery_stats (router (world c))) + Z.of_nat n
      /\ failed (delivery_stats (router (world c')))
         = failed (delivery_stats (router (world c)))
      /\ (forall id' : string, id' <> id -> workflows c' !! id' = workflows c !! id').
Proof.
  intros Ha. induction n as [|n IH]; intros wf c Hw Hst Hn Hready.
  - exists wf, c. split; [reflexivity|]. split; [exact Hw|]. split; [exact Hst|].
    split; [lia|]. repeat split; lia.
  - destruct (steps wf !! current_step wf) as [step|] eqn:Hstep.
    2:{ apply lookup_ge_None in Hstep. lia. }
    assert (Hr : ready (delivery_handlers (router (world c))) step).
    { rewrite Forall_forall in Hready. apply Hready.
      apply list_elem_of_lookup. exists 0%nat. rewrite lookup_drop.
      now rewrite Nat.add_0_r. }
    destruct (execute_ready_step id wf step c Ha Hw Hst Hstep Hr)
      as (agent & payload & -> & E).
    destruct (IH (advanced wf) (stepped uuid4 isoformat_now id wf agent payload c))
      as (wf' & c' & E' & Hw' & Hst' & Hcs & Hsteps & Herr & Hend & Hres & Hkeep & Hd & Hf & Ho).
    + cbn. apply lookup_insert_eq.
    + exact Hst.
    + cbn. lia.
    + cbn. rewrite Forall_forall in Hready |- *. intros s Hs. apply Hready.
      apply list_elem_of_lookup in Hs as [i Hi]. rewrite lookup_drop in Hi.
      apply list_elem_of_lookup. exists (S i). rewrite lookup_drop.
      now replace (current_step wf + S i)%nat with (S (current_step wf) + i)%nat by lia.
    + exists wf', c'. split.
      { cbn [execute_steps]. unfold bind at 1. rewrite E. unfold bind at 1. now rewrite E'. }
      split; [exact Hw'|]. split; [exact Hst'|]. split; [exact Hcs|]. split; [exact Hsteps|].
      split; [exact Herr|]. split; [exact Hend|]. split; [|split; [|split; [|split]]].
      * intros k Hk. destruct (decide (k = current_step wf)) as [->|Hne].
        -- rewrite Hkeep.
           ++ cbn. apply lookup_insert_eq.
           ++ intros k' Hk' Heq. cbn in Hk'. apply result_key_inj in Heq. lia.
        -- apply Hres. cbn. lia.
      * intros key Hkey. rewrite Hkeep.
        -- cbn. apply lookup_insert_ne. fold (result_key (current_step wf)).
           intros Heq. apply (Hkey (current_step wf)); [lia|now symmetry].
        -- intros k Hk. apply Hkey. cbn in Hk. lia.
      * rewrite Hd. cbn. lia.
      * rewrite Hf. reflexivity.
      * intros id' Hid. rewrite Ho by exact Hid. cbn. now apply lookup_insert_ne.
Qed.

(** X19.  When every handler accepts, a running workflow whose remaining
    steps each have a payload and name a registered agent goes through them
    one call at a time: with [n] steps remaining, the next [n] calls of
    [execute_workflow_step] answer [True], send one message each and record
    one result each under ["step_k"]; the call after them answers [True] too
    and only marks the workflow "completed"; every later call answers
    [False]. *)
Theorem workflow_runs_to_completion (id : string) (wf : Workflow) c :
  all_accept invoke ->
  workflows c !! id = Some wf ->
  status wf = "running" ->
  (current_step wf <= length (steps wf))%nat ->
  Forall (ready (delivery_handlers (router (world c)))) (drop (current_step wf) (steps wf)) ->
  let n := (length (steps wf) - current_step wf)%nat in
  exists (wf' : Workflow) (c' : Coordinator H),
    execute_steps fromisoformat invoke uuid4 isoformat_now clock (n + 2) id c
    = (Ok (replicate (n + 1) true ++ [false]), c')
    /\ workflows c' !! id = Some wf'
    /\ status wf' = "completed"
    /\ is_Some (end_time wf')
    /\ current_step wf' = length (steps wf)
    /\ errors wf' = errors wf
    /\ (forall k : nat,
          (current_step wf <= k < length (steps wf))%nat ->
          results wf' !! result_key k = Some {[ "status" := "completed" ]})
    /\ delivered (delivery_stats (router (world c')))
       = delivered (delivery_stats (router (world c))) + Z.of_nat n.
Proof.
  intros Ha Hw Hst Hle Hready n.
  destruct (run_remaining id n Ha wf c Hw Hst ltac:(lia) Hready)
    as (wf1 & c1 & E1 & Hw1 & Hst1 & Hcs1 & Hsteps1 & Herr1 & Hend1 & Hres1 & _ & Hd1 & _ & _).
  assert (Hlast : steps wf1 !! current_step wf1 = None).
  { apply lookup_ge_None. rewrite Hcs1, Hsteps1. lia. }
  set (c2 := set_workflow id (completed (isoformat_now (asked c1)) wf1)
               {| world := world c1; workflows := workflows c1;
                  workflow_templates := workflow_templates c1; asked := S (asked c1) |}).
  assert (E2 : execute_workflow_step fromisoformat invoke uuid4 isoformat_now clock id c1
               = (Ok true, c2)).
  { unfold execute_workflow_step, bind at 1, gets. rewrite Hw1, Hst1, Hlast. reflexivity. }
  assert (E3 : execute_workflow_step fromisoformat invoke uuid4 isoformat_now clock id c2
               = (Ok false, c2)).
  { apply (execute_not_running id (completed (isoformat_now (asked c1)) wf1)).
    - cbn. apply lookup_insert_eq.
    - discriminate. }
  exists (completed (isoformat_now (asked c1)) wf1), c2. split.
  - clear - E1 E2 E3. revert c E1. generalize n. intros m. induction m as [|m IH]; intros c E1.
    + cbn in E1. injection E1 as <-. cbn. unfold bind. rewrite E2, E3. reflexivity.
    + cbn [execute_steps Nat.add] in *. unfold bind at 1 in E1. unfold bind at 1.
      destruct (execute_workflow_step _ _ _ _ _ id c) as [[b|e] c0]; [|discriminate].
      unfold bind at 1 in E1. unfold bind at 1.
      destruct (execute_steps _ _ _ _ _ m id c0) as [[bs|e] c3] eqn:Em; [|discriminate].
      cbn in E1. injection E1 as -> -> ->.
      rewrite (IH c0 Em). reflexivity.
  - split; [cbn; apply lookup_insert_eq|]. split; [reflexivity|]. split; [cbn; eauto|].
    split; [exact Hcs1|]. split; [exact Herr1|]. split; [exact Hres1|exact Hd1].
Qed.

(** X20.  A step that lacks its agent or its payload, or whose message
    [send_message] answers with [False], fails the workflow:
    [execute_workflow_step] answers [False], sets the status to "failed" and
    adds one entry to [errors], while [current_step] and [results] stay as
    they are; for a step that lacks a key no message is made or sent.  The
    workflow is then left alone by every later call. *)
Theorem failed_step_stops_the_workflow (id : string) (wf : Workflow) (step : Step) c :
  workflows c !! id = Some wf ->
  status wf = "running" ->
  steps wf !! current_step wf = Some step ->
  (step_agent step = None
   \/ step_payload step = None
   \/ exists (agent : string) (payload : gmap string string),
        step = {| step_agent := Some agent; step_payload := Some payload |}
        /\ fst (send_message fromisoformat invoke (clock (S (asked c)))
                  (step_message uuid4 isoformat_now id agent payload c) (world c))
           = Ok false) ->
  exists c' : Coordinator H,
    execute_workflow_step fromisoformat invoke uuid4 isoformat_now clock id c = (Ok false, c')
    /\ workflows c' !! id = Some (failed_with (failure_text wf step) wf)
    /\ (step_agent step = None \/ step_payload step = None ->
        world c' = world c /\ asked c' = asked c)
    /\ execute_workflow_step fromisoformat invoke uuid4 isoformat_now clock id c' = (Ok false, c').
Proof.
  intros Hw Hst Hstep Hcause.
  unfold execute_workflow_step at 1, bind at 1, gets. rewrite Hw, Hst, Hstep. cbn.
  destruct step as [[agent|] [payload|]]; cbn; cbn in Hcause.
  - destruct Hcause as [[=]|[[=]|(agent' & payload' & [= <- <-] & Hsend)]].
    unfold send_step, bind, tick, on_router. cbn.
    unfold step_message in Hsend.
    destruct (send_message _ _ _ _ (world c)) as [r w'] eqn:Es. cbn in Hsend. subst r. cbn.
    eexists. split; [reflexivity|]. cbn. rewrite lookup_insert_eq.
    split; [reflexivity|]. split; [intros [[=]|[=]]|]. reflexivity.
  - eexists. split; [reflexivity|]. cbn. rewrite lookup_insert_eq.
    split; [reflexivity|]. split; [now split|]. reflexivity.
  - eexists. split; [reflexivity|]. cbn. rewrite lookup_insert_eq.
    split; [reflexivity|]. split; [now split|]. reflexivity.
  - eexists. split; [reflexivity|]. cbn. rewrite lookup_insert_eq.
    split; [reflexivity|]. split; [now split|]. reflexivity.
Qed.

(** X21.  [start_workflow] raises [ValueError] for a template name it
    does not know and changes nothing; for a template without ["steps"] it
    raises [KeyError] and stores no workflow; otherwise it returns a new id
    under which a workflow is stored that is "running" at step 0 with the
    steps of the template, no results and no errors. *)
Theorem start_workflow_needs_a_template
  (name initiator : string) (parameters : gmap string string) c :
  (workflow_templates c !! name = None ->
   start_workflow uuid4 isoformat_now name initiator parameters c = (Raise ValueError, c))
  /\ (forall t : Template,
        workflow_templates c !! name = Some t ->
        template_steps t = None ->
        exists c' : Coordinator H,
          start_workflow uuid4 isoformat_now name initiator parameters c = (Raise KeyError, c')
          /\ workflows c' = workflows c
          /\ world c' = world c)
  /\ (forall (t : Template) (l : list Step),
        workflow_templates c !! name = Some t ->
        template_steps t = Some l ->
        exists (c' : Coordinator H) (wf : Workflow),
          start_workflow uuid4 isoformat_now name initiator parameters c
          = (Ok (uuid4 (asked c)), c')
          /\ get_workflow_status (uuid4 (asked c)) c' = Some wf
          /\ status wf = "running"
          /\ current_step wf = 0%nat
          /\ steps wf = l
          /\ results wf = ∅
          /\ errors wf = []
          /\ world c' = world c).
Proof.
  unfold start_workflow, bind, gets, tick, subscript. split; [|split].
  - intros Hn. rewrite Hn. now rewrite bool_decide_false by (intros [? ?]; discriminate).
  - intros t Ht Hs. rewrite Ht. rewrite bool_decide_true by eauto. cbn. rewrite Ht, Hs.
    cbn. eexists. split; [reflexivity|]. split; reflexivity.
  - intros t l Ht Hs. rewrite Ht. rewrite bool_decide_true by eauto. cbn. rewrite Ht, Hs.
    cbn. eexists _, _. split; [reflexivity|]. unfold get_workflow_status. cbn.
    rewrite lookup_insert_eq. repeat split.
Qed.

End Properties.

Lemma accept_all_all_accept : all_accept accept_all.
Proof. intros [] message w. reflexivity. Qed.

Lemma finished_workflows_are_left_alone_witness :
  execute_workflow_step iso_parser accept_all sample_uuid sample_stamp sample_clock "wf-9" release
  = (Ok false, release).
Proof.
  apply finished_workflows_are_left_alone. intros wf Hwf. vm_compute in Hwf. discriminate.
Defined.

Lemma workflow_runs_to_completion_witness :
  exists (wf' : Workflow) (c' : Coordinator unit),
    execute_steps iso_parser accept_all sample_uuid sample_stamp sample_clock 4 "wf-0" release
    = (Ok [true; true; true; false], c')
    /\ workflows c' !! "wf-0" = Some wf'
    /\ status wf' = "completed"
    /\ current_step wf' = 2%nat
    /\ delivered (delivery_stats (router (world c'))) = 2.
Proof.
  destruct (workflow_runs_to_completion iso_parser accept_all sample_uuid sample_stamp
              sample_clock "wf-0"
              {| workflow_id := "wf-0"; template_name := "release"; initiator := "api_server";
                 parameters := ∅; status := "running"; start_time := "t1"; current_step := 0;
                 steps := default [] (template_steps release_template);
                 results := ∅; errors := []; end_time := None |}
              release accept_all_all_accept)
    as (wf' & c' & E & Hw & Hst & _ & Hcs & _ & _ & Hd).
  - reflexivity.
  - reflexivity.
  - cbn. lia.
  - cbn. repeat constructor; cbn; eauto.
  - exists wf', c'. split; [exact E|]. split; [exact Hw|]. split; [exact Hst|].
    split; [exact Hcs|exact Hd].
Defined.

Lemma failed_step_stops_the_workflow_witness :
  exists c' : Coordinator unit,
    execute_workflow_step iso_parser accept_all sample_uuid sample_stamp sample_clock "wf-0" stale
    = (Ok false, c')
    /\ (status <$> workflows c' !! "wf-0") = Some "failed"
    /\ (errors <$> workflows c' !! "wf-0") = Some ["Step 1 failed"]
    /\ (current_step <$> workflows c' !! "wf-0") = Some 1%nat.
Proof.
  destruct (failed_step_stops_the_workflow iso_parser accept_all sample_uuid sample_stamp
              sample_clock "wf-0"
              (advanced
                 {| workflow_id := "wf-0"; template_name := "review"; initiator := "api_server";
                    parameters := ∅; status := "running"; start_time := "t1";
                    current_step := 0;
                    steps := default [] (template_steps stale_template);
                    results := ∅; errors := []; end_time := None |})
              {| step_agent := Some "reviewer"; step_payload := Some {[ "type" := "review" ]} |}
              stale)
    as (c' & E & Hw & _).
  - reflexivity.
  - reflexivity.
  - reflexivity.
  - right. right. eexists _, _. split; reflexivity.
  - exists c'. split; [exact E|]. rewrite Hw. repeat split.
Defined.

End WorkflowsFacts.

Module MonitorOpsFacts.

Import Monitor MonitorOps.

Section Properties.

Context {F : Type}.
Variable fzero : F.
Variable of_int : Z -> F.
Variable fadd fmul fdiv : F -> F -> F.
Variable clock : nat -> string.

Implicit Types w : World (F := F).

(** [_update_agent_state] returns normally, sets the state of the agent,
    and leaves the histories and the relationships alone. *)
Lemma update_agent_state_effect (a : string) (st : AgentState) w :
  exists w',
    _update_agent_state clock a st w = (Ok tt, w')
    /\ max_history_size (monitor w') = max_history_size (monitor w)
    /\ activity_history (monitor w') = activity_history (monitor w)
    /\ message_flows (monitor w') = message_flows (monitor w)
    /\ agent_relationships (monitor w') = agent_relationships (monitor w)
    /\ agent_states (monitor w') = <[a := st]> (agent_states (monitor w)).
Proof.
  destruct (agent_metrics (monitor w) !! a) as [x|] eqn:Hx.
  - rewrite (MonitorFacts.update_agent_state_known clock a st x w Hx).
    eexists. split; [reflexivity|]. repeat split.
  - rewrite (MonitorFacts.update_agent_state_unknown clock a st w Hx).
    eexists. split; [reflexivity|]. repeat split.
Qed.

Local Ltac after_update a st w w1 :=
  let E := fresh "E" in
  let Hmax := fresh "Hmax" in
  let Hact := fresh "Hact" in
  let Hfl := fresh "Hfl" in
  let Hrel := fresh "Hrel" in
  let Hst := fresh "Hst" in
  destruct (update_agent_state_effect a st w) as (w1 & E & Hmax & Hact & Hfl & Hrel & Hst);
  rewrite E; clear E.

Lemma log_effect (e : Event) w :
  exists w' (a : AgentActivity (F := F)),
    log fzero of_int fadd fmul fdiv clock e w = (Ok tt, w')
    /\ max_history_size (monitor w') = max_history_size (monitor w)
    /\ activity_history (monitor w')
       = deque_append (max_history_size (monitor w)) a (activity_history (monitor w))
    /\ a_agent_id a = event_agent e
    /\ a_activity_type a = event_type e
    /\ a_state a = event_state e
    /\ agent_states (monitor w') = <[event_agent e := event_state e]> (agent_states (monitor w))
    /\ message_flows (monitor w')
       = match e with
         | MessageSent from to id type size =>
             deque_append (max_history_size (monitor w))
               {| f_message_id := id; f_from_agent := from; f_to_agent := to;
                  f_message_type := type; f_timestamp := clock (ticks w);
                  f_direction := OUTGOING; f_payload_size := size |}
               (message_flows (monitor w))
         | _ => message_flows (monitor w)
         end
    /\ agent_relationships (monitor w')
       = match e with
         | MessageSent from to _ _ _ =>
             add_peer to from (add_peer from to (agent_relationships (monitor w)))
         | _ => agent_relationships (monitor w)
         end.
Proof.
  destruct e as [a name caps|from to id type size|to from id type size|a task details
                |a task time summary|a task error]; cbn [log event_agent event_type event_state].
  - unfold register_agent, bind, modify, store_metrics, _get_timestamp. cbn.
    eexists _, _. split; [reflexivity|]. cbn. repeat split.
  - unfold log_message_sent. unfold bind at 1. unfold _get_timestamp at 1.
    unfold bind at 1.
    match goal with |- context [_update_agent_state clock from COMMUNICATING ?w0] =>
      after_update from COMMUNICATING w0 w1 end.
    unfold bind, gets, modify, store_metrics, metrics_of, subscript. cbn.
    destruct (agent_metrics (monitor w1) !! from) as [x|] eqn:Hx.
    + rewrite bool_decide_true by eauto. cbn. rewrite Hx. cbn.
      eexists _, _. split; [reflexivity|]. cbn in *.
      rewrite Hmax, Hact, Hfl, Hrel, Hst. repeat split.
    + rewrite bool_decide_false by (intros [? ?]; discriminate). cbn.
      rewrite lookup_insert_eq. cbn.
      eexists _, _. split; [reflexivity|]. cbn in *.
      rewrite Hmax, Hact, Hfl, Hrel, Hst. repeat split.
  - unfold log_message_received. unfold bind at 1. unfold _get_timestamp at 1.
    unfold bind at 1.
    match goal with |- context [_update_agent_state clock to PROCESSING ?w0] =>
      after_update to PROCESSING w0 w1 end.
    unfold bind, gets, modify, store_metrics, metrics_of, subscript. cbn.
    destruct (agent_metrics (monitor w1) !! to) as [x|] eqn:Hx.
    + rewrite bool_decide_true by eauto. cbn. rewrite Hx. cbn.
      eexists _, _. split; [reflexivity|]. cbn in *.
      rewrite Hmax, Hact, Hfl, Hrel, Hst. repeat split.
    + rewrite bool_decide_false by (intros [? ?]; discriminate). cbn.
      rewrite lookup_insert_eq. cbn.
      eexists _, _. split; [reflexivity|]. cbn in *.
      rewrite Hmax, Hact, Hfl, Hrel, Hst. repeat split.
  - unfold log_processing_start. unfold bind at 1.
    after_update a PROCESSING w w1.
    unfold bind, modify, _get_timestamp. cbn.
    eexists _, _. split; [reflexivity|]. cbn.
    rewrite Hmax, Hact, Hfl, Hrel, Hst. repeat split.
  - unfold log_processing_complete. unfold bind at 1.
    after_update a COMPLETE w w1.
    unfold bind, gets, modify, store_metrics, metrics_of, subscript, _get_timestamp, start_timer.
    cbn.
    destruct (agent_metrics (monitor w1) !! a) as [x|] eqn:Hx.
    + rewrite bool_decide_true by eauto. cbn. rewrite Hx. cbn.
      eexists _, _. split; [reflexivity|]. cbn.
      rewrite Hmax, Hact, Hfl, Hrel, Hst. repeat split.
    + rewrite bool_decide_false by (intros [? ?]; discriminate). cbn.
      eexists _, _. split; [reflexivity|]. cbn.
      rewrite Hmax, Hact, Hfl, Hrel, Hst. repeat split.
  - unfold log_processing_error. unfold bind at 1.
    after_update a ERROR w w1.
    unfold bind, gets, modify, store_metrics, metrics_of, subscript, _get_timestamp, start_timer.
    cbn.
    destruct (agent_metrics (monitor w1) !! a) as [x|] eqn:Hx.
    + rewrite bool_decide_true by eauto. cbn. rewrite Hx. cbn.
      eexists _, _. split; [reflexivity|]. cbn.
      rewrite Hmax, Hact, Hfl, Hrel, Hst. repeat split.
    + rewrite bool_decide_false by (intros [? ?]; discriminate). cbn.
      eexists _, _. split; [reflexivity|]. cbn.
      rewrite Hmax, Hact, Hfl, Hrel, Hst. repeat split.
Qed.




Lemma peer_add_peer (rel : gmap string (gset string)) (a b x y : string) :
  peer (add_peer a b rel) x y <-> peer rel x y \/ (x = a /\ y = b).
Proof.
  unfold peer, add_peer. destruct (decide (x = a)) as [->|Hne].
  - rewrite lookup_insert_eq. cbn. rewrite elem_of_union, elem_of_singleton. tauto.
  - rewrite lookup_insert_ne by congruence. tauto.
Qed.

Lemma log_all_relationships (es : list Event) :
  forall w,
    symmetric (agent_relationships (monitor w)) ->
    exists w',
      log_all fzero of_int fadd fmul fdiv clock es w = (Ok tt, w')
      /\ symmetric (agent_relationships (monitor w'))
      /\ (forall a b : string,
            peer (agent_relationships (monitor w)) a b ->
            peer (agent_relationships (monitor w')) a b)
      /\ (forall (from to id type : string) (size : Z),
            MessageSent from to id type size ∈ es ->
            peer (agent_relationships (monitor w')) from to
            /\ peer (agent_relationships (monitor w')) to from).
Proof.
  induction es as [|e es IH]; intros w Hsym.
  - exists w. split; [reflexivity|]. split; [exact Hsym|]. split; [auto|].
    intros from to id type size Hin. now apply elem_of_nil in Hin.
  - destruct (log_effect e w) as (w1 & a & E1 & _ & _ & _ & _ & _ & _ & _ & Hrel).
    assert (Hsym1 : symmetric (agent_relationships (monitor w1))).
    { rewrite Hrel. destruct e; try exact Hsym.
      intros x y. rewrite !peer_add_peer. intros [[Hp|[-> ->]]|[-> ->]]; auto. }
    assert (Hkeep1 : forall x y, peer (agent_relationships (monitor w)) x y ->
                                 peer (agent_relationships (monitor w1)) x y).
    { intros x y Hp. rewrite Hrel. destruct e; try exact Hp.
      rewrite !peer_add_peer. auto. }
    destruct (IH w1 Hsym1) as (w2 & E2 & Hsym2 & Hkeep2 & Hsent2).
    exists w2. split; [cbn [log_all]; unfold bind; now rewrite E1|].
    split; [exact Hsym2|]. split; [auto|].
    intros from to id type size Hin. apply elem_of_cons in Hin as [<-|Hin].
    + rewrite Hrel in Hkeep2. split; apply Hkeep2; rewrite !peer_add_peer; auto.
    + now apply (Hsent2 from to id type size).
Qed.

(** X23.  The relationships of the monitor are symmetric and only ever
    grow: after any logging calls every agent is a peer of its peers, the
    sender and the recipient of every logged message are peers of each other,
    and no pair of peers has been lost. *)
Theorem relationships_stay_symmetric (es : list Event) w :
  symmetric (agent_relationships (monitor w)) ->
  exists w',
    log_all fzero of_int fadd fmul fdiv clock es w = (Ok tt, w')
    /\ symmetric (agent_relationships (monitor w'))
    /\ (forall a b : string,
          peer (agent_relationships (monitor w)) a b ->
          peer (agent_relationships (monitor w')) a b)
    /\ (forall (from to id type : string) (size : Z),
          MessageSent from to id type size ∈ es ->
          peer (agent_relationships (monitor w')) from to
          /\ peer (agent_relationships (monitor w')) to from).
Proof. apply log_all_relationships. Qed.

Lemma flows_between_sym (a b : string) (flow : MessageFlow) :
  flows_between a b flow = flows_between b a flow.
Proof. unfold flows_between. apply orb_comm. Qed.

Lemma count_between_fold (a b : string) (flows : list MessageFlow) (n : Z) :
  fold_left (fun count flow => if flows_between a b flow then count + 1 else count) flows n
  = n + Z.of_nat (length (filter (fun flow => flows_between a b flow = true) flows)).
Proof.
  revert n. induction flows as [|flow flows IH]; intros n; cbn [fold_left].
  - cbn. lia.
  - rewrite IH. destruct (flows_between a b flow) eqn:Hb.
    + rewrite filter_cons_True by exact Hb. cbn [length]. lia.
    + rewrite filter_cons_False by congruence. lia.
Qed.

Lemma count_between_sym (a b : string) (m : AgentMonitor (F := F)) :
  _get_message_count_between a b m = _get_message_count_between b a m.
Proof.
  unfold _get_message_count_between. rewrite !count_between_fold. do 3 f_equal.
  apply list_filter_iff. intros flow. now rewrite flows_between_sym.
Qed.

Section Topology.

Variable relationships_items : gmap string (gset string) -> list (string * gset string).
Variable visit : gset string -> list string.

Lemma elem_of_topology_edges (m : AgentMonitor (F := F)) (edge : Edge) :
  lists_items relationships_items ->
  lists_set visit ->
  edge ∈ topology_edges relationships_items visit m
  <-> peer (agent_relationships m) (edge_source edge) (edge_target edge)
      /\ edge_message_count edge
         = _get_message_count_between (edge_source edge) (edge_target edge) m.
Proof.
  intros Hitems Hvisit. unfold topology_edges, peer. rewrite list_elem_of_bind. split.
  - intros ([a X] & Hedge & Hin). apply Hitems in Hin. cbn in Hedge.
    apply list_elem_of_fmap in Hedge as (b & -> & Hb). apply Hvisit in Hb. cbn.
    rewrite Hin. cbn. now split.
  - intros [Hp Hc]. destruct (agent_relationships m !! edge_source edge) as [X|] eqn:HX;
      [|now apply elem_of_empty in Hp].
    cbn in Hp. exists (edge_source edge, X). split; [|now apply Hitems].
    apply list_elem_of_fmap. exists (edge_target edge). cbn. split; [|now apply Hvisit].
    destruct edge as [s t n]. cbn in *. now rewrite Hc.
Qed.

(** X24.  Every edge of the topology goes from an agent to one of its
    peers, and its message count is the number of recorded flows between the
    two, in either direction; it never exceeds [max_history_size].  Where the
    relationships are symmetric, as the logging calls keep them, every edge
    has its mirror image with the same count. *)
Theorem every_edge_has_its_mirror (m : AgentMonitor (F := F)) :
  lists_items relationships_items ->
  lists_set visit ->
  symmetric (agent_relationships m) ->
  bounded m ->
  forall edge : Edge,
    edge ∈ topology_edges relationships_items visit m ->
    peer (agent_relationships m) (edge_source edge) (edge_target edge)
    /\ edge_message_count edge
       = Z.of_nat (length (filter (fun flow =>
                                     flows_between (edge_source edge) (edge_target edge) flow = true)
                                  (message_flows m)))
    /\ 0 <= edge_message_count edge <= Z.of_nat (max_history_size m)
    /\ {| edge_source := edge_target edge;
          edge_target := edge_source edge;
          edge_message_count := edge_message_count edge |}
       ∈ topology_edges relationships_items visit m.
Proof.
  intros Hitems Hvisit Hsym [_ Hb] edge Hin.
  apply (elem_of_topology_edges m edge Hitems Hvisit) in Hin as [Hp Hc].
  assert (Hcount : edge_message_count edge
                   = Z.of_nat (length (filter (fun flow =>
                        flows_between (edge_source edge) (edge_target edge) flow = true)
                        (message_flows m)))).
  { rewrite Hc. unfold _get_message_count_between. rewrite count_between_fold. lia. }
  split; [exact Hp|]. split; [exact Hcount|]. split.
  - rewrite Hcount. pose proof (length_filter (fun flow =>
      flows_between (edge_source edge) (edge_target edge) flow = true) (message_flows m)). lia.
  - apply (elem_of_topology_edges m _ Hitems Hvisit). cbn. split; [now apply Hsym|].
    rewrite Hc. apply count_between_sym.
Qed.

End Topology.

End Properties.

Lemma sample_items_lists_items {V : Type} : lists_items (sample_items (V := V)).
Proof. intros d k v. unfold sample_items. apply elem_of_map_to_list. Qed.

Lemma sample_visit_lists_set : lists_set sample_visit.
Proof. intros X a. apply elem_of_elements. Qed.

Lemma busy_world_symmetric : symmetric (agent_relationships (monitor busy_world)).
Proof.
  destruct (log_all_relationships 0%Q inject_Z Qplus Qmult Qdiv sample_clock
              [Registered "worker" "Worker" [];
               MessageSent "worker" "api_server" "m-1" "request" 10;
               MessageReceived "worker" "api_server" "m-2" "request" 10]
              empty_world) as (w' & E & Hsym & _).
  - intros a b Hp. unfold peer in Hp. cbn in Hp. rewrite lookup_empty in Hp.
    now apply elem_of_empty in Hp.
  - assert (Hb : log_all 0%Q inject_Z Qplus Qmult Qdiv sample_clock
                   [Registered "worker" "Worker" [];
                    MessageSent "worker" "api_server" "m-1" "request" 10;
                    MessageReceived "worker" "api_server" "m-2" "request" 10]
                   empty_world = (Ok tt, busy_world)) by (vm_compute; reflexivity).
    rewrite Hb in E. now injection E as <-.
Qed.


Lemma relationships_stay_symmetric_witness :
  exists w',
    log_all 0%Q inject_Z Qplus Qmult Qdiv sample_clock busy_day busy_world = (Ok tt, w')
    /\ symmetric (agent_relationships (monitor w'))
    /\ peer (agent_relationships (monitor w')) "worker" "ghost".
Proof.
  destruct (relationships_stay_symmetric 0%Q inject_Z Qplus Qmult Qdiv sample_clock
              busy_day busy_world busy_world_symmetric) as (w' & E & Hsym & _ & Hsent).
  exists w'. split; [exact E|]. split; [exact Hsym|].
  apply (Hsent "ghost" "worker" "m-3" "request" 7). now left.
Defined.

Lemma every_edge_has_its_mirror_witness :
  {| edge_source := "api_server"; edge_target := "worker"; edge_message_count := 1 |}
  ∈ topology_edges sample_items sample_visit (monitor busy_world).
Proof.
  assert (Hb : bounded (monitor busy_world)) by (split; vm_compute; lia).
  apply (every_edge_has_its_mirror sample_items sample_visit (monitor busy_world)
           sample_items_lists_items sample_visit_lists_set busy_world_symmetric Hb
           {| edge_source := "worker"; edge_target := "api_server"; edge_message_count := 1 |}).
  apply (elem_of_topology_edges sample_items sample_visit (monitor busy_world) _
           sample_items_lists_items sample_visit_lists_set).
  split; [|reflexivity]. unfold peer. vm_compute. reflexivity.
Defined.

End MonitorOpsFacts.

Module ReportsFacts.

Import Executor Reports.

(** *** The steps of an execution that was run *)

Lemma run_step_shape
  (orc : Oracle) (n i : nat) (step step' : ExecutionStep) (r r' : Run) (c : bool) :
  untouched step ->
  healing_ok (run_exec r) ->
  run_step orc n i step r = (step', r', c) ->
  healing_ok (run_exec r')
  /\ (if c then completed_step step' else broken_step step').
Proof.
  intros (Hs & Hst & He & Hd & Hde & Hem & Hec & Hsc) Hok. unfold run_step.
  destruct (_should_step_fail _ _ _ _).
  - destruct (_attempt_auto_healing _ _ _) as [h a'] eqn:Hh. destruct (success h) eqn:Hsuc.
    + intros [= <- <- <-]. split.
      * intros h' [= <-]. exact Hsuc.
      * unfold completed_step. cbn. repeat split; eauto.
    + intros [= <- <- <-]. split.
      * exact Hok.
      * unfold broken_step. cbn. repeat split; eauto.
  - intros [= <- <- <-]. split.
    + exact Hok.
    + unfold completed_step. cbn. repeat split; eauto.
Qed.

Lemma run_steps_shape (orc : Oracle) (n : nat) (todo : list ExecutionStep) :
  forall (i : nat) (r : Run),
    Forall untouched todo ->
    healing_ok (run_exec r) ->
    let steps' := fst (run_steps orc n i todo r) in
    let r' := snd (run_steps orc n i todo r) in
    healing_ok (run_exec r')
    /\ ((status (run_exec r') = status (run_exec r)
         /\ result (run_exec r') = result (run_exec r)
         /\ Forall completed_step steps'
         /\ current_step (run_exec r')
            = match todo with
              | [] => current_step (run_exec r)
              | _ => Z.of_nat i + Z.of_nat (length todo)
              end)
        \/ (status (run_exec r') = FAILED
            /\ result (run_exec r') = Some R_FAILED
            /\ exists (done : list ExecutionStep) (f : ExecutionStep) (rest : list ExecutionStep),
                 steps' = done ++ f :: rest
                 /\ Forall completed_step done
                 /\ broken_step f
                 /\ Forall untouched rest
                 /\ current_step (run_exec r') = Z.of_nat i + Z.of_nat (length done) + 1)).
Proof.
  induction todo as [|step rest IH]; intros i r Hall Hok.
  - cbn. split; [exact Hok|]. left. repeat split. constructor.
  - apply Forall_cons in Hall as [Hstep Hrest].
    cbn [run_steps].
    destruct (run_step orc n i step r) as [[step' r1] c] eqn:Hrun.
    destruct (run_step_shape _ _ _ _ _ _ _ _ Hstep Hok Hrun) as [Hok1 Hshape].
    destruct (ExecutorFacts.run_step_effect _ _ _ _ _ _ _ _ Hrun) as (Hcur & _ & _ & Hc).
    destruct c.
    + specialize (IH (S i) r1 Hrest Hok1).
      destruct (run_steps orc n (S i) rest r1) as [rest' r2]. cbn [fst snd] in *.
      destruct Hc as [Hst Hres].
      destruct IH as [Hok2 [(Hst2 & Hres2 & Hall2 & Hcur2)|(Hst2 & Hres2 & done & f & rest0 & -> & Hd & Hf & Hu & Hcur2)]].
      * split; [exact Hok2|]. left. split; [congruence|]. split; [congruence|].
        split; [now constructor|]. rewrite Hcur2.
        destruct rest as [|s rest1]; [rewrite Hcur; cbn; lia|cbn [length]; lia].
      * split; [exact Hok2|]. right. split; [exact Hst2|]. split; [exact Hres2|].
        exists (step' :: done), f, rest0. split; [reflexivity|].
        split; [now constructor|]. split; [exact Hf|]. split; [exact Hu|].
        rewrite Hcur2. cbn [length]. lia.
    + cbn [fst snd]. destruct Hc as [Hst Hres].
      split; [exact Hok1|]. right. split; [exact Hst|]. split; [exact Hres|].
      exists [], step', rest. split; [reflexivity|]. split; [constructor|].
      split; [exact Hshape|]. split; [exact Hrest|]. rewrite Hcur. cbn. lia.
Qed.

Lemma generated_steps_untouched (transaction : string) :
  Forall untouched (_generate_execution_steps transaction).
Proof.
  unfold _generate_execution_steps. apply Forall_forall. intros s Hs.
  apply elem_of_lookup_imap in Hs as (i & text & -> & _). now repeat split.
Qed.

(** An execution that is started with its steps untouched comes out of
    [simulate] completed or failed, with the steps to match. *)
Lemma simulate_shape (orc : Oracle) (e : TestExecution) (asked : nat) :
  status e = RUNNING ->
  total_steps e = Z.of_nat (length (execution_steps e)) ->
  (1 <= length (execution_steps e))%nat ->
  Forall untouched (execution_steps e) ->
  healing_ok e ->
  shape (fst (simulate orc e asked)) /\ healing_ok (fst (simulate orc e asked)).
Proof.
  intros Hrun Htot Hlen Hsteps Hok. unfold simulate.
  set (r0 := {| run_exec := e; current_time := now orc asked;
                total_duration := 0; run_asked := S asked |}).
  pose proof (run_steps_shape orc (length (execution_steps e)) (execution_steps e) 0%nat r0
                Hsteps Hok) as Hshape.
  pose proof (ExecutorFacts.run_steps_effect orc (length (execution_steps e))
                (execution_steps e) 0%nat r0) as Heff.
  destruct (run_steps orc (length (execution_steps e)) 0 (execution_steps e) r0) as [steps r].
  cbn [fst snd] in *. cbv zeta in Heff, Hshape.
  destruct Heff as (_ & Ht & _). subst r0. cbn [run_exec] in *.
  destruct Hshape
    as [Hok' [(Hs & Hr & Hall & Hcur)|(Hs & Hr & done & f & rest & -> & Hd & Hf & Hu & Hcur)]].
  - rewrite Hs, Hrun. split; [|exact Hok'].
    unfold shape. cbn. split; [reflexivity|]. split; [exact Hall|].
    rewrite Ht, Htot, Hcur.
    destruct (execution_steps e) as [|s ss]; [cbn in Hlen; lia|]. lia.
  - rewrite Hs. split; [|exact Hok'].
    unfold shape. cbn. rewrite Hs. split; [exact Hr|].
    exists done, f, rest. split; [reflexivity|]. split; [exact Hd|]. split; [exact Hf|].
    split; [exact Hu|]. cbn. rewrite Hcur. lia.
Qed.

(** *** The bookkeeping of the agent *)

Lemma ids_apart_inj (os : list TestExecution) (l l' : nat) (e e' : TestExecution) :
  NoDup (execution_id <$> os) ->
  os !! l = Some e -> os !! l' = Some e' -> execution_id e = execution_id e' -> l = l'.
Proof.
  intros Hnd Hl Hl' Hid.
  eapply NoDup_lookup; [exact Hnd| |]; rewrite list_lookup_fmap.
  - rewrite Hl. reflexivity.
  - rewrite Hl'. cbn. now rewrite Hid.
Qed.

Lemma orderly_set_queue (q : list string) (w : World) : orderly w -> orderly (set_queue q w).
Proof. intros [H1 H2 H3 H4 H5]. now constructor. Qed.

Lemma orderly_set_asked (n : nat) (w : World) : orderly w -> orderly (set_asked n w).
Proof. intros [H1 H2 H3 H4 H5]. now constructor. Qed.

Lemma orderly_set_capacity (capacity : Z) (w : World) : orderly w -> orderly (set_capacity capacity w).
Proof. intros [H1 H2 H3 H4 H5]. now constructor. Qed.

Lemma new_agent_orderly (capacity : Z) : orderly (new_agent capacity).
Proof.
  constructor; cbn.
  - constructor.
  - constructor.
  - intros id l e Hl. now rewrite lookup_empty in Hl.
  - intros l e He. discriminate.
  - intros l e Hin. now apply not_elem_of_nil in Hin.
Qed.

(** [_create_test_execution] files a new, queued execution. *)
Lemma create_kept (orc : Oracle) (test_case : gmap string string) (w : World) :
  fresh_ids orc -> tidy orc w -> orderly w ->
  let l := fst (_create_test_execution orc test_case w) in
  let w1 := snd (_create_test_execution orc test_case w) in
  tidy orc w1 /\ orderly w1
  /\ exists e : TestExecution,
       objects w1 !! l = Some e /\ status e = QUEUED /\ execution_id e ∉ execution_queue w1.
Proof.
  intros Hfresh [Hids Hqk Hqa Haf Hhv] [Hsh Hnd Haq Hfi Hhf].
  destruct w as [act q h c os a]. cbn in Hids, Hqk, Hqa, Haf, Hhv, Hsh, Hnd, Haq, Hfi, Hhf.
  unfold _create_test_execution. cbn [fst snd asked objects]. cbv zeta.
  set (e := {| execution_id := ident orc a; test_case_id := _; test_name := _;
               transaction := _; status := QUEUED; result := None;
               start_time := _; end_time := None; duration_seconds := None;
               current_step := 0; total_steps := _; execution_steps := _;
               auto_healing := None |}).
  assert (Hnew : forall l' e', os !! l' = Some e' -> execution_id e' <> ident orc a).
  { intros l' e' Hl'. destruct (Hids l' e' Hl') as (k & Hk & ->).
    intros Heq. apply Hfresh in Heq. lia. }
  split; [|split].
  - constructor.
    + intros l' e'. cbn. intros [[_ Hl']|[_ <-]]%lookup_snoc_Some.
      * destruct (Hids l' e' Hl') as (k & Hk & ->). exists k. split; [lia|reflexivity].
      * exists a. split; [lia|reflexivity].
    + intros id. cbn. intros Hin.
      destruct (Hqk id Hin) as (k & Hk & ->). exists k. split; [lia|reflexivity].
    + intros id l' e'. cbn. intros Hin Hl' [[_ Hlook]|[-> _]]%lookup_snoc_Some.
      * now apply (Hqa id l' e').
      * apply Hhv in Hl'. lia.
    + intros id l'. cbn. intros [[<- <-]|[Hne Hl']]%lookup_insert_Some.
      * exists e. split; [now rewrite list_lookup_middle|reflexivity].
      * destruct (Haf id l' Hl') as (e' & Hl & Hide). exists e'.
        split; [now apply lookup_app_l_Some|exact Hide].
    + intros l' Hl'. cbn. rewrite length_app. cbn. cbn in Hl'. apply Hhv in Hl'. lia.
  - constructor; cbn.
    + apply Forall_app_2; [exact Hsh|]. constructor; [|constructor]. split.
      * unfold shape. cbn. split; [reflexivity|apply generated_steps_untouched].
      * intros h'. discriminate.
    + rewrite fmap_app. apply NoDup_app. split; [exact Hnd|]. split.
      * intros id Hin Hin'. cbn in Hin'. apply list_elem_of_singleton in Hin'. subst id.
        apply list_elem_of_fmap in Hin as (e' & Heq & Hin).
        apply list_elem_of_lookup in Hin as (l' & Hl').
        apply (Hnew l' e' Hl'). now symmetry.
      * cbn. apply NoDup_singleton.
    + intros id l' e'. intros [[<- <-]|[Hne Hl']]%lookup_insert_Some.
      * rewrite list_lookup_middle by reflexivity. now intros [= <-].
      * intros [[_ Hlook]|[-> _]]%lookup_snoc_Some.
        -- now apply (Haq id l' e').
        -- destruct (Haf id (length os) Hl') as (e0 & Hl0 & _).
           apply lookup_lt_Some in Hl0. lia.
    + intros l' e'. intros [[_ Hlook]|[-> <-]]%lookup_snoc_Some.
      * destruct (Hfi l' e' Hlook) as [Hact|Hin]; [left|now right].
        rewrite lookup_insert_ne; [exact Hact|]. intros Heq.
        apply (Hnew l' e' Hlook). now symmetry.
      * left. cbn. now rewrite lookup_insert_eq.
    + intros l' e' Hin. intros [[_ Hlook]|[-> _]]%lookup_snoc_Some.
      * now apply (Hhf l' e').
      * apply Hhv in Hin. lia.
  - exists e. cbn. split; [now rewrite list_lookup_middle|]. split; [reflexivity|].
    intros Hin. destruct (Hqk _ Hin) as (k & Hk & Heq). apply Hfresh in Heq. lia.
Qed.

(** [_start_execution], up to the call of [_process_execution_queue] in
    which it ends, runs a queued execution and files it in the history. *)
Lemma finished_kept (orc : Oracle) (l : nat) (e : TestExecution) (w : World) :
  tidy orc w -> orderly w ->
  objects w !! l = Some e -> status e = QUEUED -> sound e ->
  execution_id e ∉ execution_queue w ->
  tidy orc (finished orc l e w) /\ orderly (finished orc l e w).
Proof.
  intros [Hids Hqk Hqa Haf Hhv] [Hsh Hnd Haq Hfi Hhf] He Hst (_ & Htot & Hlen) Hnq.
  assert (Hlt : (l < length (objects w))%nat) by (eapply lookup_lt_Some; eassumption).
  destruct (Forall_lookup_1 _ _ _ _ Hsh He) as [Hshape Hheal].
  unfold shape in Hshape. rewrite Hst in Hshape. destruct Hshape as [_ Huntouched].
  pose proof (ExecutorFacts.simulate_asked orc (set_current_step 1 (set_status RUNNING e)) (asked w)) as Ha'.
  destruct (ExecutorFacts.simulate_sound orc (set_current_step 1 (set_status RUNNING e)) (asked w)
              eq_refl Htot Hlen) as (_ & Hterm & Hid0).
  destruct (simulate_shape orc (set_current_step 1 (set_status RUNNING e)) (asked w)
              eq_refl Htot Hlen Huntouched Hheal) as [Hshape' Hheal'].
  unfold finished.
  set (e' := fst (simulate orc (set_current_step 1 (set_status RUNNING e)) (asked w))) in *.
  set (a' := snd (simulate orc (set_current_step 1 (set_status RUNNING e)) (asked w))) in *.
  assert (Hid' : execution_id e' = execution_id e) by exact Hid0.
  clear Hid0. clearbody e' a'.
  assert (Hother : forall id' l', id' <> execution_id e -> active_executions w !! id' = Some l' ->
                                  l' <> l).
  { intros id' l' Hne Hl' ->. destruct (Haf id' l Hl') as (e1 & He1 & Hid1). congruence. }
  split.
  - constructor; cbn.
    + intros l' e0. destruct (decide (l' = l)) as [->|Hne].
      * rewrite list_lookup_insert_eq by exact Hlt. intros [= <-].
        destruct (Hids l e He) as (k & Hk & Hidk). exists k. split; [lia|congruence].
      * rewrite list_lookup_insert_ne by congruence. intros Hl'.
        destruct (Hids l' e0 Hl') as (k & Hk & Hidk). exists k. split; [lia|exact Hidk].
    + intros id Hin. destruct (Hqk id Hin) as (k & Hk & Hidk). exists k. split; [lia|exact Hidk].
    + intros id l' e0 Hin Hl'. destruct (decide (l' = l)) as [->|Hne].
      * rewrite list_lookup_insert_eq by exact Hlt. intros [= <-]. rewrite Hid'.
        intros Heq. apply Hnq. now rewrite Heq.
      * rewrite list_lookup_insert_ne by congruence. intros Hlook.
        apply elem_of_app in Hl' as [Hl'|Hs%list_elem_of_singleton]; [|congruence].
        now apply (Hqa id l' e0).
    + intros id l'. intros [Hne Hl']%lookup_delete_Some.
      destruct (Haf id l' Hl') as (e0 & Hlook & Hide). exists e0. split; [|exact Hide].
      rewrite list_lookup_insert_ne; [exact Hlook|]. intros <-. now apply (Hother id l).
    + intros l'. rewrite length_insert.
      intros [Hl'|Hs%list_elem_of_singleton]%elem_of_app; [now apply Hhv|now subst l'].
  - constructor; cbn.
    + apply Forall_insert; [exact Hsh|]. now split.
    + rewrite list_fmap_insert, list_insert_id; [exact Hnd|].
      rewrite list_lookup_fmap, He. cbn. now rewrite Hid'.
    + intros id l' e0. intros [Hne Hl']%lookup_delete_Some.
      rewrite list_lookup_insert_ne by (intros <-; now apply (Hother id l)).
      now apply (Haq id l' e0).
    + intros l' e0. destruct (decide (l' = l)) as [->|Hne].
      * intros _. right. apply elem_of_app. right. constructor.
      * rewrite list_lookup_insert_ne by congruence. intros Hlook.
        destruct (Hfi l' e0 Hlook) as [Hact|Hin].
        -- left. rewrite lookup_delete_ne; [exact Hact|].
           intros Heq. apply Hne. symmetry.
           exact (ids_apart_inj _ _ _ _ _ Hnd He Hlook Heq).
        -- right. apply elem_of_app. now left.
    + intros l' e0 Hin. destruct (decide (l' = l)) as [->|Hne].
      * rewrite list_lookup_insert_eq by exact Hlt. now intros [= <-].
      * rewrite list_lookup_insert_ne by congruence. intros Hlook.
        apply elem_of_app in Hin as [Hin|Hs%list_elem_of_singleton]; [|congruence].
        now apply (Hhf l' e0).
Qed.

(** One submission: the execution is created, and run or queued. *)
Lemma submit_orderly (orc : Oracle) (test_case : gmap string string) (w : World) :
  fresh_ids orc -> tidy orc w -> all_sound w -> orderly w ->
  let l := fst (_create_test_execution orc test_case w) in
  let w1 := snd (_create_test_execution orc test_case w) in
  let w2 := if has_capacity w1
            then _start_execution orc (_process_execution_queue orc) l w1
            else set_queue (execution_queue w1 ++ [id_of l w1]) w1 in
  orderly w2.
Proof.
  intros Hfresh Ht Hs Ho.
  pose proof (ExecutorFacts.create_test_execution_sound orc test_case w Hs) as Hs1.
  destruct (create_kept orc test_case w Hfresh Ht Ho) as (Ht1 & Ho1 & e & He & Hst & Hnq).
  destruct (_create_test_execution orc test_case w) as [l w1]. cbn [fst snd] in *. cbv zeta.
  destruct (has_capacity w1); [|now apply orderly_set_queue].
  rewrite (ExecutorFacts.start_execution_unfold orc _ _ e w1 He).
  destruct (finished_kept orc l e w1 Ht1 Ho1 He Hst (ExecutorFacts.sound_lookup w1 l e Hs1 He) Hnq)
    as [Ht' Ho'].
  rewrite ExecutorFacts.process_execution_queue_discards
    by (intros id Hin; apply (ExecutorFacts.tidy_find_none orc); assumption).
  destruct (has_capacity _); [now apply orderly_set_queue|exact Ho'].
Qed.

Lemma submit_all_orderly (orc : Oracle) (test_cases : list (gmap string string)) :
  fresh_ids orc ->
  forall w : World,
    tidy orc w -> all_sound w -> orderly w -> orderly (snd (submit_all orc test_cases w)).
Proof.
  intros Hfresh. induction test_cases as [|test_case rest IH]; intros w Ht Hs Ho;
    cbn [submit_all]; [exact Ho|].
  pose proof (submit_orderly orc test_case w Hfresh Ht Hs Ho) as Ho2.
  destruct (ExecutorFacts.submit_tidy orc test_case w Hfresh Ht) as [Ht2 _].
  pose proof (ExecutorFacts.create_test_execution_sound orc test_case w Hs) as Hs1.
  destruct (_create_test_execution orc test_case w) as [l w1]. cbn [fst snd] in *.
  cbv zeta in Ho2, Ht2.
  pose proof (ExecutorFacts.submit_sound orc l w1 Hs1) as Hs2.
  specialize (IH _ Ht2 Hs2 Ho2).
  destruct (submit_all orc rest _) as [ls w2]. exact IH.
Qed.

(** Cancelling an execution that is filed as active leaves its steps
    alone and files it in the history. *)
Lemma cancel_execution_orderly (orc : Oracle) (id : string) (w : World) :
  tidy orc w -> orderly w -> orderly (snd (cancel_execution orc id w)).
Proof.
  intros [Hids Hqk Hqa Haf Hhv] Ho. unfold cancel_execution.
  destruct (bool_decide (id ∈ execution_queue w)); [now apply orderly_set_queue|].
  destruct (active_executions w !! id) as [l|] eqn:Hact; [|exact Ho].
  destruct (objects w !! l) as [e|] eqn:He; [|exact Ho].
  cbn [snd]. destruct Ho as [Hsh Hnd Haq Hfi Hhf].
  destruct (Haf id l Hact) as (e0 & He0 & Hid0). rewrite He in He0. injection He0 as <-.
  assert (Hlt : (l < length (objects w))%nat) by (eapply lookup_lt_Some; eassumption).
  pose proof (Haq id l e Hact He) as Hst.
  destruct (Forall_lookup_1 _ _ _ _ Hsh He) as [Hshape Hheal].
  unfold shape in Hshape. rewrite Hst in Hshape. destruct Hshape as [_ Huntouched].
  assert (Hother : forall id' l', id' <> id -> active_executions w !! id' = Some l' -> l' <> l).
  { intros id' l' Hne Hl' ->. destruct (Haf id' l Hl') as (e0 & He0 & Hid'). congruence. }
  constructor; cbn.
  - apply Forall_insert; [exact Hsh|]. split; [|exact Hheal].
    unfold shape. cbn. split; [reflexivity|exact Huntouched].
  - rewrite list_fmap_insert, list_insert_id; [exact Hnd|].
    rewrite list_lookup_fmap, He. reflexivity.
  - intros id' l' e0. intros [Hne Hl']%lookup_delete_Some.
    rewrite list_lookup_insert_ne by (intros <-; now apply (Hother id' l)).
    now apply (Haq id' l' e0).
  - intros l' e0. destruct (decide (l' = l)) as [->|Hne].
    + intros _. right. apply elem_of_app. right. constructor.
    + rewrite list_lookup_insert_ne by congruence. intros Hlook.
      destruct (Hfi l' e0 Hlook) as [Hact'|Hin].
      * left. rewrite lookup_delete_ne; [exact Hact'|].
        intros Heq. apply Hne. symmetry. rewrite <- Hid0 in Heq.
        exact (ids_apart_inj _ _ _ _ _ Hnd He Hlook Heq).
      * right. apply elem_of_app. now left.
  - intros l' e0 Hin. destruct (decide (l' = l)) as [->|Hne].
    + rewrite list_lookup_insert_eq by exact Hlt. now intros [= <-].
    + rewrite list_lookup_insert_ne by congruence. intros Hlook.
      apply elem_of_app in Hin as [Hin|Hs%list_elem_of_singleton]; [|congruence].
      now apply (Hhf l' e0).
Qed.

Lemma handle_orderly (orc : Oracle) (rq : Request) (w : World) :
  fresh_ids orc -> tidy orc w -> all_sound w -> orderly w -> orderly (handle orc rq w).
Proof.
  intros Hfresh Ht Hs Ho. destruct rq as [test_case|test_cases|id|capacity]; cbn [handle].
  - unfold execute_single_test.
    destruct (bool_decide (test_case = ∅)); [exact Ho|].
    pose proof (submit_orderly orc test_case w Hfresh Ht Hs Ho) as Ho2.
    destruct (_create_test_execution orc test_case w) as [l w1]. cbn [fst snd] in Ho2.
    cbv zeta in Ho2. now destruct (has_capacity w1).
  - unfold execute_test_suite.
    destruct test_cases as [|test_case rest]; [exact Ho|].
    pose proof (submit_all_orderly orc (test_case :: rest) Hfresh (set_asked (S (asked w)) w)
                  (ExecutorFacts.tidy_set_asked orc (S (asked w)) w (Nat.le_succ_diag_r _) Ht)
                  Hs (orderly_set_asked _ _ Ho)) as Ho2.
    destruct (submit_all orc (test_case :: rest) _) as [ls w1]. exact Ho2.
  - now apply cancel_execution_orderly.
  - now apply orderly_set_capacity.
Qed.

Lemma run_orderly (orc : Oracle) (requests : list Request) :
  fresh_ids orc ->
  forall w : World,
    tidy orc w -> all_sound w -> orderly w -> orderly (run orc requests w).
Proof.
  intros Hfresh. induction requests as [|rq requests IH]; intros w Ht Hs Ho; [exact Ho|].
  apply IH.
  - now apply ExecutorFacts.handle_tidy.
  - now apply ExecutorFacts.handle_sound.
  - now apply handle_orderly.
Qed.

Lemma reachable_orderly (orc : Oracle) (capacity : Z) (requests : list Request) :
  fresh_ids orc ->
  tidy orc (run orc requests (new_agent capacity))
  /\ orderly (run orc requests (new_agent capacity)).
Proof.
  intros Hfresh. split.
  - apply ExecutorFacts.run_tidy; [exact Hfresh|apply ExecutorFacts.new_agent_tidy].
  - apply run_orderly; [exact Hfresh|apply ExecutorFacts.new_agent_tidy|constructor|
                        apply new_agent_orderly].
Qed.

(** X25.  When the oracle's identifiers are distinct, the status of every
    execution the agent ever created tells what its steps look like.  A queued
    or cancelled execution has no step that was begun.  A completed one has
    result [PASSED], every step passed and timed, and [current_step] equal to
    [total_steps].  A failed one has result [FAILED] and exactly one failed
    step, at [current_step], with passed steps before it and untouched steps
    after it.  No execution is left running, and a healing record, when there
    is one, is a success. *)
Theorem status_tells_the_steps
  (orc : Oracle) (capacity : Z) (requests : list Request) (l : nat) (e : TestExecution) :
  fresh_ids orc ->
  objects (run orc requests (new_agent capacity)) !! l = Some e ->
  shape e /\ healing_ok e.
Proof.
  intros Hfresh He.
  destruct (reachable_orderly orc capacity requests Hfresh) as [_ Ho].
  exact (Forall_lookup_1 _ _ _ _ (shapes _ Ho) He).
Qed.

(** *** Looking an execution up *)

Lemma find_in_history_Some (id : string) (w : World) (l : nat) :
  find_in_history id w = Some l ->
  l ∈ execution_history w
  /\ exists e : TestExecution, objects w !! l = Some e /\ execution_id e = id.
Proof.
  unfold find_in_history. intros [Hin Hp]%List.find_some.
  split; [now apply list_elem_of_In|].
  destruct (objects w !! l) as [e|]; [|discriminate].
  exists e. split; [reflexivity|]. now apply String.eqb_eq.
Qed.

Lemma find_in_history_None (id : string) (w : World) (l : nat) (e : TestExecution) :
  find_in_history id w = None ->
  l ∈ execution_history w -> objects w !! l = Some e -> execution_id e <> id.
Proof.
  unfold find_in_history. intros Hnone Hin He Hid.
  apply list_elem_of_In in Hin.
  pose proof (List.find_none _ _ Hnone l Hin) as Hp. cbn in Hp.
  rewrite He in Hp. apply String.eqb_neq in Hp. contradiction.
Qed.

(** X26.  When the oracle's identifiers are distinct, [get_execution_status]
    answers with an execution exactly when the agent created an execution
    with that id, and it answers with that execution: every execution, waiting
    or finished, can be looked up by its id, and an unknown id finds
    nothing. *)
Theorem status_lookup_finds_the_execution
  (orc : Oracle) (capacity : Z) (requests : list Request) (id : string) (e : TestExecution) :
  fresh_ids orc ->
  let w := run orc requests (new_agent capacity) in
  get_execution_status id w = Some e <-> e ∈ objects w /\ execution_id e = id.
Proof.
  intros Hfresh w.
  destruct (reachable_orderly orc capacity requests Hfresh) as [Ht Ho]. fold w in Ht, Ho.
  unfold get_execution_status. split.
  - destruct (active_executions w !! id) as [l|] eqn:Hact.
    + intros He. destruct (active_filed orc w Ht id l Hact) as (e0 & He0 & Hid0).
      rewrite He in He0. injection He0 as <-.
      split; [eapply list_elem_of_lookup_2; eassumption|exact Hid0].
    + destruct (find_in_history id w) as [l|] eqn:Hfind; [|discriminate]. cbn.
      intros He. destruct (find_in_history_Some id w l Hfind) as (_ & e0 & He0 & Hid0).
      rewrite He in He0. injection He0 as <-.
      split; [eapply list_elem_of_lookup_2; eassumption|exact Hid0].
  - intros [[l He]%list_elem_of_lookup Hid].
    destruct (active_executions w !! id) as [l'|] eqn:Hact.
    + destruct (active_filed orc w Ht id l' Hact) as (e0 & He0 & Hid0).
      assert (l = l') by (apply (ids_apart_inj _ _ _ _ _ (ids_apart w Ho) He He0); congruence).
      now subst l'.
    + destruct (all_filed w Ho l e He) as [Hact'|Hin]; [congruence|].
      destruct (find_in_history id w) as [l'|] eqn:Hfind; cbn.
      * destruct (find_in_history_Some id w l' Hfind) as (_ & e0 & He0 & Hid0).
        assert (l = l') by (apply (ids_apart_inj _ _ _ _ _ (ids_apart w Ho) He He0); congruence).
        now subst l'.
      * exfalso. exact (find_in_history_None id w l e Hfind Hin He Hid).
Qed.

(** *** The history report *)

Lemma history_of_length (w : World) :
  (forall l : nat, l ∈ execution_history w -> (l < length (objects w))%nat) ->
  length (history_of w) = length (execution_history w).
Proof.
  unfold history_of. induction (execution_history w) as [|l ls IH]; intros Hv; [reflexivity|].
  cbn. destruct (lookup_lt_is_Some_2 (objects w) l (Hv l ltac:(constructor))) as [e He].
  rewrite He. cbn. f_equal. apply IH. intros l' Hl'. apply Hv. now constructor.
Qed.

Lemma history_of_finished (orc : Oracle) (w : World) (e : TestExecution) :
  orderly w -> e ∈ history_of w ->
  healing_ok e
  /\ (result e = Some R_PASSED \/ result e = Some R_FAILED \/ result e = Some R_SKIPPED).
Proof.
  intros Ho (l & Hin & He)%list_elem_of_omap.
  destruct (Forall_lookup_1 _ _ _ _ (shapes w Ho) He) as [Hshape Hheal].
  pose proof (history_finished w Ho l e Hin He) as Hterm.
  split; [exact Hheal|]. unfold shape in Hshape.
  destruct (status e); try discriminate; destruct Hshape as [Hr _]; auto.
Qed.

Lemma results_add_up (h : list TestExecution) :
  Forall (fun e => result e = Some R_PASSED \/ result e = Some R_FAILED
                   \/ result e = Some R_SKIPPED) h ->
  length h
  = (length (filter (fun e => has_result R_PASSED e = true) h)
     + length (filter (fun e => has_result R_FAILED e = true) h)
     + cancelled_executions h)%nat.
Proof.
  unfold cancelled_executions. induction 1 as [|e h He _ IH]; [reflexivity|].
  rewrite !filter_cons.
  repeat case_decide; cbn [length]; unfold has_result in *;
    (destruct He as [Hr|[Hr|Hr]]; rewrite Hr in *; try discriminate; try congruence; lia).
Qed.

Lemma healed_whenever_attempted (h : list TestExecution) :
  Forall healing_ok h ->
  filter (fun e => healing_attempted e && healing_succeeded e = true) h
  = filter (fun e => healing_attempted e = true) h.
Proof.
  induction 1 as [|e h He _ IH]; [reflexivity|].
  rewrite !filter_cons, IH.
  assert (Hb : healing_attempted e && healing_succeeded e = healing_attempted e).
  { unfold healing_attempted, healing_succeeded.
    destruct (auto_healing e) as [r|] eqn:Hr; [|reflexivity]. now rewrite (He r Hr). }
  repeat case_decide; congruence.
Qed.

Lemma attempted_existsb (h : list TestExecution) :
  (0 <? length (filter (fun e => healing_attempted e = true) h))%nat
  = existsb healing_attempted h.
Proof.
  induction h as [|e h IH]; [reflexivity|].
  rewrite filter_cons. cbn [existsb]. destruct (healing_attempted e); cbn; [reflexivity|exact IH].
Qed.

Lemma percent_all (n : nat) : (percent n n == if (0 <? n)%nat then 100 else 0)%Q.
Proof.
  unfold percent. destruct (0 <? n)%nat eqn:Hn; [|reflexivity].
  apply Nat.ltb_lt in Hn. unfold Qdiv. rewrite Qmult_inv_r; [reflexivity|].
  unfold Qeq. cbn. lia.
Qed.

Lemma slice_from_last {A : Type} (limit : Z) (l : list A) :
  slice_from (- limit) l
  = if limit =? 0 then l
    else if 0 <? limit then drop (length l - Z.to_nat limit) l
    else drop (Z.to_nat (- limit)) l.
Proof.
  unfold slice_from.
  destruct (Z.eqb_spec limit 0) as [->|Hne]; [cbn; now rewrite Z.min_l by lia|].
  destruct (Z.ltb_spec 0 limit) as [Hpos|Hneg].
  - rewrite (proj2 (Z.ltb_lt (- limit) 0)) by lia. f_equal. lia.
  - rewrite (proj2 (Z.ltb_ge (- limit) 0)) by lia.
    destruct (Z.le_ge_cases (- limit) (Z.of_nat (length l))) as [Hle|Hge].
    + now rewrite Z.min_l by lia.
    + rewrite Z.min_r by lia. rewrite Nat2Z.id, drop_all. symmetry. apply drop_ge. lia.
Qed.

(** X27.  When the oracle's identifiers are distinct, the history report of
    the agent adds up: every execution of the history passed, failed or was
    cancelled, so [total_executions] is the sum of [passed], [failed] and the
    cancelled ones, which the report does not list; the auto-healing success
    rate is 100 when some execution of the history was healed and 0
    otherwise, since a healing that fails is never recorded; and the report
    lists the last [limit] executions for a positive [limit], all of them for
    [limit = 0], and all but the first [-limit] for a negative one. *)
Theorem history_report_adds_up
  (orc : Oracle) (capacity : Z) (requests : list Request) (limit : Z) :
  fresh_ids orc ->
  let w := run orc requests (new_agent capacity) in
  let report := fst (get_execution_history orc limit w) in
  let stats := summary_stats report in
  total_executions stats = length (execution_history w)
  /\ total_executions stats
     = (passed stats + failed stats + cancelled_executions (history_of w))%nat
  /\ (auto_healing_success_rate stats
      == if existsb healing_attempted (history_of w) then 100 else 0)%Q
  /\ executions report
     = (if limit =? 0 then history_of w
        else if 0 <? limit then drop (length (history_of w) - Z.to_nat limit) (history_of w)
        else drop (Z.to_nat (- limit)) (history_of w)).
Proof.
  intros Hfresh w report stats.
  destruct (reachable_orderly orc capacity requests Hfresh) as [Ht Ho]. fold w in Ht, Ho.
  assert (Hall : forall e, e ∈ history_of w ->
                   healing_ok e
                   /\ (result e = Some R_PASSED \/ result e = Some R_FAILED
                       \/ result e = Some R_SKIPPED))
    by (intros e; now apply (history_of_finished orc)).
  subst stats report. unfold get_execution_history. cbn [fst summary_stats total_executions
    passed failed auto_healing_success_rate executions].
  split; [apply history_of_length, (history_valid orc w Ht)|].
  split; [apply results_add_up, Forall_forall; intros e He; apply (Hall e He)|].
  split.
  - rewrite healed_whenever_attempted
      by (apply Forall_forall; intros e He; apply (Hall e He)).
    rewrite percent_all, attempted_existsb. reflexivity.
  - rewrite <- slice_from_last.
    destruct (execution_history w) as [|l ls] eqn:Hh; [|reflexivity].
    unfold history_of. rewrite Hh. unfold slice_from. cbn [omap list_omap]. now rewrite drop_nil.
Qed.

(** *** Performance *)

Lemma Zsum_acc (l : list Z) : forall a : Z, fold_left Z.add l a = a + Zsum l.
Proof.
  unfold Zsum. induction l as [|x l IH]; intros a; cbn [fold_left]; [lia|].
  rewrite (IH (a + x)), (IH (0 + x)). lia.
Qed.

Lemma Zsum_bounds (lo hi : Z) (l : list Z) :
  Forall (fun x => lo <= x <= hi) l ->
  Z.of_nat (length l) * lo <= Zsum l <= Z.of_nat (length l) * hi.
Proof.
  induction 1 as [|x l Hx _ IH]; [cbn; lia|].
  unfold Zsum. cbn [fold_left length]. rewrite Zsum_acc. lia.
Qed.

Lemma Zmaximum_ge (l : list Z) :
  forall d : Z, d <= Zmaximum d l /\ Forall (fun x => x <= Zmaximum d l) l.
Proof.
  unfold Zmaximum. induction l as [|x l IH]; intros d; cbn; [split; [lia|constructor]|].
  destruct (IH (Z.max d x)) as [Hd Hl]. split; [lia|]. constructor; [lia|exact Hl].
Qed.

Lemma Zminimum_le (l : list Z) :
  forall d : Z, Zminimum d l <= d /\ Forall (fun x => Zminimum d l <= x) l.
Proof.
  unfold Zminimum. induction l as [|x l IH]; intros d; cbn; [split; [lia|constructor]|].
  destruct (IH (Z.min d x)) as [Hd Hl]. split; [lia|]. constructor; [lia|exact Hl].
Qed.

Lemma response_rating_cases (avg : Z) :
  response_rating_of avg = "excellent" \/ response_rating_of avg = "good"
  \/ response_rating_of avg = "poor".
Proof.
  unfold response_rating_of. destruct (avg <=? 2000); [now left|].
  destruct (avg <=? 5000); [right; now left|right; now right].
Qed.

Lemma cpu_rating_cases (cpu : Q) :
  (cpu_rating_of cpu = "excellent" /\ (cpu <= 50)%Q)
  \/ (cpu_rating_of cpu = "acceptable" /\ (cpu <= 50)%Q)
  \/ (cpu_rating_of cpu = "high" /\ (50 < cpu)%Q).
Proof.
  unfold cpu_rating_of. destruct (Qle_bool cpu 20) eqn:H20.
  - left. split; [reflexivity|]. apply Qle_bool_iff in H20. lra.
  - destruct (Qle_bool cpu 50) eqn:H50.
    + right. left. split; [reflexivity|]. now apply Qle_bool_iff.
    + right. right. split; [reflexivity|]. apply Qnot_le_lt. intros Hle.
      apply Qle_bool_iff in Hle. congruence.
Qed.

Lemma memory_rating_cases (memory : Z) :
  (memory_rating_of memory = "excellent" /\ memory <= 400)
  \/ (memory_rating_of memory = "acceptable" /\ memory <= 400)
  \/ (memory_rating_of memory = "high" /\ 400 < memory).
Proof.
  unfold memory_rating_of. destruct (Z.leb_spec memory 200); [left; split; [reflexivity|lia]|].
  destruct (Z.leb_spec memory 400); [right; left|right; right]; split; (reflexivity || lia).
Qed.

(** X28.  [_analyze_performance] raises [ValueError] exactly when the CPU
    usage is above 50 or the memory usage above 400: the rating ["high"] is
    not in the list by which the overall rating is chosen.  Otherwise the
    overall rating is one of the three ratings and is at least as good as each
    of them: it is the best rating, not the worst. *)
Theorem overall_rating_is_the_best (metrics : PerformanceMetrics) :
  (_analyze_performance (Some metrics) = Raise ValueError
   <-> (50 < cpu_usage_avg metrics)%Q \/ 400 < memory_usage_mb metrics)
  /\ forall a : PerformanceAnalysis,
       _analyze_performance (Some metrics) = Ok (Some a) ->
       response_time_rating a = response_rating_of (response_time_avg metrics)
       /\ cpu_usage_rating a = cpu_rating_of (cpu_usage_avg metrics)
       /\ memory_usage_rating a = memory_rating_of (memory_usage_mb metrics)
       /\ at_least_as_good (overall_rating a) (response_time_rating a)
       /\ at_least_as_good (overall_rating a) (cpu_usage_rating a)
       /\ at_least_as_good (overall_rating a) (memory_usage_rating a)
       /\ (overall_rating a = response_time_rating a
           \/ overall_rating a = cpu_usage_rating a
           \/ overall_rating a = memory_usage_rating a).
Proof.
  unfold _analyze_performance.
  destruct (response_rating_cases (response_time_avg metrics)) as [Hr|[Hr|Hr]];
    destruct (cpu_rating_cases (cpu_usage_avg metrics)) as [[Hc Hcb]|[[Hc Hcb]|[Hc Hcb]]];
    destruct (memory_rating_cases (memory_usage_mb metrics)) as [[Hm Hmb]|[[Hm Hmb]|[Hm Hmb]]];
    rewrite Hr, Hc, Hm; cbn;
    (split;
     [split; [intros Heq; try discriminate Heq; (now left) || (now right)
             |intros [Hlt|Hlt]; try reflexivity; exfalso; (lra || lia)]
     |intros a Heq; try discriminate Heq; injection Heq as <-; cbn;
      rewrite ?Hr, ?Hc, ?Hm; unfold at_least_as_good; cbn;
      repeat split; try lia; auto]).
Qed.

Lemma analyze_performance_returns (metrics : PerformanceMetrics) :
  (cpu_usage_avg metrics <= 50)%Q ->
  memory_usage_mb metrics <= 400 ->
  exists a : PerformanceAnalysis, _analyze_performance (Some metrics) = Ok (Some a).
Proof.
  intros Hcpu Hmem. unfold _analyze_performance.
  destruct (response_rating_cases (response_time_avg metrics)) as [Hr|[Hr|Hr]];
    destruct (cpu_rating_cases (cpu_usage_avg metrics)) as [[Hc Hcb]|[[Hc Hcb]|[Hc Hcb]]];
    destruct (memory_rating_cases (memory_usage_mb metrics)) as [[Hm Hmb]|[[Hm Hmb]|[Hm Hmb]]];
    try (exfalso; lra); try (exfalso; lia);
    rewrite Hr, Hc, Hm; cbn; eexists; reflexivity.
Qed.

Lemma uniform_range (a b u : Q) :
  (a <= b)%Q -> (0 <= u)%Q -> (u < 1)%Q -> (a <= uniform a b u)%Q /\ (uniform a b u <= b)%Q.
Proof. unfold uniform. intros Hab H0 H1. split; nra. Qed.

(** X29.  When the draws of the random source lie in their ranges,
    [_calculate_performance_metrics] returns no metrics exactly when no step
    of the execution has a duration; otherwise the average response time lies
    between the minimum and the maximum, the CPU, memory and latency figures
    lie in their ranges, and [_analyze_performance] returns a rating for these
    metrics: on metrics that the agent computed it never raises. *)
Theorem computed_metrics_are_rated
  (orc : Oracle) (randint : nat -> Z -> Z -> Z) (e : TestExecution) (asked : nat) :
  draws_in_range orc randint ->
  match fst (_calculate_performance_metrics orc randint e asked) with
  | None => step_durations e = []
  | Some metrics =>
      step_durations e <> []
      /\ response_time_min metrics <= response_time_avg metrics <= response_time_max metrics
      /\ (10 <= cpu_usage_avg metrics)%Q /\ (cpu_usage_avg metrics <= 25)%Q
      /\ 180 <= memory_usage_mb metrics <= 300
      /\ 15 <= network_latency_ms metrics <= 50
      /\ exists a : PerformanceAnalysis, _analyze_performance (Some metrics) = Ok (Some a)
  end.
Proof.
  intros [Hrandom Hrandint]. unfold _calculate_performance_metrics.
  destruct (step_durations e) as [|d rest]; [reflexivity|]. cbn [fst].
  destruct (Zmaximum_ge rest d) as [Hmax1 Hmax2].
  destruct (Zminimum_le rest d) as [Hmin1 Hmin2].
  assert (Hbounds : Forall (fun x => Zminimum d rest <= x <= Zmaximum d rest) (d :: rest)).
  { constructor; [lia|]. apply Forall_forall. intros x Hx.
    rewrite Forall_forall in Hmax2, Hmin2. split; [now apply Hmin2|now apply Hmax2]. }
  apply Zsum_bounds in Hbounds.
  destruct (Hrandom asked) as [H0 H1].
  destruct (uniform_range 10 25 (random orc asked) ltac:(lra) H0 H1) as [Hlo Hhi].
  pose proof (Hrandint (asked + 1)%nat 180 300 ltac:(lia)) as Hmem.
  pose proof (Hrandint (asked + 2)%nat 15 50 ltac:(lia)) as Hlat.
  split; [discriminate|]. cbn [response_time_min response_time_avg response_time_max
    cpu_usage_avg memory_usage_mb network_latency_ms].
  split.
  { assert (Hpos : 0 < Z.of_nat (length (d :: rest))) by (cbn [length]; lia). split.
    - apply Z.div_le_lower_bound; [exact Hpos|lia].
    - apply Z.div_le_upper_bound; [exact Hpos|lia]. }
  split; [exact Hlo|]. split; [exact Hhi|]. split; [exact Hmem|]. split; [exact Hlat|].
  apply analyze_performance_returns; cbn; [lra|lia].
Qed.

(** *** Quality metrics *)

Lemma count_status (status : string) (l : list ExecutionStep) (other : string) :
  Forall (fun s => step_status s = status) l ->
  length (filter (fun s => step_status s = other) l)
  = if decide (status = other) then length l else 0%nat.
Proof.
  induction 1 as [|s l Hs _ IH]; [now destruct (decide _)|].
  rewrite filter_cons, Hs. destruct (decide (status = other)); cbn [length]; now rewrite IH.
Qed.

Lemma completed_steps_passed (l : list ExecutionStep) :
  Forall completed_step l -> Forall (fun s => step_status s = "passed") l.
Proof. intros Hl. eapply Forall_impl; [exact Hl|]. now intros s [Hs _]. Qed.

Lemma untouched_steps_pending (l : list ExecutionStep) :
  Forall untouched l -> Forall (fun s => step_status s = "pending") l.
Proof. intros Hl. eapply Forall_impl; [exact Hl|]. now intros s [Hs _]. Qed.

(** X30.  When the oracle's identifiers are distinct, the quality metrics
    of every execution the agent created follow its status.  [total_steps] is
    that of the execution.  A completed execution has every step passed, no
    step failed and a step success rate of 100.  A failed execution has
    exactly one failed step and [current_step - 1] passed ones.  A queued or
    cancelled execution has no step passed or failed and a rate of 0.  And
    auto-healing is never reported as applied without being reported as
    successful. *)
Theorem quality_metrics_follow_the_status
  (orc : Oracle) (capacity : Z) (requests : list Request) (l : nat) (e : TestExecution)
  (validations : list (gmap string string)) :
  fresh_ids orc ->
  objects (run orc requests (new_agent capacity)) !! l = Some e ->
  let q := _calculate_quality_metrics e validations in
  Z.of_nat (quality_total_steps q) = total_steps e
  /\ auto_healing_success q = auto_healing_applied q
  /\ match status e with
     | COMPLETED =>
         passed_steps q = quality_total_steps q /\ failed_steps q = 0%nat
         /\ (step_success_rate q == 100)%Q
     | FAILED =>
         Z.of_nat (passed_steps q) = current_step e - 1 /\ failed_steps q = 1%nat
     | _ =>
         passed_steps q = 0%nat /\ failed_steps q = 0%nat /\ (step_success_rate q == 0)%Q
     end.
Proof.
  intros Hfresh He q.
  destruct (reachable_orderly orc capacity requests Hfresh) as [_ Ho].
  destruct (Forall_lookup_1 _ _ _ _ (shapes _ Ho) He) as [Hshape Hheal].
  assert (Hinit : all_sound (new_agent capacity)) by constructor.
  destruct (ExecutorFacts.sound_lookup _ l e (ExecutorFacts.run_sound orc requests _ Hinit) He)
    as (_ & Htot & Hlen).
  subst q. unfold _calculate_quality_metrics.
  cbn [quality_total_steps auto_healing_success auto_healing_applied passed_steps failed_steps
       step_success_rate].
  split; [now rewrite Htot|]. split.
  { unfold healing_succeeded, healing_attempted.
    destruct (auto_healing e) as [h|] eqn:Hh; [exact (Hheal h Hh)|reflexivity]. }
  unfold shape in Hshape. destruct (status e).
  - destruct Hshape as [_ Hsteps]. apply untouched_steps_pending in Hsteps.
    rewrite !(count_status "pending" _ _ Hsteps). cbn.
    repeat split. unfold percent. now destruct (0 <? _)%nat.
  - destruct Hshape.
  - destruct Hshape as (_ & Hsteps & _). apply completed_steps_passed in Hsteps.
    rewrite !(count_status "passed" _ _ Hsteps).
    rewrite !decide_True by reflexivity. rewrite decide_False by discriminate.
    repeat split; try reflexivity. rewrite percent_all.
    now rewrite (proj2 (Nat.ltb_lt 0 (length (execution_steps e)))) by lia.
  - destruct Hshape as (_ & done & f & rest & -> & Hd & Hf & Hu & Hcur).
    apply completed_steps_passed in Hd. apply untouched_steps_pending in Hu.
    destruct Hf as [Hf _].
    rewrite !filter_app, !filter_cons, Hf.
    rewrite decide_False by discriminate. rewrite decide_True by reflexivity.
    rewrite !length_app. cbn [length].
    rewrite !(count_status "passed" _ _ Hd), !(count_status "pending" _ _ Hu).
    rewrite decide_True by reflexivity. rewrite !decide_False by discriminate.
    split; lia.
  - destruct Hshape as [_ Hsteps]. apply untouched_steps_pending in Hsteps.
    rewrite !(count_status "pending" _ _ Hsteps). cbn.
    repeat split. unfold percent. now destruct (0 <? _)%nat.
Qed.

(** *** The theorems at concrete runs *)

Lemma doomed_fresh : fresh_ids doomed.
Proof.
  intros j k Hjk. unfold doomed, ident in Hjk.
  apply (inj (String.append "exec_")) in Hjk.
  exact (inj pretty j k Hjk).
Qed.

Lemma sample_draws_in_range : draws_in_range calm sample_randint.
Proof.
  split.
  - intros k. cbn. split; lra.
  - intros k lo hi Hle. unfold sample_randint. lia.
Qed.

Lemma status_tells_the_steps_witness :
  exists e : TestExecution,
    objects (run doomed [ExecuteSingleTest (test_case_for "ME21N")] (new_agent 3)) !! 0%nat
    = Some e
    /\ status e = FAILED /\ shape e /\ healing_ok e.
Proof.
  destruct (objects (run doomed [ExecuteSingleTest (test_case_for "ME21N")] (new_agent 3))
              !! 0%nat) as [e|] eqn:He.
  - exists e. split; [reflexivity|].
    destruct (status_tells_the_steps doomed 3 [ExecuteSingleTest (test_case_for "ME21N")]
                0%nat e doomed_fresh He) as [Hs Hh].
    split; [|split; assumption].
    vm_compute in He. injection He as <-. reflexivity.
  - vm_compute in He. discriminate He.
Defined.

Lemma status_lookup_finds_the_execution_witness :
  exists e : TestExecution,
    get_execution_status "exec_0"
      (run calm [ExecuteSingleTest (test_case_for "ME21N")] (new_agent 3)) = Some e
    /\ status e = COMPLETED.
Proof.
  destruct (objects (run calm [ExecuteSingleTest (test_case_for "ME21N")] (new_agent 3))
              !! 0%nat) as [e|] eqn:He.
  - exists e. split.
    + apply (status_lookup_finds_the_execution calm 3
               [ExecuteSingleTest (test_case_for "ME21N")] "exec_0" e ExecutorFacts.calm_fresh).
      split; [eapply list_elem_of_lookup_2; exact He|].
      vm_compute in He. injection He as <-. reflexivity.
    + vm_compute in He. injection He as <-. reflexivity.
  - vm_compute in He. discriminate He.
Defined.

Lemma history_report_adds_up_witness :
  let w := run doomed [ExecuteSingleTest (test_case_for "ME21N");
                       ExecuteSingleTest (test_case_for "MIGO");
                       Configure 1;
                       ExecuteSingleTest (test_case_for "VA01");
                       CancelExecution "exec_49"; CancelExecution "exec_49"] (new_agent 3) in
  let stats := summary_stats (fst (get_execution_history doomed 2 w)) in
  total_executions stats = 3%nat
  /\ passed stats = 1%nat /\ failed stats = 1%nat /\ cancelled_executions (history_of w) = 1%nat
  /\ total_executions stats
     = (passed stats + failed stats + cancelled_executions (history_of w))%nat
  /\ executions (fst (get_execution_history doomed 2 w)) = drop 1 (history_of w).
Proof.
  cbv zeta.
  destruct (history_report_adds_up doomed 3
              [ExecuteSingleTest (test_case_for "ME21N");
               ExecuteSingleTest (test_case_for "MIGO");
               Configure 1;
               ExecuteSingleTest (test_case_for "VA01");
               CancelExecution "exec_49"; CancelExecution "exec_49"] 2 doomed_fresh)
    as (Htotal & Hsum & _ & Hlist).
  split; [vm_compute; reflexivity|]. split; [vm_compute; reflexivity|].
  split; [vm_compute; reflexivity|]. split; [vm_compute; reflexivity|].
  split; [exact Hsum|]. rewrite Hlist. vm_compute. reflexivity.
Defined.

Lemma computed_metrics_are_rated_witness :
  exists (metrics : PerformanceMetrics) (a : PerformanceAnalysis),
    fst (_calculate_performance_metrics calm sample_randint sample_execution 0) = Some metrics
    /\ response_time_min metrics <= response_time_avg metrics <= response_time_max metrics
    /\ _analyze_performance (Some metrics) = Ok (Some a).
Proof.
  pose proof (computed_metrics_are_rated calm sample_randint sample_execution 0
                sample_draws_in_range) as Hrated.
  destruct (fst (_calculate_performance_metrics calm sample_randint sample_execution 0))
    as [metrics|].
  - destruct Hrated as (_ & Havg & _ & _ & _ & _ & a & Ha).
    exists metrics, a. split; [reflexivity|]. split; [exact Havg|exact Ha].
  - vm_compute in Hrated. discriminate Hrated.
Defined.

Lemma quality_metrics_follow_the_status_witness :
  exists e : TestExecution,
    objects (run doomed [ExecuteSingleTest (test_case_for "ME21N")] (new_agent 3)) !! 0%nat
    = Some e
    /\ status e = FAILED
    /\ failed_steps (_calculate_quality_metrics e []) = 1%nat
    /\ passed_steps (_calculate_quality_metrics e []) = 0%nat.
Proof.
  destruct (objects (run doomed [ExecuteSingleTest (test_case_for "ME21N")] (new_agent 3))
              !! 0%nat) as [e|] eqn:He.
  - exists e. split; [reflexivity|].
    pose proof (quality_metrics_follow_the_status doomed 3
                  [ExecuteSingleTest (test_case_for "ME21N")] 0%nat e [] doomed_fresh He)
      as Hq. cbv zeta in Hq.
    assert (Hs : status e = FAILED /\ current_step e = 1)
      by (vm_compute in He; injection He as <-; split; reflexivity).
    destruct Hs as [Hs Hc]. rewrite Hs, Hc in Hq.
    destruct Hq as (_ & _ & Hp & Hf).
    split; [exact Hs|]. split; [exact Hf|]. lia.
  - vm_compute in He. discriminate He.
Defined.

End ReportsFacts.
